(** * CyCore tutor bot: the conversation orchestration core

    A shallow embedding of the orchestration logic of the chatbot
    (src/guards.py, src/game.py, src/llm.py, src/session.py, the chat-input
    block and the conversation buttons of app.py, the loading of the stored
    conversations of src/data_loader.py and the password meter of
    src/login.py), the properties of it that its specification states, and
    further properties that the code shows.

    Modelling conventions.
    - Python [str] is [string]; a character is one [ascii].  The character
      classes ([str.isupper], [str.isdigit], [str.lower], [\w], [\s],
      [str.title]) and [len] are the ASCII ones: they are Python's on text
      for which [is_ascii] holds, and not on other text (an accented letter
      is a word character for Python and two bytes that are none here).
      A statement whose conclusion depends on the class of a character of a
      text therefore has [is_ascii] of that text among its hypotheses.
    - [st.session_state] is the record [Session]; [convos] is Python's
      insertion-ordered dict, kept as an association list.
    - Code that mutates the session is written in a small monad [M]: it reads
      an environment (the generation backend, the two [random.choice] draws of
      the turn, the next [uuid4]), threads the session, and ends in a normal
      return, in [st.rerun()] (which stops the script run), in an uncaught
      [KeyError], or out of fuel.
    - [save_convos] only talks to the remote store and never touches the
      session, so it does not appear.
    - [trace] is a ghost field: it records, in order, the calls the
      specification speaks about. *)

From Stdlib Require Import String Ascii List Bool Arith ZArith Lia.
From Stdlib Require Import DecimalString DecimalNat.
Import ListNotations.

Open Scope list_scope.
Open Scope string_scope.

(* ------------------------------------------------------------------ *)
(** ** Text *)

Module Text.

Definition nl : string := String "010" EmptyString.
Definition dquote : ascii := "034"%char.

Definition between (lo hi : nat) (c : ascii) : bool :=
  Nat.leb lo (nat_of_ascii c) && Nat.leb (nat_of_ascii c) hi.

(** [c.isupper()], [c.islower()], [c.isdigit()] and [c.isalpha()] of an
    ASCII character. *)
Definition is_upper (c : ascii) : bool := between 65 90 c.
Definition is_lower (c : ascii) : bool := between 97 122 c.
Definition is_digit (c : ascii) : bool := between 48 57 c.
Definition is_alpha (c : ascii) : bool := is_upper c || is_lower c.

(** [\w], on ASCII characters *)
Definition is_word (c : ascii) : bool :=
  is_alpha c || is_digit c || Ascii.eqb c "_"%char.

(** [\s], and the separators of [str.split()] and [str.strip()] *)
Definition is_space (c : ascii) : bool :=
  between 9 13 c || between 28 32 c.

Definition lower_char (c : ascii) : ascii :=
  if is_upper c then ascii_of_nat (nat_of_ascii c + 32) else c.

Definition upper_char (c : ascii) : ascii :=
  if is_lower c then ascii_of_nat (nat_of_ascii c - 32) else c.

Fixpoint map_chars (f : ascii -> ascii) (s : string) : string :=
  match s with
  | EmptyString => EmptyString
  | String c s' => String (f c) (map_chars f s')
  end.

Fixpoint filter_chars (p : ascii -> bool) (s : string) : string :=
  match s with
  | EmptyString => EmptyString
  | String c s' => if p c then String c (filter_chars p s') else filter_chars p s'
  end.

Fixpoint any_char (p : ascii -> bool) (s : string) : bool :=
  match s with
  | EmptyString => false
  | String c s' => p c || any_char p s'
  end.

(** [s.lower()], for ASCII text *)
Definition lower (s : string) : string := map_chars lower_char s.

(** [s.isascii()]: every character is below 128. On such text the
    character classes, [lower] and the length are those of Python. *)
Definition is_ascii (s : string) : bool :=
  negb (any_char (fun c => Nat.leb 128 (nat_of_ascii c)) s).

Definition is_empty (s : string) : bool :=
  match s with EmptyString => true | _ => false end.

(** [s.startswith(p)] *)
Definition startswith (p s : string) : bool := String.prefix p s.

(** [s.endswith(suf)]: some tail of [s] is [suf] *)
Fixpoint endswith (suf s : string) : bool :=
  String.eqb s suf ||
  match s with
  | EmptyString => false
  | String _ s' => endswith suf s'
  end.

(** [k in q] *)
Fixpoint contains (k q : string) : bool :=
  String.prefix k q ||
  match q with
  | EmptyString => false
  | String _ q' => contains k q'
  end.

(** [c in s] for one character *)
Definition char_in (c : ascii) (s : string) : bool := any_char (Ascii.eqb c) s.

(** [s[:n]] *)
Definition take (n : nat) (s : string) : string := String.substring 0 n s.

(** [sep.join(l)] *)
Definition join (sep : string) (l : list string) : string := String.concat sep l.

Fixpoint lstrip (s : string) : string :=
  match s with
  | EmptyString => EmptyString
  | String c s' => if is_space c then lstrip s' else s
  end.

Fixpoint rstrip (s : string) : string :=
  match s with
  | EmptyString => EmptyString
  | String c s' =>
      match rstrip s' with
      | EmptyString => if is_space c then EmptyString else String c EmptyString
      | r => String c r
      end
  end.

(** [s.strip()] *)
Definition strip (s : string) : string := rstrip (lstrip s).

(** [s.split()]: the maximal runs of non-space characters; [acc] is the run
    being read. *)
Fixpoint split_from (acc : string) (s : string) : list string :=
  match s with
  | EmptyString => if is_empty acc then [] else [acc]
  | String c s' =>
      if is_space c
      then (if is_empty acc then split_from EmptyString s'
            else acc :: split_from EmptyString s')
      else split_from (acc ++ String c EmptyString) s'
  end.

Definition split (s : string) : list string := split_from EmptyString s.

(** [s.title()]: a letter is upper-cased when the character before it is not
    a letter, and lower-cased otherwise. *)
Fixpoint title_from (prev_cased : bool) (s : string) : string :=
  match s with
  | EmptyString => EmptyString
  | String c s' =>
      if is_alpha c
      then String (if prev_cased then lower_char c else upper_char c)
                  (title_from true s')
      else String c (title_from false s')
  end.

Definition title (s : string) : string := title_from false s.

(** [str(n)] *)
Definition str_of_nat (n : nat) : string :=
  NilEmpty.string_of_uint (Nat.to_uint n).

(** [l[-n:]] *)
Definition last_n {A : Type} (n : nat) (l : list A) : list A :=
  skipn (length l - n) l.

Definition head (s : string) : option ascii :=
  match s with String c _ => Some c | EmptyString => None end.

(** last character of [s], or [prev] when [s] is empty *)
Fixpoint last_char (prev : option ascii) (s : string) : option ascii :=
  match s with
  | EmptyString => prev
  | String c s' => last_char (Some c) s'
  end.

(** [s] without the prefix [k], when it has it *)
Fixpoint strip_prefix (k s : string) : option string :=
  match k, s with
  | EmptyString, _ => Some s
  | String a k', String b s' => if Ascii.eqb a b then strip_prefix k' s' else None
  | String _ _, EmptyString => None
  end.

Definition is_word_opt (c : option ascii) : bool :=
  match c with Some c => is_word c | None => false end.

(** [\b] between two neighbouring positions: exactly one side is a word
    character (the ends of the text count as non-word). *)
Definition at_boundary (before after : option ascii) : bool :=
  xorb (is_word_opt before) (is_word_opt after).

(** The pattern [\b<k>\b] (with [k] escaped) matched at the current position;
    [prev] is the character before it. *)
Definition match_word_here (k : string) (prev : option ascii) (q : string) : bool :=
  match strip_prefix k q with
  | Some rest =>
      at_boundary prev (head q) && at_boundary (last_char prev k) (head rest)
  | None => false
  end.

Fixpoint search_word_from (k : string) (prev : option ascii) (q : string) : bool :=
  match_word_here k prev q ||
  match q with
  | EmptyString => false
  | String c q' => search_word_from k (Some c) q'
  end.

(** [bool(re.search(rf"\b{re.escape(k)}\b", q))] *)
Definition re_search_word (k q : string) : bool := search_word_from k None q.

End Text.

Import Text.

(* ------------------------------------------------------------------ *)
(** ** Session state (src/session.py) *)

(** A Python dict with string keys, in insertion order. *)
Module Dict.
Section Dict.
Context {V : Type}.

Definition t := list (string * V).

(** [d.get(k)] *)
Fixpoint get (k : string) (d : t) : option V :=
  match d with
  | [] => None
  | (k', v) :: d' => if String.eqb k k' then Some v else get k d'
  end.

(** [d[k] = v]: in place when the key is there, appended otherwise *)
Fixpoint set (k : string) (v : V) (d : t) : t :=
  match d with
  | [] => [(k, v)]
  | (k', v') :: d' =>
      if String.eqb k k' then (k', v) :: d' else (k', v') :: set k v d'
  end.

(** [k in d] *)
Definition mem (k : string) (d : t) : bool :=
  match get k d with Some _ => true | None => false end.

(** [next(iter(d))] *)
Definition first_key (d : t) : option string :=
  match d with [] => None | (k, _) :: _ => Some k end.

(** [d.values()] *)
Definition values (d : t) : list V := map snd d.

(** [d.pop(k, None)], as far as the dict goes *)
Definition remove (k : string) (d : t) : t :=
  filter (fun kv => negb (String.eqb (fst kv) k)) d.

(** [list(d.keys())] *)
Definition keys (d : t) : list string := map fst d.

End Dict.
Arguments t : clear implicits.
End Dict.

(** One entry of a conversation's history: [(role, text)]. *)
Definition Message : Type := string * string.

(** [{"name": ..., "history": [...]}] *)
Record Conversation : Type := mkConversation {
  name : string;
  history : list Message
}.

(** The calls the specification speaks about, recorded as they happen. *)
Inductive Event : Type :=
| EvGameCall (is_recursive : bool)      (* handle_password_game is entered *)
| EvMarkOfftopic (session_id : string)  (* mark_offtopic is entered *)
| EvGenerateStream (prompt : string)    (* client.models.generate_content_stream *)
| EvGenerateTitle (prompt : string).    (* client.models.generate_content *)

(** The keys of [st.session_state] that the orchestration reads or writes.
    [password_game_step] and [user_password] are not initialised by
    [ensure_session_state], so they may be absent. *)
Record Session : Type := mkSession {
  convos : Dict.t Conversation;
  active_id : option string;
  in_password_game : bool;
  password_game_step : option Z;
  user_password : option string;
  password_question_count : Z;
  phishing_question_count : Z;
  trace : list Event
}.

Definition set_convos (d : Dict.t Conversation) (s : Session) : Session :=
  mkSession d (active_id s) (in_password_game s) (password_game_step s)
            (user_password s) (password_question_count s)
            (phishing_question_count s) (trace s).

Definition set_active_id (a : option string) (s : Session) : Session :=
  mkSession (convos s) a (in_password_game s) (password_game_step s)
            (user_password s) (password_question_count s)
            (phishing_question_count s) (trace s).

Definition set_in_password_game (b : bool) (s : Session) : Session :=
  mkSession (convos s) (active_id s) b (password_game_step s)
            (user_password s) (password_question_count s)
            (phishing_question_count s) (trace s).

Definition set_password_game_step (n : Z) (s : Session) : Session :=
  mkSession (convos s) (active_id s) (in_password_game s) (Some n)
            (user_password s) (password_question_count s)
            (phishing_question_count s) (trace s).

Definition set_user_password (p : string) (s : Session) : Session :=
  mkSession (convos s) (active_id s) (in_password_game s) (password_game_step s)
            (Some p) (password_question_count s)
            (phishing_question_count s) (trace s).

Definition set_password_question_count (n : Z) (s : Session) : Session :=
  mkSession (convos s) (active_id s) (in_password_game s) (password_game_step s)
            (user_password s) n (phishing_question_count s) (trace s).

Definition set_phishing_question_count (n : Z) (s : Session) : Session :=
  mkSession (convos s) (active_id s) (in_password_game s) (password_game_step s)
            (user_password s) (password_question_count s) n (trace s).

Definition add_event (e : Event) (s : Session) : Session :=
  mkSession (convos s) (active_id s) (in_password_game s) (password_game_step s)
            (user_password s) (password_question_count s)
            (phishing_question_count s) (trace s ++ [e])%list.

(** What one streamed generation does: the events it yields (each with an
    optional text), or the exception it raises, as its message. *)
Inductive StreamResult : Type :=
| Streamed (events : list (option string))
| Raised (message : string).

(** The generation backend, [client.models]. [generate_content] gives
    [resp.text], or [None] when it raises or gives no response. *)
Record Client : Type := mkClient {
  generate_content : string -> option string;
  generate_content_stream : string -> StreamResult
}.

(** What a script run reads from outside the session. *)
Record Env : Type := mkEnv {
  client : option Client;        (* None when no API key is configured *)
  coin_password : bool;          (* random.choice of the password trigger *)
  coin_phishing : bool;          (* random.choice of the phishing trigger *)
  fresh_id : string              (* str(uuid.uuid4())[:8] *)
}.

Inductive Outcome (A : Type) : Type :=
| Ret (a : A)
| Rerun        (* st.rerun() *)
| KeyError
| OutOfFuel.
Arguments Ret {A} a.
Arguments Rerun {A}.
Arguments KeyError {A}.
Arguments OutOfFuel {A}.

Definition M (A : Type) : Type := Env -> Session -> Outcome A * Session.

Definition ret {A} (a : A) : M A := fun _ s => (Ret a, s).

Definition bind {A B} (c : M A) (f : A -> M B) : M B :=
  fun env s =>
    match c env s with
    | (Ret a, s') => f a env s'
    | (Rerun, s') => (Rerun, s')
    | (KeyError, s') => (KeyError, s')
    | (OutOfFuel, s') => (OutOfFuel, s')
    end.

Notation "x <- c ;; k" := (bind c (fun x => k))
  (at level 61, c at next level, right associativity).
Notation "c ;; k" := (bind c (fun _ => k))
  (at level 61, right associativity).

Definition gets {A} (f : Session -> A) : M A := fun _ s => (Ret (f s), s).
Definition modify (f : Session -> Session) : M unit := fun _ s => (Ret tt, f s).
Definition ask {A} (f : Env -> A) : M A := fun env s => (Ret (f env), s).
Definition rerun {A} : M A := fun _ s => (Rerun, s).
Definition raise_KeyError {A} : M A := fun _ s => (KeyError, s).
Definition out_of_fuel {A} : M A := fun _ s => (OutOfFuel, s).
Definition log (e : Event) : M unit := modify (add_event e).

(** [if b: c] *)
Definition when (b : bool) (c : M unit) : M unit := if b then c else ret tt.

(** [_new_session(name)] *)
Definition _new_session (name : string) : Conversation := mkConversation name [].

(** [create_new_chat(convos)] *)
Definition create_new_chat : M string :=
  sid <- ask fresh_id ;;
  modify (fun s => set_convos (Dict.set sid (_new_session "New Chat") (convos s)) s) ;;
  ret sid.

(** [active_id not in convos] *)
Definition active_id_missing (s : Session) : bool :=
  match active_id s with
  | Some a => negb (Dict.mem a (convos s))
  | None => true
  end.

(** [st.session_state.convos[st.session_state.active_id]] *)
Definition lookup_active : M Conversation :=
  fun _ s =>
    match active_id s with
    | Some a =>
        match Dict.get a (convos s) with
        | Some c => (Ret c, s)
        | None => (KeyError, s)
        end
    | None => (KeyError, s)
    end.

(** [active_session()] *)
Definition active_session : M Conversation :=
  missing <- gets active_id_missing ;;
  when missing (
    first <- gets (fun s => Dict.first_key (convos s)) ;;
    match first with
    | Some k => modify (set_active_id (Some k))
    | None =>
        new_id <- create_new_chat ;;
        modify (set_active_id (Some new_id))
    end) ;;
  lookup_active.

(** [active_history()] *)
Definition active_history : M (list Message) :=
  sess <- active_session ;;
  ret (history sess).

(** [set_active_history(h)] *)
Definition set_active_history (h : list Message) : M unit :=
  sess <- active_session ;;
  a <- gets active_id ;;
  match a with
  | Some a =>
      modify (fun s => set_convos (Dict.set a (mkConversation (name sess) h) (convos s)) s)
  | None => raise_KeyError
  end.

(** [append_msg(role, msg)]: the list returned by [active_history()] is the
    conversation's own list, so the append is already visible when
    [set_active_history] stores it back. *)
Definition append_msg (role msg : string) : M unit :=
  h <- active_history ;;
  set_active_history (h ++ [(role, msg)])%list.

(** [find_empty_chat(convos)] *)
Fixpoint find_empty_chat (d : Dict.t Conversation) : option string :=
  match d with
  | [] => None
  | (sid, sess) :: d' =>
      match history sess with
      | [] => Some sid
      | _ => find_empty_chat d'
      end
  end.

(** The last two statements of [ensure_session_state()]: a chat exists and
    the active id names one. (The statements before them give the missing
    keys their defaults; the record [Session] has every key.) *)
Definition ensure_session_state : M unit :=
  d <- gets convos ;;
  when (match d with [] => true | _ => false end) (
    new_id <- create_new_chat ;;
    modify (set_active_id (Some new_id))) ;;
  missing <- gets active_id_missing ;;
  when missing (
    first <- gets (fun s => Dict.first_key (convos s)) ;;
    match first with
    | Some k => modify (set_active_id (Some k))
    | None => raise_KeyError   (* next(iter({})) *)
    end).

(** [load_user_data_from_firestore()] (src/data_loader.py), from the user id
    of the login and the conversations that the store gives back. *)
Definition load_user_data_from_firestore (uid : option string)
    (loaded : Dict.t Conversation) : M unit :=
  match uid with
  | None => ret tt
  | Some u =>
      if is_empty u then ret tt
      else
        modify (set_convos loaded) ;;
        match loaded with
        | _ :: _ => modify (set_active_id (Dict.first_key loaded))
        | [] =>
            new_id <- create_new_chat ;;
            modify (set_active_id (Some new_id))
        end
  end.

(* ------------------------------------------------------------------ *)
(** ** The password game (src/game.py) *)

Module Game.

(** [any(c.isupper() for c in password)], for an ASCII password *)
Definition has_uppercase (password : string) : bool := any_char is_upper password.

(** [any(c.isdigit() for c in password)], for an ASCII password *)
Definition has_number (password : string) : bool := any_char is_digit password.

(** The character class of [has_symbol]. *)
Definition SYMBOLS : string := "!@#$%^&*(),.?:{}|<>".

(** [bool(re.search(r"[!@#$%^&*(),.?:{}|<>]", password))] *)
Definition has_symbol (password : string) : bool :=
  any_char (fun c => char_in c SYMBOLS) password.

Definition echo_text (user_msg : string) : string :=
  "You entered: `" ++ user_msg ++ "`." ++ nl ++
  "*(⚠️ **Safety Reminder**: This is a simulation using a fake practice password. " ++
  "Never enter your real passwords here.)*" ++ nl ++ nl.

Definition MSG_START : string :=
  "Great! Let's start. Please enter a simple passphrase to begin.".

Definition msg_add_uppercase (user_msg : string) : string :=
  echo_text user_msg ++
  " Good start! Now, try adding at least one **uppercase letter** to make it stronger.".

Definition msg_already_uppercase (user_msg : string) : string :=
  echo_text user_msg ++
  " Excellent! Your password already has an uppercase letter. Let's move to the next step.".

Definition msg_uppercase_done (user_msg : string) : string :=
  echo_text user_msg ++
  " Great job! The uppercase letter makes your password much harder to guess. Now, let's add a **number**.".

Definition msg_uppercase_retry (user_msg : string) : string :=
  echo_text user_msg ++
  " Not quite. Remember to add at least one **uppercase letter**. Give it another try!".

Definition msg_lost_uppercase (user_msg : string) : string :=
  echo_text user_msg ++
  " Oops! You added a number, but it looks like you lost the **uppercase letter**. Please make sure your password has BOTH an uppercase letter and a number.".

Definition msg_number_done (user_msg : string) : string :=
  echo_text user_msg ++
  " Awesome! Numbers add another layer of complexity. Finally, let's add a **special symbol** like !, @, #, etc.".

Definition msg_number_retry (user_msg : string) : string :=
  echo_text user_msg ++
  " Almost there! You still have the uppercase letter, but don't forget to add a **number**.".

Definition msg_removed (user_msg missing_str : string) : string :=
  echo_text user_msg ++
  " You're adding a symbol, but it looks like you removed the **" ++ missing_str ++
  "**! A strong password needs all three elements together.".

Definition success_msg (user_msg : string) : string :=
  "🎉 **Congratulations!** You've created a strong password: `" ++ user_msg ++ "`." ++ nl ++ nl ++
  "It has:" ++ nl ++
  "✅ Uppercase letters" ++ nl ++
  "✅ Numbers" ++ nl ++
  "✅ Special symbols" ++ nl ++ nl ++
  "*(⚠️ **Final Note**: Because you typed this password into a chat interface, you should consider it 'burned'. " ++
  "Do not use this exact password for your real accounts. Use the structure you learned here to create a new one!)*" ++ nl ++ nl ++
  "**Great job! The game is now over. You can continue asking questions about cybersecurity now.**".

Definition msg_symbol_retry (user_msg : string) : string :=
  echo_text user_msg ++
  " You're so close! You have the uppercase letter and number... just add a **special symbol** (e.g., !, @, #, $) to finish!".

(** [missing_requirements] of step 4 *)
Definition missing_requirements (user_msg : string) : list string :=
  ((if negb (has_uppercase user_msg) then ["uppercase letter"] else []) ++
   (if negb (has_number user_msg) then ["number"] else []))%list.

(** [st.session_state.get("password_game_step", 0)] *)
Definition get_step (s : Session) : Z :=
  match password_game_step s with Some n => n | None => 0%Z end.

(** The body of [handle_password_game(user_msg, is_recursive)]; [self_call]
    stands for its call of itself, [handle_password_game(user_msg,
    is_recursive=True)]. *)
Definition handle_password_game_body (self_call : M unit) (user_msg : string)
    (is_recursive : bool) : M unit :=
  log (EvGameCall is_recursive) ;;
  when (negb is_recursive) (append_msg "user" user_msg) ;;
  step <- gets get_step ;;
  (if (step =? 0)%Z then
     append_msg "assistant" MSG_START ;;
     modify (set_password_game_step 1)
   else if (step =? 1)%Z then
     modify (set_user_password user_msg) ;;
     if negb (has_uppercase user_msg) then
       append_msg "assistant" (msg_add_uppercase user_msg) ;;
       modify (set_password_game_step 2)
     else
       append_msg "assistant" (msg_already_uppercase user_msg) ;;
       modify (set_password_game_step 3) ;;
       when (has_number user_msg) self_call
   else if (step =? 2)%Z then
     modify (set_user_password user_msg) ;;
     if has_uppercase user_msg then
       append_msg "assistant" (msg_uppercase_done user_msg) ;;
       modify (set_password_game_step 3) ;;
       when (has_number user_msg) self_call
     else
       append_msg "assistant" (msg_uppercase_retry user_msg)
   else if (step =? 3)%Z then
     modify (set_user_password user_msg) ;;
     if negb (has_uppercase user_msg) then
       append_msg "assistant" (msg_lost_uppercase user_msg)
     else if has_number user_msg then
       append_msg "assistant" (msg_number_done user_msg) ;;
       modify (set_password_game_step 4) ;;
       when (has_symbol user_msg) self_call
     else
       append_msg "assistant" (msg_number_retry user_msg)
   else if (step =? 4)%Z then
     modify (set_user_password user_msg) ;;
     match missing_requirements user_msg with
     | (_ :: _) as missing =>
         append_msg "assistant" (msg_removed user_msg (join " and " missing))
     | [] =>
         if has_symbol user_msg then
           append_msg "assistant" (success_msg user_msg) ;;
           modify (set_in_password_game false) ;;
           modify (set_password_game_step 0) ;;
           modify (set_password_question_count 0)
         else
           append_msg "assistant" (msg_symbol_retry user_msg)
     end
   else ret tt) ;;
  when (negb is_recursive) rerun.

(** [handle_password_game(user_msg, is_recursive)]. [fuel] bounds the depth
    of the calls of the function to itself ([game_fuel_enough] below shows
    that 3 is always enough). *)
Fixpoint handle_password_game_aux (fuel : nat) (user_msg : string)
    (is_recursive : bool) : M unit :=
  match fuel with
  | O => out_of_fuel
  | S fuel' =>
      handle_password_game_body
        (handle_password_game_aux fuel' user_msg true) user_msg is_recursive
  end.

Definition game_fuel : nat := 3.

Definition handle_password_game (user_msg : string) (is_recursive : bool) : M unit :=
  handle_password_game_aux game_fuel user_msg is_recursive.

End Game.

Import Game.

(* ------------------------------------------------------------------ *)
(** ** The guardrail classifier (src/guards.py) *)

Module Guards.

Definition BANNED : list string :=
  ["how to hack"; "crack"; "ddos"; "payload"; "exploit"; "rat"; "keylogger";
   "bypass paywall"].

Definition CYBER_TOPICS_CATEGORIES : list (string * list string) :=
  [ ("awareness",
    ["phishing"; "phishing awareness"; "social media safety";
     "digital footprint"; "cyber hygiene"; "online privacy";
     "identity theft"; "personal data protection"; "safe browsing";
     "fake websites"; "deepfake"; "ai scams"; "smishing"; "vishing";
     "privacy"; "breach"; "scam"; "malware"; "virus"; "ransomware"; "update";
     "patch"; "backup"; "encryption"; "social engineering"; "email security";
     "password manager"; "hacking prevention"]);
    ("auth_access",
    ["password"; "passphrase"; "2fa"; "two-factor"; "multi-factor"; "mfa";
     "otp"; "authenticator"; "biometric authentication";
     "passwordless login"; "single sign-on";
     "identity and access management"; "privileged access management"; "iam";
     "pam"; "account"; "login"; "sign-in"]);
    ("network_internet",
    ["wifi"; "router"; "network"; "vpn"; "dns security"; "ip spoofing";
     "man-in-the-middle attack"; "ssl"; "tls"; "https"; "secure connection"]);
    ("endpoint_os",
    ["patch management"; "device hardening"; "operating system security";
     "mobile security"; "byod security"; "endpoint protection";
     "anti-malware"; "antivirus"; "zero trust"]);
    ("org_process",
    ["security policy"; "risk management"; "incident management plan";
     "business continuity"; "disaster recovery"; "incident response"]);
    ("cloud_api",
    ["cloud security"; "data residency"; "shared responsibility model";
     "api security"; "xdr"; "extended detection and response"; "edr";
     "endpoint detection and response"; "mxdr"; "managed xdr"; "soar";
     "security orchestration automation and response"]);
    ("threats",
    ["botnet"; "spyware"; "keylogger"; "trojan"; "adware"; "ddos";
     "denial of service"; "zero-day exploit"; "insider threat";
     "threat detection"; "threat actor"; "cyber attack"; "cyber threat"]);
    ("frameworks",
    ["iso 27001"; "gdpr"; "pdpa"; "information security"; "cybersecurity";
     "infosec"]);
    ("education",
    ["cyber ethics"; "digital citizenship"; "safe online behavior";
     "security training"; "cyberbullying prevention"; "security awareness"]);
    ("common_typos",
    ["phising"; "pishing"; "fishing"; "phish"; "pasword"; "passwrd";
     "pass word"; "pasphrase"; "malwear"; "malwar"; "ransomwear";
     "randsomware"; "addware"; "spy ware"; "cyber security"; "cibersecurity";
     "ciber"; "cybersec"; "infosecurity"; "wi-fi"; "wi fi"; "fire wall";
     "anti virus"; "anti-virus"; "authentification"; "authenication";
     "priviledge"; "hygene"]) ].

(** [set().union( *CYBER_TOPICS_CATEGORIES.values())] *)
Definition CYBER_TOPICS : list string := flat_map snd CYBER_TOPICS_CATEGORIES.

(** The fixed answer to a banned term. *)
Definition DENY_MESSAGE : string :=
  "I can't help with offensive or illegal hacking. " ++
  "Let's focus on defensive skills like phishing detection, strong passwords, and 2FA.".

(** The fixed answer to an off-topic opener. *)
Definition OFFTOPIC_MESSAGE : string :=
  "This is a **Cybersecurity Education Bot**. Kindly ask questions related to cybersecurity." ++ nl ++ nl ++
  "**You can ask about:**" ++ nl ++
  "• Spotting phishing emails/messages" ++ nl ++
  "• Creating strong passwords & using password managers" ++ nl ++
  "• Two-factor authentication (2FA)" ++ nl ++
  "• Privacy settings for phone/social media" ++ nl ++
  "• Securing your home Wi-Fi/router" ++ nl ++
  "• Recognising scams, malware & safe downloading" ++ nl ++
  "• Updates, backups, and account recovery".

(** [any(re.search(rf"\b{re.escape(k)}\b", q) for k in BANNED)] *)
Definition banned_hit (q : string) : bool :=
  existsb (fun k => re_search_word k q) BANNED.

(** [any(k in q for k in CYBER_TOPICS)] *)
Definition on_topic (q : string) : bool :=
  existsb (fun k => contains k q) CYBER_TOPICS.

(** [guardrails_or_offtopic(user_text, history)]: the redirect message, or
    [None] to let the turn through. The word boundaries and the lowering are
    those of Python for ASCII [user_text]. *)
Definition guardrails_or_offtopic (user_text : string) (history : list Message)
  : option string :=
  let q := lower user_text in
  if banned_hit q then Some DENY_MESSAGE
  else if Nat.ltb 0 (length history) then None
  else if negb (on_topic q) then Some OFFTOPIC_MESSAGE
  else None.

End Guards.

Import Guards.

(* ------------------------------------------------------------------ *)
(** ** Titles, off-topic marking and the prompt (src/llm.py) *)

Module Llm.

Definition _STOPWORDS : list string :=
  ["what"; "how"; "why"; "is"; "are"; "the"; "a"; "an"; "of"; "in"; "to"; "for";
   "on"; "with"; "and"; "or"; "my"; "your"; "our"; "their"; "this"; "that";
   "it"; "do"; "does"; "can"; "should"; "could"; "about"; "please"; "tell";
   "me"; "explain"].

Definition OFFTOPIC_SUFFIX : string := " (Not Cybersecurity Related)".

(** [x in l] for strings *)
Definition str_in (x : string) (l : list string) : bool := existsb (String.eqb x) l.

(** The characters that the [re.sub] of [_clean_title] keeps: [\w], [\s] and
    the hyphen. *)
Definition title_char (c : ascii) : bool :=
  is_word c || is_space c || Ascii.eqb c "-"%char.

(** [_clean_title(text)], for ASCII [text] *)
Definition _clean_title (text : string) : string :=
  let text := filter_chars title_char (lower text) in
  let words := filter (fun w => negb (str_in w _STOPWORDS)) (split text) in
  let t := title (join " " (firstn 6 words)) in
  if is_empty t then "Chat" else t.

(** [{v["name"] for v in convos.values()}] *)
Definition existing_names (d : Dict.t Conversation) : list string :=
  map name (Dict.values d).

(** [f"{name} ({n})"] *)
Definition numbered (name : string) (n : nat) : string :=
  name ++ " (" ++ str_of_nat n ++ ")".

(** The [while True] loop of [_ensure_unique_name], from counter [n]. *)
Fixpoint unique_loop (fuel n : nat) (name : string) (existing : list string)
  : option string :=
  match fuel with
  | O => None
  | S fuel' =>
      let candidate := numbered name n in
      if negb (str_in candidate existing) then Some candidate
      else unique_loop fuel' (S n) name existing
  end.

(** [_ensure_unique_name(name, convos)]. The loop is given one more round
    than there are names; [ensure_unique_name_total] shows that it always
    answers. *)
Definition _ensure_unique_name (name : string) (d : Dict.t Conversation)
  : option string :=
  let existing := existing_names d in
  if negb (str_in name existing) then Some name
  else unique_loop (S (length existing)) 2 name existing.

Definition ensure_unique_name (name : string) : M string :=
  fun _ s =>
    match _ensure_unique_name name (convos s) with
    | Some n => (Ret n, s)
    | None => (OutOfFuel, s)
    end.

(** [convos[session_id]] *)
Definition lookup (session_id : string) : M Conversation :=
  fun _ s =>
    match Dict.get session_id (convos s) with
    | Some c => (Ret c, s)
    | None => (KeyError, s)
    end.

(** [convos[session_id]["name"] = new_name], for a key that is there *)
Definition rename_in (session_id new_name : string) (d : Dict.t Conversation)
  : Dict.t Conversation :=
  match Dict.get session_id d with
  | Some c => Dict.set session_id (mkConversation new_name (history c)) d
  | None => d
  end.

Definition set_name (session_id new_name : string) : M unit :=
  modify (fun s => set_convos (rename_in session_id new_name (convos s)) s).

(** [sess["name"] in default_names or sess["name"].startswith("Chat ")] *)
Definition is_default_name (n : string) : bool :=
  str_in n ["New Chat"; "New chat"] || startswith "Chat " n.

(** [[m for (r, m) in history if r == "user"]] *)
Definition user_turns (h : list Message) : list string :=
  map snd (filter (fun rm => String.eqb (fst rm) "user") h).

Definition title_prompt (user_msgs : list string) : string :=
  "Create a concise 4â€“6 word title for this conversation topic. " ++
  "No punctuation, quotes, emojis, or IDs. Return title only." ++ nl ++ nl ++
  "User messages:" ++ nl ++ "- " ++ join (nl ++ "- ") (firstn 2 user_msgs).

(** [s.replace] of every newline by a space *)
Definition newlines_to_spaces (s : string) : string :=
  map_chars (fun c => if Ascii.eqb c "010"%char then " "%char else c) s.

(** The characters that the second [re.sub] of the model path removes: the
    double quote, the full stop, [!], [?] and the colon. *)
Definition title_artifact (c : ascii) : bool :=
  Ascii.eqb c dquote || char_in c ".!?:".

(** The model-assisted title of [set_title_from_msgs]: [None] when there is
    no client, the call fails, or the response has no text. *)
Definition model_title (user_msgs : list string) : M (option string) :=
  cl <- ask client ;;
  match cl with
  | Some c =>
      let prompt := title_prompt user_msgs in
      log (EvGenerateTitle prompt) ;;
      match generate_content c prompt with
      | Some text =>
          if is_empty text then ret None
          else ret (Some (filter_chars (fun c => negb (title_artifact c))
                            (newlines_to_spaces (strip text))))
      | None => ret None
      end
  | None => ret None
  end.

(** [set_title_from_msgs(client, model, convos, session_id, user_msgs)] *)
Definition set_title_from_msgs (session_id : string) (user_msgs : list string)
  : M unit :=
  match user_msgs with
  | [] => ret tt
  | _ :: _ =>
      sess <- lookup session_id ;;
      if negb (is_default_name (name sess)) then ret tt
      else
        t <- model_title user_msgs ;;
        let title :=
          match t with
          | Some t => if is_empty t then _clean_title (join " " (firstn 2 user_msgs)) else t
          | None => _clean_title (join " " (firstn 2 user_msgs))
          end in
        let title := strip (take 40 title) in
        unique <- ensure_unique_name title ;;
        set_name session_id unique
  end.

(** [auto_title_if_needed(client, model, convos, session_id)] *)
Definition auto_title_if_needed (session_id : string) : M unit :=
  sess <- lookup session_id ;;
  if negb (is_default_name (name sess)) then ret tt
  else
    match firstn 2 (user_turns (history sess)) with
    | [] => ret tt
    | user_msgs => set_title_from_msgs session_id user_msgs
    end.

(** [_maybe_update_title_after_first_turn(client, model)] *)
Definition _maybe_update_title_after_first_turn : M unit :=
  sess <- lookup_active ;;
  let n := length (user_turns (history sess)) in
  when (Nat.eqb n 1 || Nat.eqb n 2) (
    let old_name := name sess in
    a <- gets active_id ;;
    match a with
    | Some a =>
        auto_title_if_needed a ;;
        sess' <- lookup_active ;;
        when (negb (String.eqb old_name (name sess'))) rerun
    | None => raise_KeyError
    end).

(** [mark_offtopic(client, model, convos, session_id)] *)
Definition mark_offtopic (session_id : string) : M unit :=
  log (EvMarkOfftopic session_id) ;;
  sess <- lookup session_id ;;
  name1 <-
    (if startswith "new chat" (lower (name sess)) || startswith "Chat " (name sess)
     then
       match last_n 2 (user_turns (history sess)) with
       | [] => ret (name sess)
       | user_msgs =>
           set_title_from_msgs session_id user_msgs ;;
           sess' <- lookup session_id ;;
           ret (name sess')
       end
     else ret (name sess)) ;;
  when (negb (endswith OFFTOPIC_SUFFIX name1)) (
    unique <- ensure_unique_name (name1 ++ OFFTOPIC_SUFFIX) ;;
    set_name session_id unique).

(** [build_prompt(system_instruction, user_msg, history)] *)
Definition prompt_line (rm : Message) : string :=
  (if String.eqb (fst rm) "user" then "User: " else "Tutor: ") ++ snd rm.

Definition build_prompt (system_instruction user_msg : string)
    (history : list Message) : string :=
  let convo := ["System: " ++ system_instruction] in
  let convo := app convo (map prompt_line (last_n 8 history)) in
  let convo := app convo ["User: " ++ user_msg] in
  let convo := app convo ["Tutor:"] in
  join nl convo.

End Llm.

Import Llm.

(* ------------------------------------------------------------------ *)
(** ** One chat turn (the chat-input block of app.py) *)

Module App.

Definition SYSTEM_INSTRUCTION : string :=
  "You are a friendly cybersecurity tutor for beginners and intermediate learners. " ++
  "Teach defensive security concepts including: passwords, phishing, 2FA, privacy, device hygiene, " ++
  "honeypots (defensive decoy systems), firewalls, intrusion detection, threat monitoring, and incident response. " ++
  "You can explain how attacks work from a defensive learning perspective (to help users understand threats), " ++
  "but refuse to teach actual hacking techniques, exploit code, or illegal activities. " ++
  "Use clear, short paragraphs and end with 1–2 actionable tips.".

Definition error_text (e : string) : string := "⚠️ An error occurred: " ++ e.

Definition improve_keywords : list string :=
  ["improve"; "better"; "secure"; "strong"; "safe"; "strengthen"].

Definition phishing_test_keywords : list string :=
  ["test"; "quiz"; "check"; "practice"; "game"; "spot"; "identify"].

Definition game_msg : string :=
  nl ++ nl ++ "Would you like to play a game to better understand what makes a strong password?".

Definition quiz_msg : string :=
  nl ++ nl ++ "**(⚠️ Safety Reminder)**: As a general rule, **please do not click on random links** you receive online." ++ nl ++ nl ++
  "However, for this exercise, I am sharing a **genuine, verified link from Google** specifically designed to test your phishing skills:" ++ nl ++
  "👉 https://phishingquiz.withgoogle.com/".

(** The test that a reply of yes answers the game invite. *)
Definition accepts_invite (user_msg : string) (history : list Message) : bool :=
  String.eqb (lower user_msg) "yes" &&
  match last_n 1 history with
  | [(role, msg)] =>
      String.eqb role "assistant" &&
      contains "would you like to play a game" (lower msg)
  | _ => false
  end.

(** The text collected from the events of a stream. *)
Fixpoint collect (events : list (option string)) : string :=
  match events with
  | [] => EmptyString
  | Some text :: rest => text ++ collect rest
  | None :: rest => collect rest
  end.

(** What the loop over the stream collects, or the error text when the
    stream raises. *)
Definition stream_text (c : Client) (prompt : string) : string :=
  match generate_content_stream c prompt with
  | Streamed events => collect events
  | Raised e => error_text e
  end.

(** The [try] block of the turn: the assistant's answer. *)
Definition model_reply (user_msg : string) : M string :=
  cl <- ask client ;;
  match cl with
  | None => ret (error_text "Gemini API client not initialized.")
  | Some c =>
      h <- active_history ;;
      let prompt := build_prompt SYSTEM_INSTRUCTION user_msg h in
      log (EvGenerateStream prompt) ;;
      ret (stream_text c prompt)
  end.

(** [trigger_game], from the message, the counter and the coin. The coin is
    only looked at when the counter is exactly 2. *)
Definition trigger_game (user_msg : string) (count : Z) (coin : bool) : bool :=
  let q := lower user_msg in
  if contains "password" q && existsb (fun k => contains k q) improve_keywords
  then true
  else (3 <=? count)%Z || ((count =? 2)%Z && coin).

(** The password-game trigger, after the assistant's answer is stored. *)
Definition password_trigger (user_msg : string) : M unit :=
  count <- gets password_question_count ;;
  coin <- ask coin_password ;;
  in_game <- gets in_password_game ;;
  when (trigger_game user_msg count coin && negb in_game) (
    append_msg "assistant" game_msg ;;
    modify (set_password_question_count 0)).

(** [trigger_phishing], from the message, the counter and the coin. *)
Definition trigger_phishing (user_msg : string) (count : Z) (coin : bool) : bool :=
  let q := lower user_msg in
  if contains "phishing" q && existsb (fun k => contains k q) phishing_test_keywords
  then true
  else (3 <=? count)%Z || ((count =? 2)%Z && coin).

(** The phishing-quiz trigger. *)
Definition phishing_trigger (user_msg : string) : M unit :=
  count <- gets phishing_question_count ;;
  coin <- ask coin_phishing ;;
  when (trigger_phishing user_msg count coin) (
    append_msg "assistant" quiz_msg ;;
    modify (set_phishing_question_count 0)).

(** [mark_offtopic(client, MODEL, st.session_state.convos, st.session_state.active_id)] *)
Definition mark_active_offtopic : M unit :=
  a <- gets active_id ;;
  match a with
  | Some a => mark_offtopic a
  | None => raise_KeyError
  end.

(** What [show_chatbot_ui] does with a submitted message. *)
Definition chat_turn (user_msg : string) : M unit :=
  if is_empty user_msg then ret tt
  else
    history <- active_history ;;
    when (accepts_invite user_msg history) (
      modify (set_in_password_game true) ;;
      handle_password_game user_msg false ;;
      rerun) ;;
    in_game <- gets in_password_game ;;
    when in_game (
      handle_password_game user_msg false ;;
      rerun) ;;
    when (contains "password" (lower user_msg))
      (modify (fun s => set_password_question_count (password_question_count s + 1) s)) ;;
    when (contains "phishing" (lower user_msg))
      (modify (fun s => set_phishing_question_count (phishing_question_count s + 1) s)) ;;
    in_game <- gets in_password_game ;;
    when (negb in_game) (
      h <- active_history ;;
      match guardrails_or_offtopic user_msg h with
      | Some redirect =>
          when (negb (is_empty redirect)) (
            append_msg "user" user_msg ;;
            append_msg "assistant" redirect ;;
            mark_active_offtopic ;;
            rerun)
      | None => ret tt
      end ;;
      append_msg "user" user_msg ;;
      collected <- model_reply user_msg ;;
      append_msg "assistant" collected ;;
      password_trigger user_msg ;;
      phishing_trigger user_msg ;;
      _maybe_update_title_after_first_turn ;;
      rerun).

End App.

Import App.

(* ------------------------------------------------------------------ *)
(** ** The conversation buttons of the sidebar (app.py) *)

Module Sidebar.

(** Python's truth value of an optional string. *)
Definition truthy (x : option string) : bool :=
  match x with
  | Some k => negb (is_empty k)
  | None => false
  end.

(** The Yes button of the delete confirmation. [active_id] is the local
    variable of [show_chatbot_ui], read from the session at the top of the
    sidebar. The remote delete and the confirmation flag are outside the
    session modelled here. *)
Definition delete_active_chat (active_id : option string) : M unit :=
  modify (fun s =>
    set_convos (match active_id with
                | Some k => Dict.remove k (convos s)
                | None => convos s
                end) s) ;;
  first <- gets (fun s => Dict.first_key (convos s)) ;;
  modify (set_active_id first) ;;
  when (negb (truthy first)) (
    new_id <- create_new_chat ;;
    modify (set_active_id (Some new_id))) ;;
  rerun.

(** The New button. *)
Definition new_chat_button : M unit :=
  d <- gets convos ;;
  (if truthy (find_empty_chat d) then ret tt
   else
     new_id <- create_new_chat ;;
     modify (set_active_id (Some new_id))) ;;
  rerun.


End Sidebar.

(* ------------------------------------------------------------------ *)
(** ** The password meter of the sign-up form (src/login.py) *)

Module Login.

(** [{"score": ..., "color": ..., "msg": ...}] *)
Record Strength : Type := mkStrength {
  score : Z;
  color : string;
  msg : string
}.

(** [len(password) >= 8], for an ASCII password *)
Definition long_enough (password : string) : bool :=
  Nat.leb 8 (String.length password).

(** [re.search(r'[a-z]', password) and re.search(r'[A-Z]', password)] *)
Definition mixed_case (password : string) : bool :=
  any_char is_lower password && any_char is_upper password.

(** [re.search(r'\d', password)] *)
Definition has_digit (password : string) : bool := any_char is_digit password.

(** [re.search(r'[^\w\s]', password)], for an ASCII password *)
Definition has_other (password : string) : bool :=
  any_char (fun c => negb (is_word c || is_space c)) password.

Definition points (b : bool) : Z := if b then 1%Z else 0%Z.

Definition missing (b : bool) (what : string) : list string :=
  if b then [] else [what].

(** [get_password_strength(password)] *)
Definition get_password_strength (password : string) : Strength :=
  let score :=
    (points (long_enough password) + points (mixed_case password) +
     points (has_digit password) + points (has_other password))%Z in
  let feedback :=
    (missing (long_enough password) "At least 8 characters" ++
     missing (mixed_case password) "Lower & Uppercase letters" ++
     missing (has_digit password) "At least one number" ++
     missing (has_other password) "At least one symbol (!@#$...)")%list in
  if Nat.eqb (String.length password) 0 then
    mkStrength 0 "red" "Enter a password"
  else if (score <? 3)%Z then
    mkStrength score "red" ("Weak: " ++ join ", " feedback)
  else if (score =? 3)%Z then
    mkStrength score "orange" ("Moderate: " ++ join ", " feedback)
  else
    mkStrength 4 "green" "Strong! ✅".

(** The final check of the sign-up button lets the password through. *)
Definition accepted (password : string) : bool :=
  negb (score (get_password_strength password) <? 4)%Z.

End Login.

(* ------------------------------------------------------------------ *)
(** ** Vocabulary of the statements *)

Module Spec.

(** The session once [active_session()] has repaired the active id. *)
Definition heal (env : Env) (s : Session) : Session := snd (active_session env s).

(** The active id names a conversation of the set. *)
Definition Healed (s : Session) : Prop :=
  exists a c, active_id s = Some a /\ Dict.get a (convos s) = Some c.

(** The history that [active_history()] returns. *)
Definition cur_history (env : Env) (s : Session) : list Message :=
  match fst (active_history env s) with
  | Ret h => h
  | _ => []
  end.

(** The name of the conversation that [active_session()] returns. *)
Definition cur_name (env : Env) (s : Session) : option string :=
  match fst (active_session env s) with
  | Ret c => Some (name c)
  | _ => None
  end.

(** [append_msg] as a function on healed sessions. *)
Definition push_msg (role msg : string) (s : Session) : Session :=
  match active_id s with
  | Some a =>
      match Dict.get a (convos s) with
      | Some c =>
          set_convos
            (Dict.set a (mkConversation (name c) (history c ++ [(role, msg)])%list)
                      (convos s)) s
      | None => s
      end
  | None => s
  end.

Definition is_reentry (e : Event) : bool :=
  match e with EvGameCall true => true | _ => false end.

Definition is_mark (e : Event) : bool :=
  match e with EvMarkOfftopic _ => true | _ => false end.

(** How many times [handle_password_game] re-entered itself. *)
Definition reentries (evs : list Event) : nat := length (filter is_reentry evs).

(** How many times [mark_offtopic] ran. *)
Definition marks (evs : list Event) : nat := length (filter is_mark evs).

(** The prompts handed to [generate_content_stream]. *)
Fixpoint stream_prompts (evs : list Event) : list string :=
  match evs with
  | [] => []
  | EvGenerateStream p :: rest => p :: stream_prompts rest
  | _ :: rest => stream_prompts rest
  end.

Definition assistant_messages (h : list Message) : list Message :=
  filter (fun rm => String.eqb (fst rm) "assistant") h.

(** [k] is a substring of [q]. *)
Definition is_substring (k q : string) : Prop :=
  exists pre post, q = pre ++ k ++ post.

(** [text] contains [term] as a whole word, whatever the case of its
    letters: the occurrence is not preceded and not followed by a word
    character. *)
Definition occurs_as_whole_word (term text : string) : Prop :=
  exists pre mid post,
    text = pre ++ mid ++ post /\ lower mid = term /\
    is_word_opt (last_char None pre) = false /\
    is_word_opt (head post) = false.

(** The fallback title as the specification words it: lowercase, strip
    punctuation, drop the stop words, keep six words, title-case each and
    join with spaces, or the placeholder; then cut at 40 characters. *)
Definition spec_title_words (msgs : list string) : list string :=
  firstn 6
    (filter (fun w => negb (str_in w _STOPWORDS))
       (split (filter_chars title_char (lower (join " " (firstn 2 msgs)))))).

Definition spec_fallback_title (msgs : list string) : string :=
  take 40 (match spec_title_words msgs with
           | [] => "Chat"
           | ws => join " " (map title ws)
           end).

(** The names of the conversations other than [session_id]. *)
Definition other_names (session_id : string) (d : Dict.t Conversation)
  : list string :=
  map (fun kv => name (snd kv))
      (filter (fun kv => negb (String.eqb (fst kv) session_id)) d).

(** The uniqueness rule as the specification words it: the candidate is
    numbered only when another conversation has it as its name. *)
Definition spec_unique_title (session_id : string) (d : Dict.t Conversation)
    (candidate : string) : option string :=
  let others := other_names session_id d in
  if negb (str_in candidate others) then Some candidate
  else unique_loop (S (length others)) 2 candidate others.

(** [s'] is [s] with conversations renamed and nothing else touched: the
    histories, the counters and the game are the same, and the calls made
    meanwhile are [marks_added] runs of [mark_offtopic] and title requests. *)
Definition only_names (marks_added : nat) (s s' : Session) : Prop :=
  exists d' evs,
    s' = mkSession d' (active_id s) (in_password_game s) (password_game_step s)
           (user_password s) (password_question_count s)
           (phishing_question_count s) (trace s ++ evs)%list /\
    stream_prompts evs = [] /\ marks evs = marks_added /\ reentries evs = 0 /\
    forall k, option_map history (Dict.get k d') =
              option_map history (Dict.get k (convos s)).

(** The assistant's answer of a model turn, from the history that holds
    the new message already. *)
Definition reply_of (env : Env) (user_msg : string) (h : list Message) : string :=
  match client env with
  | None => error_text "Gemini API client not initialized."
  | Some c => stream_text c (build_prompt SYSTEM_INSTRUCTION user_msg h)
  end.

(** The prompts of a model turn: one when there is a client. *)
Definition prompts_of (env : Env) (user_msg : string) (h : list Message)
  : list string :=
  match client env with
  | None => []
  | Some _ => [build_prompt SYSTEM_INSTRUCTION user_msg h]
  end.

(** The messages that a trigger adds. *)
Definition fired (b : bool) (msg : string) : list Message :=
  if b then [("assistant", msg)] else [].

(** The counter after the turn's increment. *)
Definition bumped (keyword user_msg : string) (count : Z) : Z :=
  if contains keyword (lower user_msg) then (count + 1)%Z else count.

(** A question about passwords that asks for no improvement and that the
    guardrail does not deny. *)
Definition plain_password_question (user_msg : string) : Prop :=
  contains "password" (lower user_msg) = true /\
  existsb (fun k => contains k (lower user_msg)) improve_keywords = false /\
  banned_hit (lower user_msg) = false.

(** The turn is handled by the model, not by the game. *)
Definition plain_turn (env : Env) (s : Session) (user_msg : string) : bool :=
  negb (accepts_invite user_msg (cur_history env s)) &&
  negb (in_password_game s).

(** The guardrail answers with a redirect. *)
Definition redirects (user_msg : string) (h : list Message) : bool :=
  match guardrails_or_offtopic user_msg h with
  | Some _ => true
  | None => false
  end.

(** The text starts, or ends, with a whitespace character. *)
Definition starts_with_space (x : string) : bool :=
  match head x with Some c => is_space c | None => false end.

Definition ends_with_space (x : string) : bool :=
  match last_char None x with Some c => is_space c | None => false end.

(** A term that starts and ends with a word character. *)
Definition wordy (k : string) : bool :=
  is_word_opt (head k) && is_word_opt (last_char None k).

(** The name of conversation [session_id]. *)
Definition name_of (session_id : string) (s : Session) : option string :=
  option_map name (Dict.get session_id (convos s)).

(** The last message of the history, when there is one, is ASCII text: the
    test for the accepted invite then lowers it as Python does. *)
Definition ascii_last (h : list Message) : Prop :=
  Forall (fun rm => is_ascii (snd rm) = true) (last_n 1 h).


End Spec.

Import Spec.

(* ------------------------------------------------------------------ *)
(** ** Concrete sessions *)

Module Examples.

(** A backend that answers every prompt with the same text. *)
Definition echo_client : Client :=
  mkClient (fun _ => Some "Password Basics")
           (fun _ => Streamed [Some "Use a "; None; Some "passphrase."]).

(** A backend is configured; the password coin comes up heads. *)
Definition env_heads : Env := mkEnv (Some echo_client) true false "1b9d6bcd".

(** A backend is configured; both coins tails. *)
Definition env_tails : Env := mkEnv (Some echo_client) false false "1b9d6bcd".

(** A session right after login: one new chat, nothing asked yet. *)
Definition fresh_session : Session :=
  mkSession [("c1", _new_session "New Chat")] (Some "c1") false None None 0 0 [].

(** Two conversations, the second already marked off-topic under the name
    that the first would get. *)
Definition clash_session : Session :=
  mkSession
    [("c1", mkConversation "Weather Today" [("user", "weather today")]);
     ("c2", mkConversation "Weather Today (Not Cybersecurity Related)"
              [("user", "weather today")])]
    (Some "c1") false None None 0 0 [].

(** No backend configured, both coins tails. *)
Definition env0 : Env := mkEnv None false false "1b9d6bcd".

(** A session in the middle of the password game, at step [n]. *)
Definition game_session (n : Z) : Session :=
  mkSession
    [("c1", mkConversation "Strong Passwords"
              [("user", "yes"); ("assistant", MSG_START)])]
    (Some "c1") true (Some n) None 0 0 [].

End Examples.

Import Examples.

(* ------------------------------------------------------------------ *)
(** ** Facts about dictionaries and the session helpers *)

Lemma dict_get_set_same {V} k (v : V) d : Dict.get k (Dict.set k v d) = Some v.
Proof.
  induction d as [|[k' v'] d IH]; simpl.
  - now rewrite String.eqb_refl.
  - destruct (String.eqb k k') eqn:E; simpl; rewrite E; auto.
Qed.

Lemma dict_get_set_other {V} k k' (v : V) d :
  k' <> k -> Dict.get k' (Dict.set k v d) = Dict.get k' d.
Proof.
  intros N. induction d as [|[k0 v0] d IH]; simpl.
  - apply String.eqb_neq in N. now rewrite N.
  - destruct (String.eqb k k0) eqn:E; simpl.
    + apply String.eqb_eq in E. subst k0.
      apply String.eqb_neq in N. now rewrite N.
    + now rewrite IH.
Qed.

Lemma dict_set_set {V} k (v v' : V) d :
  Dict.set k v' (Dict.set k v d) = Dict.set k v' d.
Proof.
  induction d as [|[k0 v0] d IH]; simpl.
  - now rewrite String.eqb_refl.
  - destruct (String.eqb k k0) eqn:E; simpl; rewrite E; [reflexivity|now rewrite IH].
Qed.

Lemma bind_ret {A B} (c : M A) (f : A -> M B) env s a s' :
  c env s = (Ret a, s') -> bind c f env s = f a env s'.
Proof. unfold bind. now intros ->. Qed.

Lemma bind_rerun {A B} (c : M A) (f : A -> M B) env s s' :
  c env s = (Rerun, s') -> bind c f env s = (Rerun, s').
Proof. unfold bind. now intros ->. Qed.

Lemma heal_spec env s :
  exists a c,
    active_session env s = (Ret c, heal env s) /\
    active_id (heal env s) = Some a /\
    Dict.get a (convos (heal env s)) = Some c.
Proof.
  unfold heal, active_session, bind, gets, when, lookup_active.
  destruct (active_id_missing s) eqn:Em.
  - destruct (convos s) as [|[k v] d] eqn:Ec; simpl.
    + unfold create_new_chat, bind, ask, modify, ret; simpl.
      rewrite Ec; simpl. rewrite String.eqb_refl. simpl.
      exists (fresh_id env), (_new_session "New Chat").
      repeat split; simpl; now rewrite ?String.eqb_refl.
    + unfold modify; simpl. rewrite Ec; simpl. rewrite String.eqb_refl. simpl.
      exists k, v. repeat split. rewrite Ec. simpl. now rewrite String.eqb_refl.
  - unfold ret; simpl. unfold active_id_missing, Dict.mem in Em.
    destruct (active_id s) as [a|] eqn:Ea; [|discriminate].
    destruct (Dict.get a (convos s)) as [c|] eqn:Eg; [|discriminate].
    simpl. exists a, c. auto.
Qed.

Lemma heal_healed env s : Healed (heal env s).
Proof. destruct (heal_spec env s) as (a & c & _ & Ha & Hc). now exists a, c. Qed.

Lemma heal_id env s : Healed s -> heal env s = s.
Proof.
  intros (a & c & Ha & Hc).
  unfold heal, active_session, bind, gets, when, lookup_active, active_id_missing, Dict.mem.
  rewrite Ha, Hc. simpl. now rewrite Ha, Hc.
Qed.

Lemma heal_idem env s : heal env (heal env s) = heal env s.
Proof. apply heal_id, heal_healed. Qed.

(** [heal] touches only [convos] and [active_id]. *)
Lemma heal_frame env s :
  in_password_game (heal env s) = in_password_game s /\
  password_game_step (heal env s) = password_game_step s /\
  user_password (heal env s) = user_password s /\
  password_question_count (heal env s) = password_question_count s /\
  phishing_question_count (heal env s) = phishing_question_count s /\
  trace (heal env s) = trace s.
Proof.
  unfold heal, active_session, bind, gets, when, lookup_active.
  destruct (active_id_missing s).
  - destruct (convos s) as [|[k v] d]; simpl.
    + unfold create_new_chat, bind, ask, modify, ret; simpl.
      rewrite dict_get_set_same. simpl. repeat split.
    + unfold modify; simpl.
      destruct (Dict.get k (convos s)); simpl; repeat split.
  - unfold ret; simpl.
    destruct (active_id s) as [a|]; [|repeat split].
    destruct (Dict.get a (convos s)); repeat split.
Qed.

Lemma active_session_run env s :
  exists c, active_session env s = (Ret c, heal env s) /\
            cur_name env s = Some (name c) /\ cur_history env s = history c.
Proof.
  destruct (heal_spec env s) as (a & c & E & _ & _).
  exists c. split; [exact E|].
  unfold cur_name, cur_history, active_history, bind. rewrite E. simpl. auto.
Qed.

Lemma active_history_run env s :
  active_history env s = (Ret (cur_history env s), heal env s).
Proof.
  destruct (active_session_run env s) as (c & E & _ & H).
  unfold active_history, bind. rewrite E, H. reflexivity.
Qed.

Lemma append_msg_run role msg env s :
  append_msg role msg env s = (Ret tt, push_msg role msg (heal env s)).
Proof.
  unfold append_msg. rewrite (bind_ret _ _ _ _ _ _ (active_history_run env s)).
  destruct (heal_spec env s) as (a & c & E & Ha & Hc).
  assert (Hh : cur_history env s = history c).
  { destruct (active_session_run env s) as (c' & E' & _ & H').
    rewrite E in E'. now inversion E'. }
  unfold set_active_history.
  assert (E2 : active_session env (heal env s) = (Ret c, heal env s)).
  { destruct (heal_spec env (heal env s)) as (a' & c' & E' & Ha' & Hc').
    rewrite heal_idem in *. rewrite Ha in Ha'. inversion Ha'; subst a'.
    rewrite Hc in Hc'. inversion Hc'; subst c'. exact E'. }
  rewrite (bind_ret _ _ _ _ _ _ E2).
  unfold bind, gets, modify, push_msg. rewrite Ha, Hc, Hh. reflexivity.
Qed.

Lemma push_frame role msg s :
  in_password_game (push_msg role msg s) = in_password_game s /\
  password_game_step (push_msg role msg s) = password_game_step s /\
  user_password (push_msg role msg s) = user_password s /\
  password_question_count (push_msg role msg s) = password_question_count s /\
  phishing_question_count (push_msg role msg s) = phishing_question_count s /\
  trace (push_msg role msg s) = trace s /\
  active_id (push_msg role msg s) = active_id s.
Proof.
  unfold push_msg. destruct (active_id s) as [a|] eqn:Ea; [|now rewrite Ea].
  destruct (Dict.get a (convos s)); simpl; now rewrite ?Ea.
Qed.

Lemma push_healed role msg s : Healed s -> Healed (push_msg role msg s).
Proof.
  intros (a & c & Ha & Hc). unfold push_msg. rewrite Ha, Hc.
  exists a. eexists. split; [exact Ha|]. simpl. apply dict_get_set_same.
Qed.

(** [active_history()] reads only [convos] and [active_id]. *)
Lemma cur_history_ext env s1 s2 :
  convos s1 = convos s2 -> active_id s1 = active_id s2 ->
  cur_history env s1 = cur_history env s2.
Proof.
  destruct s1 as [d1 a1 g1 st1 p1 n1 m1 t1], s2 as [d2 a2 g2 st2 p2 n2 m2 t2].
  simpl. intros -> ->.
  unfold cur_history, active_history, active_session, bind, gets, when,
    lookup_active, active_id_missing, Dict.mem. simpl.
  destruct a2 as [a|].
  - destruct (Dict.get a d2) eqn:Eg; simpl.
    + now rewrite Eg.
    + destruct d2 as [|[k v] d]; simpl; now rewrite !String.eqb_refl.
  - destruct d2 as [|[k v] d]; simpl; now rewrite !String.eqb_refl.
Qed.

Lemma cur_history_healed env s a c :
  active_id s = Some a -> Dict.get a (convos s) = Some c ->
  cur_history env s = history c.
Proof.
  intros Ha Hc.
  unfold cur_history, active_history, active_session, bind, gets, when,
    lookup_active, active_id_missing, Dict.mem.
  rewrite Ha, Hc. simpl. rewrite Ha, Hc. reflexivity.
Qed.

Lemma cur_history_heal env s : cur_history env (heal env s) = cur_history env s.
Proof.
  destruct (heal_spec env s) as (a & c & E & Ha & Hc).
  rewrite (cur_history_healed env _ a c Ha Hc).
  unfold cur_history, active_history, bind. now rewrite E.
Qed.

Lemma cur_history_push env role msg s :
  cur_history env (push_msg role msg (heal env s)) =
  (cur_history env s ++ [(role, msg)])%list.
Proof.
  destruct (heal_spec env s) as (a & c & E & Ha & Hc).
  rewrite <- (cur_history_heal env s).
  rewrite (cur_history_healed env (heal env s) a c Ha Hc).
  unfold push_msg. rewrite Ha, Hc.
  erewrite cur_history_healed; [| simpl; exact Ha | simpl; apply dict_get_set_same].
  reflexivity.
Qed.

Lemma heal_push env role msg s :
  heal env (push_msg role msg (heal env s)) = push_msg role msg (heal env s).
Proof. apply heal_id, push_healed, heal_healed. Qed.

Section Frames.
Variables (env : Env) (s : Session).

Lemma step_heal : password_game_step (heal env s) = password_game_step s.
Proof. apply heal_frame. Qed.
Lemma in_game_heal : in_password_game (heal env s) = in_password_game s.
Proof. apply heal_frame. Qed.
Lemma user_password_heal : user_password (heal env s) = user_password s.
Proof. apply heal_frame. Qed.
Lemma password_count_heal :
  password_question_count (heal env s) = password_question_count s.
Proof. apply heal_frame. Qed.
Lemma phishing_count_heal :
  phishing_question_count (heal env s) = phishing_question_count s.
Proof. apply heal_frame. Qed.
Lemma trace_heal : trace (heal env s) = trace s.
Proof. apply heal_frame. Qed.

Variables (role msg : string).

Lemma step_push : password_game_step (push_msg role msg s) = password_game_step s.
Proof. apply push_frame. Qed.
Lemma in_game_push : in_password_game (push_msg role msg s) = in_password_game s.
Proof. apply push_frame. Qed.
Lemma user_password_push : user_password (push_msg role msg s) = user_password s.
Proof. apply push_frame. Qed.
Lemma password_count_push :
  password_question_count (push_msg role msg s) = password_question_count s.
Proof. apply push_frame. Qed.
Lemma phishing_count_push :
  phishing_question_count (push_msg role msg s) = phishing_question_count s.
Proof. apply push_frame. Qed.
Lemma trace_push : trace (push_msg role msg s) = trace s.
Proof. apply push_frame. Qed.

Lemma cur_history_add_event e : cur_history env (add_event e s) = cur_history env s.
Proof. now apply cur_history_ext. Qed.
Lemma cur_history_set_step n :
  cur_history env (set_password_game_step n s) = cur_history env s.
Proof. now apply cur_history_ext. Qed.
Lemma cur_history_set_user_password p :
  cur_history env (set_user_password p s) = cur_history env s.
Proof. now apply cur_history_ext. Qed.
Lemma cur_history_set_in_game b :
  cur_history env (set_in_password_game b s) = cur_history env s.
Proof. now apply cur_history_ext. Qed.
Lemma cur_history_set_password_count n :
  cur_history env (set_password_question_count n s) = cur_history env s.
Proof. now apply cur_history_ext. Qed.
Lemma cur_history_set_phishing_count n :
  cur_history env (set_phishing_question_count n s) = cur_history env s.
Proof. now apply cur_history_ext. Qed.

End Frames.

Create Rewrite HintDb session.
#[local] Hint Rewrite step_heal in_game_heal user_password_heal password_count_heal
  phishing_count_heal trace_heal step_push in_game_push user_password_push
  password_count_push phishing_count_push trace_push
  cur_history_add_event cur_history_set_step cur_history_set_user_password
  cur_history_set_in_game cur_history_set_password_count
  cur_history_set_phishing_count cur_history_push cur_history_heal
  : session.

(** Reading a key after a key was written. *)
Lemma in_game_set_in_game b s : in_password_game (set_in_password_game b s) = b.
Proof. reflexivity. Qed.
Lemma in_game_set_step n s : in_password_game (set_password_game_step n s) = in_password_game s.
Proof. reflexivity. Qed.
Lemma in_game_set_user_password p s : in_password_game (set_user_password p s) = in_password_game s.
Proof. reflexivity. Qed.
Lemma in_game_set_password_count n s : in_password_game (set_password_question_count n s) = in_password_game s.
Proof. reflexivity. Qed.
Lemma in_game_set_phishing_count n s : in_password_game (set_phishing_question_count n s) = in_password_game s.
Proof. reflexivity. Qed.
Lemma in_game_add_event e s : in_password_game (add_event e s) = in_password_game s.
Proof. reflexivity. Qed.
Lemma step_set_in_game b s : password_game_step (set_in_password_game b s) = password_game_step s.
Proof. reflexivity. Qed.
Lemma step_set_step n s : password_game_step (set_password_game_step n s) = Some n.
Proof. reflexivity. Qed.
Lemma step_set_user_password p s : password_game_step (set_user_password p s) = password_game_step s.
Proof. reflexivity. Qed.
Lemma step_set_password_count n s : password_game_step (set_password_question_count n s) = password_game_step s.
Proof. reflexivity. Qed.
Lemma step_set_phishing_count n s : password_game_step (set_phishing_question_count n s) = password_game_step s.
Proof. reflexivity. Qed.
Lemma step_add_event e s : password_game_step (add_event e s) = password_game_step s.
Proof. reflexivity. Qed.
Lemma user_password_set_in_game b s : user_password (set_in_password_game b s) = user_password s.
Proof. reflexivity. Qed.
Lemma user_password_set_step n s : user_password (set_password_game_step n s) = user_password s.
Proof. reflexivity. Qed.
Lemma user_password_set_user_password p s : user_password (set_user_password p s) = Some p.
Proof. reflexivity. Qed.
Lemma user_password_set_password_count n s : user_password (set_password_question_count n s) = user_password s.
Proof. reflexivity. Qed.
Lemma user_password_set_phishing_count n s : user_password (set_phishing_question_count n s) = user_password s.
Proof. reflexivity. Qed.
Lemma user_password_add_event e s : user_password (add_event e s) = user_password s.
Proof. reflexivity. Qed.
Lemma password_count_set_in_game b s : password_question_count (set_in_password_game b s) = password_question_count s.
Proof. reflexivity. Qed.
Lemma password_count_set_step n s : password_question_count (set_password_game_step n s) = password_question_count s.
Proof. reflexivity. Qed.
Lemma password_count_set_user_password p s : password_question_count (set_user_password p s) = password_question_count s.
Proof. reflexivity. Qed.
Lemma password_count_set_password_count n s : password_question_count (set_password_question_count n s) = n.
Proof. reflexivity. Qed.
Lemma password_count_set_phishing_count n s : password_question_count (set_phishing_question_count n s) = password_question_count s.
Proof. reflexivity. Qed.
Lemma password_count_add_event e s : password_question_count (add_event e s) = password_question_count s.
Proof. reflexivity. Qed.
Lemma phishing_count_set_in_game b s : phishing_question_count (set_in_password_game b s) = phishing_question_count s.
Proof. reflexivity. Qed.
Lemma phishing_count_set_step n s : phishing_question_count (set_password_game_step n s) = phishing_question_count s.
Proof. reflexivity. Qed.
Lemma phishing_count_set_user_password p s : phishing_question_count (set_user_password p s) = phishing_question_count s.
Proof. reflexivity. Qed.
Lemma phishing_count_set_password_count n s : phishing_question_count (set_password_question_count n s) = phishing_question_count s.
Proof. reflexivity. Qed.
Lemma phishing_count_set_phishing_count n s : phishing_question_count (set_phishing_question_count n s) = n.
Proof. reflexivity. Qed.
Lemma phishing_count_add_event e s : phishing_question_count (add_event e s) = phishing_question_count s.
Proof. reflexivity. Qed.
Lemma trace_set_in_game b s : trace (set_in_password_game b s) = trace s.
Proof. reflexivity. Qed.
Lemma trace_set_step n s : trace (set_password_game_step n s) = trace s.
Proof. reflexivity. Qed.
Lemma trace_set_user_password p s : trace (set_user_password p s) = trace s.
Proof. reflexivity. Qed.
Lemma trace_set_password_count n s : trace (set_password_question_count n s) = trace s.
Proof. reflexivity. Qed.
Lemma trace_set_phishing_count n s : trace (set_phishing_question_count n s) = trace s.
Proof. reflexivity. Qed.
Lemma trace_add_event e s : trace (add_event e s) = (trace s ++ [e])%list.
Proof. reflexivity. Qed.
Lemma convos_set_in_game b s : convos (set_in_password_game b s) = convos s.
Proof. reflexivity. Qed.
Lemma convos_set_step n s : convos (set_password_game_step n s) = convos s.
Proof. reflexivity. Qed.
Lemma convos_set_user_password p s : convos (set_user_password p s) = convos s.
Proof. reflexivity. Qed.
Lemma convos_set_password_count n s : convos (set_password_question_count n s) = convos s.
Proof. reflexivity. Qed.
Lemma convos_set_phishing_count n s : convos (set_phishing_question_count n s) = convos s.
Proof. reflexivity. Qed.
Lemma convos_add_event e s : convos (add_event e s) = convos s.
Proof. reflexivity. Qed.
Lemma active_id_set_in_game b s : active_id (set_in_password_game b s) = active_id s.
Proof. reflexivity. Qed.
Lemma active_id_set_step n s : active_id (set_password_game_step n s) = active_id s.
Proof. reflexivity. Qed.
Lemma active_id_set_user_password p s : active_id (set_user_password p s) = active_id s.
Proof. reflexivity. Qed.
Lemma active_id_set_password_count n s : active_id (set_password_question_count n s) = active_id s.
Proof. reflexivity. Qed.
Lemma active_id_set_phishing_count n s : active_id (set_phishing_question_count n s) = active_id s.
Proof. reflexivity. Qed.
Lemma active_id_add_event e s : active_id (add_event e s) = active_id s.
Proof. reflexivity. Qed.

#[local] Hint Rewrite
  in_game_set_in_game in_game_set_step in_game_set_user_password
  in_game_set_password_count in_game_set_phishing_count in_game_add_event
  step_set_in_game step_set_step step_set_user_password
  step_set_password_count step_set_phishing_count step_add_event
  user_password_set_in_game user_password_set_step
  user_password_set_user_password user_password_set_password_count
  user_password_set_phishing_count user_password_add_event
  password_count_set_in_game password_count_set_step
  password_count_set_user_password password_count_set_password_count
  password_count_set_phishing_count password_count_add_event
  phishing_count_set_in_game phishing_count_set_step
  phishing_count_set_user_password phishing_count_set_password_count
  phishing_count_set_phishing_count phishing_count_add_event
  trace_set_in_game trace_set_step trace_set_user_password
  trace_set_password_count trace_set_phishing_count trace_add_event
  convos_set_in_game convos_set_step convos_set_user_password
  convos_set_password_count convos_set_phishing_count convos_add_event
  active_id_set_in_game active_id_set_step active_id_set_user_password
  active_id_set_password_count active_id_set_phishing_count
  active_id_add_event
  : session.

Lemma get_step_heal env s : get_step (heal env s) = get_step s.
Proof. unfold get_step. now rewrite step_heal. Qed.
Lemma get_step_push role msg s : get_step (push_msg role msg s) = get_step s.
Proof. unfold get_step. now rewrite step_push. Qed.
Lemma get_step_add_event e s : get_step (add_event e s) = get_step s.
Proof. reflexivity. Qed.
Lemma get_step_set_user_password p s : get_step (set_user_password p s) = get_step s.
Proof. reflexivity. Qed.
Lemma get_step_set_in_game b s : get_step (set_in_password_game b s) = get_step s.
Proof. reflexivity. Qed.
Lemma get_step_set_step n s : get_step (set_password_game_step n s) = n.
Proof. reflexivity. Qed.
Lemma get_step_Some s n : password_game_step s = Some n -> get_step s = n.
Proof. unfold get_step. now intros ->. Qed.

#[local] Hint Rewrite get_step_heal get_step_push get_step_add_event
  get_step_set_user_password get_step_set_in_game get_step_set_step : session.

(** The same rules, one small database for each key. *)
Create Rewrite HintDb read_history.
Create Rewrite HintDb read_password_count.
Create Rewrite HintDb read_phishing_count.
Create Rewrite HintDb read_in_game.
Create Rewrite HintDb read_trace.
#[local] Hint Rewrite
  cur_history_add_event cur_history_set_step cur_history_set_user_password
  cur_history_set_in_game cur_history_set_password_count
  cur_history_set_phishing_count cur_history_push cur_history_heal
  : read_history.
#[local] Hint Rewrite
  password_count_heal password_count_push password_count_set_in_game
  password_count_set_step password_count_set_user_password
  password_count_set_password_count password_count_set_phishing_count
  password_count_add_event
  : read_password_count.
#[local] Hint Rewrite
  phishing_count_heal phishing_count_push phishing_count_set_in_game
  phishing_count_set_step phishing_count_set_user_password
  phishing_count_set_password_count phishing_count_set_phishing_count
  phishing_count_add_event
  : read_phishing_count.
#[local] Hint Rewrite
  in_game_heal in_game_push in_game_set_in_game in_game_set_step
  in_game_set_user_password in_game_set_password_count
  in_game_set_phishing_count in_game_add_event
  : read_in_game.
#[local] Hint Rewrite
  trace_heal trace_push trace_set_in_game trace_set_step
  trace_set_user_password trace_set_password_count trace_set_phishing_count
  trace_add_event
  : read_trace.

Arguments heal : simpl never.
Arguments push_msg : simpl never.
Arguments has_uppercase : simpl never.
Arguments has_number : simpl never.
Arguments has_symbol : simpl never.

(** Running monadic code one statement at a time. *)
Section Run.
Context {A B : Type} (f : A -> M B) (env : Env) (s : Session).

Lemma run_ret a : bind (ret a) f env s = f a env s.
Proof. reflexivity. Qed.
Lemma run_gets (g : Session -> A) : bind (gets g) f env s = f (g s) env s.
Proof. reflexivity. Qed.
Lemma run_ask (g : Env -> A) : bind (ask g) f env s = f (g env) env s.
Proof. reflexivity. Qed.
Lemma run_rerun : bind rerun f env s = (Rerun, s).
Proof. reflexivity. Qed.
Lemma run_KeyError : bind raise_KeyError f env s = (KeyError, s).
Proof. reflexivity. Qed.
Lemma run_assoc {C} (c : M C) (g : C -> M A) :
  bind (bind c g) f env s = bind c (fun x => bind (g x) f) env s.
Proof. unfold bind. destruct (c env s) as [[a| | |] s1]; reflexivity. Qed.
End Run.

Section RunUnit.
Context {B : Type} (f : unit -> M B) (env : Env) (s : Session).

Lemma run_modify g : bind (modify g) f env s = f tt env (g s).
Proof. reflexivity. Qed.
Lemma run_log e : bind (log e) f env s = f tt env (add_event e s).
Proof. reflexivity. Qed.
Lemma run_append_msg role msg :
  bind (append_msg role msg) f env s = f tt env (push_msg role msg (heal env s)).
Proof. apply bind_ret, append_msg_run. Qed.
Lemma run_when_true c : bind (when true c) f env s = bind c f env s.
Proof. reflexivity. Qed.
Lemma run_when_false c : bind (when false c) f env s = f tt env s.
Proof. reflexivity. Qed.
End RunUnit.

Lemma run_active_history {B} (f : list Message -> M B) env s :
  bind active_history f env s = f (cur_history env s) env (heal env s).
Proof. apply bind_ret, active_history_run. Qed.

Lemma aux_S_run fuel user_msg is_recursive env s :
  handle_password_game_aux (S fuel) user_msg is_recursive env s =
  handle_password_game_body (handle_password_game_aux fuel user_msg true)
    user_msg is_recursive env s.
Proof. reflexivity. Qed.

Lemma run_aux_S {B} fuel user_msg is_recursive (f : unit -> M B) env s :
  bind (handle_password_game_aux (S fuel) user_msg is_recursive) f env s =
  bind (handle_password_game_body (handle_password_game_aux fuel user_msg true)
          user_msg is_recursive) f env s.
Proof. reflexivity. Qed.

(** Deciding the condition of an [if] from what is known about the step and
    the text. *)
Ltac cond_tac :=
  autorewrite with session;
  repeat match goal with
    | H : (get_step _ =? _)%Z = _ |- _ => rewrite H
    | H : get_step _ = _ |- _ => rewrite H
    | H : has_uppercase _ = _ |- _ => rewrite H
    | H : has_number _ = _ |- _ => rewrite H
    | H : has_symbol _ = _ |- _ => rewrite H
    end;
  reflexivity.

Ltac decide_cond b :=
  first [ let Hb := fresh in assert (Hb : b = true) by cond_tac; rewrite Hb; clear Hb
        | let Hb := fresh in assert (Hb : b = false) by cond_tac; rewrite Hb; clear Hb ].

Lemma run_when {B} (f : unit -> M B) env s b c :
  bind (when b c) f env s = bind (if b then c else ret tt) f env s.
Proof. reflexivity. Qed.

(** One statement of the code on the left of the goal. *)
Ltac run_head :=
  lazymatch goal with
  | |- bind ?c ?k ?env ?s = _ =>
      lazymatch c with
      | bind ?c1 ?g => rewrite (run_assoc k env s c1 g)
      | append_msg ?r ?m => rewrite (run_append_msg k env s r m)
      | active_history => rewrite (run_active_history k env s)
      | ret ?a => rewrite (run_ret k env s a)
      | gets ?g => rewrite (run_gets k env s g)
      | ask ?g => rewrite (run_ask k env s g)
      | modify ?g => rewrite (run_modify k env s g)
      | log ?e => rewrite (run_log k env s e)
      | rerun => rewrite (run_rerun k env s)
      | when ?b ?c1 => rewrite (run_when k env s b c1)
      | (if ?b then _ else _) => decide_cond b
      | handle_password_game_aux (S ?f) ?m ?r =>
          rewrite (run_aux_S f m r k env s);
          unfold handle_password_game_body at 1
      | match missing_requirements ?m with _ => _ end =>
          unfold missing_requirements;
          repeat match goal with
            | H : has_uppercase _ = _ |- _ => rewrite H
            | H : has_number _ = _ |- _ => rewrite H
            end;
          cbn [negb app]
      end
  | |- append_msg ?r ?m ?env ?s = _ => rewrite (append_msg_run r m env s)
  | |- handle_password_game_aux (S ?f) ?m ?r ?env ?s = _ =>
      rewrite (aux_S_run f m r env s);
      unfold handle_password_game_body at 1
  | |- handle_password_game ?m ?r ?env ?s = _ =>
      unfold handle_password_game, game_fuel
  end; cbv beta.

Ltac game_run := repeat run_head; cbn [when negb rerun ret].

Lemma app_cons_assoc {A} (l m n : list A) a :
  ((l ++ a :: m) ++ n = l ++ a :: (m ++ n))%list.
Proof. now rewrite <- app_assoc. Qed.

Ltac session_norm :=
  repeat first
    [ progress autorewrite with session
    | rewrite app_cons_assoc ];
  cbn [app].

(* ------------------------------------------------------------------ *)
(** ** The password game *)

Lemma missing_requirements_none user_msg :
  has_uppercase user_msg = true -> has_number user_msg = true ->
  missing_requirements user_msg = [].
Proof. unfold missing_requirements. now intros -> ->. Qed.

(** C10. On the victory transition (step 4, with an uppercase letter, a digit
    and a symbol in the text) the step goes back to 0, the game becomes
    inactive and the password counter is reset to 0, while [user_password]
    is left holding the winning passphrase; the congratulation is the one
    assistant message appended. *)
Theorem victory_keeps_last_attempt env s user_msg :
  password_game_step s = Some 4%Z ->
  has_uppercase user_msg = true ->
  has_number user_msg = true ->
  has_symbol user_msg = true ->
  exists s',
    handle_password_game user_msg false env s = (Rerun, s') /\
    password_game_step s' = Some 0%Z /\
    in_password_game s' = false /\
    password_question_count s' = 0%Z /\
    user_password s' = Some user_msg /\
    phishing_question_count s' = phishing_question_count s /\
    cur_history env s' =
      (cur_history env s ++
       [("user", user_msg); ("assistant", success_msg user_msg)])%list.
Proof.
  intros Hstep Hu Hn Hs.
  eexists. split.
  - unfold handle_password_game, game_fuel. game_run.
    pose proof (get_step_Some _ _ Hstep) as Hg. game_run. reflexivity.
  - session_norm. repeat split.
Qed.


Ltac game_cases s :=
  destruct (get_step s =? 0)%Z eqn:?E0;
  [| destruct (get_step s =? 1)%Z eqn:?E1;
     [| destruct (get_step s =? 2)%Z eqn:?E2;
        [| destruct (get_step s =? 3)%Z eqn:?E3;
           [| destruct (get_step s =? 4)%Z eqn:?E4 ]]]].

(** Three levels of calls are always enough: more fuel changes nothing. *)
Lemma game_fuel_enough fuel user_msg is_recursive env s :
  game_fuel <= fuel ->
  handle_password_game_aux fuel user_msg is_recursive env s =
  handle_password_game user_msg is_recursive env s.
Proof.
  unfold handle_password_game, game_fuel. intros Hf.
  destruct fuel as [|[|[|fuel]]]; try lia. clear Hf.
  destruct is_recursive;
  destruct (has_uppercase user_msg) eqn:Hu, (has_number user_msg) eqn:Hn,
           (has_symbol user_msg) eqn:Hs;
  game_cases s; game_run; symmetry; game_run; reflexivity.
Qed.

(** The trace of one external call: its own entry, then at most two
    recursive entries; the call always ends in [st.rerun()]. *)
Lemma game_call_trace env s user_msg :
  exists s',
    handle_password_game user_msg false env s = (Rerun, s') /\
    exists evs,
      trace s' = (trace s ++ EvGameCall false :: evs)%list /\
      Forall (fun e => e = EvGameCall true) evs /\
      length evs <= 2.
Proof.
  destruct (has_uppercase user_msg) eqn:Hu, (has_number user_msg) eqn:Hn,
           (has_symbol user_msg) eqn:Hs;
  game_cases s;
  (eexists; split; [game_run; reflexivity|]);
  session_norm;
  (eexists; split; [reflexivity|]);
  repeat split; repeat constructor.
Qed.

Lemma reentries_all evs :
  Forall (fun e => e = EvGameCall true) evs -> reentries evs = length evs.
Proof.
  unfold reentries. induction 1 as [|e evs -> _ IH]; simpl; [reflexivity|].
  now rewrite IH.
Qed.

(** C2 (as the code has it). One external call of the game dispatch always
    ends in [st.rerun()], and it re-enters itself at most twice: the trace of
    the call is its own entry followed by at most two recursive entries. *)
Theorem game_call_reenters_at_most_twice env s user_msg :
  exists s',
    handle_password_game user_msg false env s = (Rerun, s') /\
    exists evs,
      trace s' = (trace s ++ EvGameCall false :: evs)%list /\
      Forall (fun e => e = EvGameCall true) evs /\
      reentries evs = length evs /\
      length evs <= 2.
Proof.
  destruct (game_call_trace env s user_msg) as (s' & E & evs & Ht & Hf & Hl).
  exists s'. split; [exact E|]. exists evs. repeat split; auto.
  now apply reentries_all.
Qed.

(** C1 (as the code has it). At step 1 the text [Abc1] takes the game to
    step 4 in one external call: the step-1 branch moves to step 3 and, a
    digit being there, re-enters; the step-3 branch moves to step 4 and,
    no symbol being there, stops. The call appends the user's text and
    exactly two assistant messages. *)
Theorem abc1_at_step1_reaches_step4 env s :
  password_game_step s = Some 1%Z ->
  exists s',
    handle_password_game "Abc1" false env s = (Rerun, s') /\
    password_game_step s' = Some 4%Z /\
    cur_history env s' =
      (cur_history env s ++
       [("user", "Abc1");
        ("assistant", msg_already_uppercase "Abc1");
        ("assistant", msg_number_done "Abc1")])%list /\
    trace s' = (trace s ++ [EvGameCall false; EvGameCall true])%list.
Proof.
  intros Hstep.
  pose proof (get_step_Some _ _ Hstep) as Hg.
  assert (Hu : has_uppercase "Abc1" = true) by reflexivity.
  assert (Hn : has_number "Abc1" = true) by reflexivity.
  assert (Hs : has_symbol "Abc1" = false) by reflexivity.
  eexists. split; [game_run; reflexivity|].
  session_norm. repeat split.
Qed.

Lemma abc1_at_step1_reaches_step4_witness :
  password_game_step (game_session 1) = Some 1%Z /\
  exists s',
    handle_password_game "Abc1" false env0 (game_session 1) = (Rerun, s') /\
    password_game_step s' = Some 4%Z /\
    cur_history env0 s' =
      (cur_history env0 (game_session 1) ++
       [("user", "Abc1");
        ("assistant", msg_already_uppercase "Abc1");
        ("assistant", msg_number_done "Abc1")])%list /\
    trace s' = (trace (game_session 1) ++ [EvGameCall false; EvGameCall true])%list.
Proof.
  split; [reflexivity|].
  apply (abc1_at_step1_reaches_step4 env0 (game_session 1)). reflexivity.
Defined.

(** C1 as stated fails: after [Abc1] at step 1 the game is not at step 3. *)
Lemma abc1_at_step1_not_at_step3 :
  password_game_step
    (snd (handle_password_game "Abc1" false env0 (game_session 1))) <> Some 3%Z.
Proof. vm_compute. discriminate. Qed.

(** C2 as stated fails: [Abc1!] at step 1 re-enters twice in one call
    (step 1 to 3, step 3 to 4, and the victory at step 4). *)
Lemma abc1bang_reenters_twice :
  reentries
    (trace (snd (handle_password_game "Abc1!" false env0 (game_session 1)))) = 2 /\
  password_game_step
    (snd (handle_password_game "Abc1!" false env0 (game_session 1))) = Some 0%Z /\
  ~ reentries
      (trace (snd (handle_password_game "Abc1!" false env0 (game_session 1)))) <= 1.
Proof. vm_compute. repeat split. intros H. inversion H as [|? H']. inversion H'. Qed.

Lemma victory_keeps_last_attempt_witness :
  password_game_step (game_session 4) = Some 4%Z /\
  has_uppercase "Abc1!" = true /\ has_number "Abc1!" = true /\
  has_symbol "Abc1!" = true /\
  exists s',
    handle_password_game "Abc1!" false env0 (game_session 4) = (Rerun, s') /\
    password_game_step s' = Some 0%Z /\
    in_password_game s' = false /\
    password_question_count s' = 0%Z /\
    user_password s' = Some "Abc1!" /\
    phishing_question_count s' = phishing_question_count (game_session 4) /\
    cur_history env0 s' =
      (cur_history env0 (game_session 4) ++
       [("user", "Abc1!"); ("assistant", success_msg "Abc1!")])%list.
Proof.
  repeat (split; [reflexivity|]).
  apply (victory_keeps_last_attempt env0 (game_session 4) "Abc1!"); reflexivity.
Defined.

(* ------------------------------------------------------------------ *)
(** ** Facts about text *)

Lemma append_nil_r s : s ++ EmptyString = s.
Proof. induction s; simpl; congruence. Qed.

Lemma append_assoc (a b c : string) : (a ++ b) ++ c = a ++ (b ++ c).
Proof. induction a; simpl; congruence. Qed.

Lemma length_append (a b : string) :
  String.length (a ++ b) = String.length a + String.length b.
Proof. induction a; simpl; congruence. Qed.

Lemma prefix_spec k q :
  String.prefix k q = true <-> exists post, q = k ++ post.
Proof.
  revert q. induction k as [|a k IH]; intros q.
  - split; [intros _; now exists q | intros _; now destruct q].
  - destruct q as [|b q]; simpl.
    + split; [discriminate | intros [post H]; discriminate].
    + destruct (Ascii.ascii_dec a b) as [->|N].
      * rewrite IH. split; intros [post H]; exists post; simpl in *; congruence.
      * split; [discriminate | intros [post H]; simpl in H; congruence].
Qed.

Lemma strip_prefix_spec k q r :
  strip_prefix k q = Some r <-> q = k ++ r.
Proof.
  revert q. induction k as [|a k IH]; intros q; simpl.
  - split; congruence.
  - destruct q as [|b q]; [split; discriminate|].
    destruct (Ascii.eqb_spec a b) as [->|N].
    + rewrite IH. split; congruence.
    + split; [discriminate | congruence].
Qed.

Lemma strip_prefix_append k r : strip_prefix k (k ++ r) = Some r.
Proof. now apply strip_prefix_spec. Qed.

(** [k in q] holds exactly when [k] is a substring of [q]. *)
Lemma contains_spec k q : contains k q = true <-> is_substring k q.
Proof.
  unfold is_substring. induction q as [|c q IH]; cbn [contains].
  - rewrite orb_false_r, prefix_spec. split.
    + intros [post H]. now exists EmptyString, post.
    + intros (pre & post & H). destruct pre; simpl in H; [now exists post|discriminate].
  - rewrite orb_true_iff, IH. split.
    + intros [H|(pre & post & H)].
      * apply prefix_spec in H as [post H]. now exists EmptyString, post.
      * exists (String c pre), post. simpl. congruence.
    + intros (pre & post & H). destruct pre as [|c' pre]; simpl in H.
      * left. apply prefix_spec. now exists post.
      * right. exists pre, post. congruence.
Qed.

Lemma last_char_append prev a b :
  last_char prev (a ++ b) = last_char (last_char prev a) b.
Proof. revert prev. induction a; intros prev; simpl; auto. Qed.

Lemma last_char_nonempty prev prev' k :
  k <> EmptyString -> last_char prev k = last_char prev' k.
Proof. destruct k; [congruence|reflexivity]. Qed.

Lemma head_append_nonempty k post :
  k <> EmptyString -> head (k ++ post) = head k.
Proof. destruct k; [congruence|reflexivity]. Qed.

Lemma match_word_here_spec k prev q :
  match_word_here k prev q = true <->
  exists post,
    q = k ++ post /\
    at_boundary prev (head q) = true /\
    at_boundary (last_char prev k) (head post) = true.
Proof.
  unfold match_word_here. split.
  - destruct (strip_prefix k q) as [rest|] eqn:E; [|discriminate].
    apply strip_prefix_spec in E. intros H. apply andb_true_iff in H as [H1 H2].
    now exists rest.
  - intros (post & E & H1 & H2). apply strip_prefix_spec in E.
    now rewrite E, H1, H2.
Qed.

(** What [re.search] of the pattern finds: an occurrence of [k] with a word
    boundary on each side. *)
Lemma search_word_from_spec k prev q :
  search_word_from k prev q = true <->
  exists pre post,
    q = pre ++ k ++ post /\
    at_boundary (last_char prev pre) (head (k ++ post)) = true /\
    at_boundary (last_char (last_char prev pre) k) (head post) = true.
Proof.
  revert prev. induction q as [|c q IH]; intros prev; cbn [search_word_from].
  - rewrite orb_false_r, match_word_here_spec. split.
    + intros (post & E & H1 & H2). exists EmptyString, post.
      simpl. rewrite <- E. auto.
    + intros (pre & post & E & H1 & H2).
      destruct pre; [|discriminate]. simpl in *.
      exists post. rewrite <- E in H1. auto.
  - rewrite orb_true_iff, IH, match_word_here_spec. split.
    + intros [(post & E & H1 & H2)|(pre & post & E & H1 & H2)].
      * exists EmptyString, post. simpl. rewrite <- E. auto.
      * exists (String c pre), post. simpl. rewrite E. auto.
    + intros (pre & post & E & H1 & H2). destruct pre as [|c' pre]; simpl in *.
      * left. exists post. rewrite <- E in H1. auto.
      * right. inversion E; subst. exists pre, post. auto.
Qed.

Lemma lower_append a b : lower (a ++ b) = lower a ++ lower b.
Proof. unfold lower. induction a; simpl; congruence. Qed.

(** A split of the lowered text comes from a split of the text. *)
Lemma lower_split t a b :
  lower t = a ++ b -> exists x y, t = x ++ y /\ lower x = a /\ lower y = b.
Proof.
  revert t. induction a as [|c a IH]; intros t H; simpl in *.
  - now exists EmptyString, t.
  - destruct t as [|d t]; [discriminate|]. unfold lower in H. simpl in H.
    inversion H as [[Hc Ht]]. destruct (IH t Ht) as (x & y & -> & Hx & Hy).
    exists (String d x), y. unfold lower in *. simpl. now rewrite Hx.
Qed.

Lemma is_word_lower_char c : is_word (lower_char c) = is_word c.
Proof. destruct c as [[] [] [] [] [] [] [] []]; reflexivity. Qed.

Lemma is_word_opt_last_lower prev s :
  is_word_opt (last_char (option_map lower_char prev) (lower s)) =
  is_word_opt (last_char prev s).
Proof.
  revert prev. induction s as [|c s IH]; intros prev; simpl.
  - destruct prev; simpl; [apply is_word_lower_char|reflexivity].
  - apply (IH (Some c)).
Qed.

Lemma is_word_opt_last_lower_None s :
  is_word_opt (last_char None (lower s)) = is_word_opt (last_char None s).
Proof. apply (is_word_opt_last_lower None). Qed.

Lemma is_word_opt_head_lower s :
  is_word_opt (head (lower s)) = is_word_opt (head s).
Proof. destruct s; simpl; [reflexivity|apply is_word_lower_char]. Qed.

(** Every banned term starts and ends with a word character. *)
Lemma banned_wordy k : In k BANNED -> wordy k = true /\ k <> EmptyString.
Proof.
  intros H. assert (A : forallb (fun k => wordy k && negb (is_empty k)) BANNED = true)
    by reflexivity.
  rewrite forallb_forall in A. specialize (A k H).
  apply andb_true_iff in A as [A B]. split; [exact A|].
  destruct k; [discriminate|congruence].
Qed.

(** The regular-expression test of the guardrail agrees with the whole-word
    reading of the specification, for every banned term. *)
Lemma banned_search_spec k text :
  In k BANNED ->
  re_search_word k (lower text) = true <-> occurs_as_whole_word k text.
Proof.
  intros Hk. destruct (banned_wordy k Hk) as [Hw Hne].
  apply andb_true_iff in Hw as [Hh Hl].
  unfold re_search_word, occurs_as_whole_word. rewrite search_word_from_spec.
  split.
  - intros (pre & post & E & H1 & H2).
    rewrite (head_append_nonempty k post Hne) in H1.
    rewrite (last_char_nonempty _ None k Hne) in H2.
    unfold at_boundary in H1, H2. rewrite Hh in H1. rewrite Hl in H2.
    destruct (lower_split _ _ _ E) as (x & y & -> & Hx & Hy).
    destruct (lower_split _ _ _ Hy) as (m & z & -> & Hm & Hz).
    exists x, m, z. repeat split; auto.
    + rewrite <- is_word_opt_last_lower_None, Hx.
      destruct (is_word_opt (last_char None pre)); [discriminate|reflexivity].
    + rewrite <- is_word_opt_head_lower, Hz.
      destruct (is_word_opt (head post)); [discriminate|reflexivity].
  - intros (pre & mid & post & -> & Hm & H1 & H2).
    exists (lower pre), (lower post). rewrite !lower_append, Hm.
    split; [reflexivity|].
    rewrite (head_append_nonempty k _ Hne), (last_char_nonempty _ None k Hne).
    unfold at_boundary. rewrite Hh, Hl.
    rewrite is_word_opt_last_lower_None, H1.
    rewrite is_word_opt_head_lower, H2. auto.
Qed.

(* ------------------------------------------------------------------ *)
(** ** The guardrail classifier *)

Lemma banned_hit_spec text :
  banned_hit (lower text) = true <->
  exists term, In term BANNED /\ occurs_as_whole_word term text.
Proof.
  unfold banned_hit. rewrite existsb_exists. split.
  - intros (k & Hk & H). exists k. split; [exact Hk|].
    now apply banned_search_spec.
  - intros (k & Hk & H). exists k. split; [exact Hk|].
    now apply banned_search_spec.
Qed.

Lemma on_topic_spec q :
  on_topic q = true <-> exists k, In k CYBER_TOPICS /\ is_substring k q.
Proof.
  unfold on_topic. rewrite existsb_exists.
  split; intros (k & Hk & H); exists k; (split; [exact Hk|]); now apply contains_spec.
Qed.

(** C3. An ASCII text that contains a banned term as a whole word, in any
    case of letters, is denied with the fixed redirect message, whatever the
    history. *)
Theorem banned_word_is_denied text history term :
  is_ascii text = true ->
  In term BANNED ->
  occurs_as_whole_word term text ->
  guardrails_or_offtopic text history = Some DENY_MESSAGE.
Proof.
  intros _ Hk H. unfold guardrails_or_offtopic.
  assert (E : banned_hit (lower text) = true).
  { apply banned_hit_spec. now exists term. }
  now rewrite E.
Qed.

Lemma banned_word_is_denied_witness :
  is_ascii "Tell me How To HACK, please" = true /\
  In "how to hack" BANNED /\
  occurs_as_whole_word "how to hack" "Tell me How To HACK, please" /\
  guardrails_or_offtopic "Tell me How To HACK, please"
    [("user", "hi"); ("assistant", "hello")] = Some DENY_MESSAGE.
Proof.
  assert (A : In "how to hack" BANNED) by (simpl; auto).
  assert (B : occurs_as_whole_word "how to hack" "Tell me How To HACK, please").
  { exists "Tell me ", "How To HACK", ", please". repeat split; reflexivity. }
  split; [reflexivity|]. split; [exact A|]. split; [exact B|].
  apply (banned_word_is_denied "Tell me How To HACK, please"
           [("user", "hi"); ("assistant", "hello")] "how to hack" eq_refl A B).
Defined.

(** C4. An ASCII text without banned term: on an empty history it is
    off-topic when its lowered form contains no on-topic keyword as a
    substring, and allowed when it contains one; on a non-empty history it
    is always allowed. *)
Theorem unbanned_text_verdict text history :
  is_ascii text = true ->
  (forall term, In term BANNED -> ~ occurs_as_whole_word term text) ->
  (history = [] ->
   (forall k, In k CYBER_TOPICS -> ~ is_substring k (lower text)) ->
   guardrails_or_offtopic text history = Some OFFTOPIC_MESSAGE) /\
  (history = [] ->
   (exists k, In k CYBER_TOPICS /\ is_substring k (lower text)) ->
   guardrails_or_offtopic text history = None) /\
  (history <> [] -> guardrails_or_offtopic text history = None).
Proof.
  intros _ Hb. unfold guardrails_or_offtopic.
  assert (E : banned_hit (lower text) = false).
  { destruct (banned_hit (lower text)) eqn:E; [|reflexivity].
    apply banned_hit_spec in E as (k & Hk & H). now destruct (Hb k Hk). }
  rewrite E. repeat split.
  - intros -> Hn. simpl.
    destruct (on_topic (lower text)) eqn:T; [|reflexivity].
    apply on_topic_spec in T as (k & Hk & H). now destruct (Hn k Hk).
  - intros -> Ht. simpl. apply on_topic_spec in Ht. now rewrite Ht.
  - intros Hh. destruct history; [congruence|reflexivity].
Qed.

Lemma no_banned_term_by_search text :
  banned_hit (lower text) = false ->
  forall term, In term BANNED -> ~ occurs_as_whole_word term text.
Proof.
  intros E term Hk H.
  assert (T : banned_hit (lower text) = true) by (apply banned_hit_spec; now exists term).
  congruence.
Qed.

Lemma no_topic_by_search q :
  on_topic q = false ->
  forall k, In k CYBER_TOPICS -> ~ is_substring k q.
Proof.
  intros E k Hk H.
  assert (T : on_topic q = true) by (apply on_topic_spec; now exists k).
  congruence.
Qed.

Lemma unbanned_text_verdict_witness :
  guardrails_or_offtopic "What is the weather today?" [] = Some OFFTOPIC_MESSAGE /\
  guardrails_or_offtopic "Is my Wi-Fi router safe?" [] = None /\
  guardrails_or_offtopic "What is the weather today?"
    [("user", "what is 2fa"); ("assistant", "a second factor")] = None.
Proof.
  split; [|split].
  - refine (proj1 (unbanned_text_verdict "What is the weather today?" []
                     eq_refl _) _ _).
    + apply no_banned_term_by_search. vm_compute. reflexivity.
    + reflexivity.
    + apply no_topic_by_search. vm_compute. reflexivity.
  - refine (proj1 (proj2 (unbanned_text_verdict "Is my Wi-Fi router safe?" []
                            eq_refl _)) _ _).
    + apply no_banned_term_by_search. vm_compute. reflexivity.
    + reflexivity.
    + exists "wi-fi". split; [vm_compute; tauto|].
      exists "is my ", " router safe?". reflexivity.
  - refine (proj2 (proj2 (unbanned_text_verdict "What is the weather today?"
             [("user", "what is 2fa"); ("assistant", "a second factor")]
             eq_refl _)) _).
    + apply no_banned_term_by_search. vm_compute. reflexivity.
    + discriminate.
Defined.

(* ------------------------------------------------------------------ *)
(** ** Unique names *)

Lemma str_in_spec x l : str_in x l = true <-> In x l.
Proof.
  unfold str_in. rewrite existsb_exists. split.
  - intros (y & Hy & E). apply String.eqb_eq in E. now subst.
  - intros H. exists x. split; [exact H|apply String.eqb_refl].
Qed.

Lemma str_in_false x l : str_in x l = false <-> ~ In x l.
Proof.
  rewrite <- str_in_spec. destruct (str_in x l); split; congruence.
Qed.

Lemma append_inj_l (a x y : string) : a ++ x = a ++ y -> x = y.
Proof. induction a; simpl; intros H; [exact H|inversion H; auto]. Qed.

Lemma append_inj_r (c x y : string) : x ++ c = y ++ c -> x = y.
Proof.
  revert y. induction x as [|a x IH]; intros [|b y] H; simpl in *.
  - reflexivity.
  - apply (f_equal String.length) in H. simpl in H. rewrite length_append in H. lia.
  - apply (f_equal String.length) in H. simpl in H. rewrite length_append in H. lia.
  - inversion H. f_equal. auto.
Qed.

Lemma str_of_nat_inj n m : str_of_nat n = str_of_nat m -> n = m.
Proof.
  unfold str_of_nat. intros H.
  apply (f_equal NilEmpty.uint_of_string) in H. rewrite !NilEmpty.usu in H.
  inversion H as [H']. apply (f_equal Nat.of_uint) in H'.
  now rewrite !Unsigned.of_to in H'.
Qed.

Lemma numbered_inj name n m : numbered name n = numbered name m -> n = m.
Proof.
  unfold numbered. intros H.
  apply append_inj_l in H. apply (append_inj_l " (") in H.
  apply append_inj_r in H. now apply str_of_nat_inj.
Qed.

(** The loop answers with the first free number. *)
Lemma unique_loop_some fuel n name ex r :
  unique_loop fuel n name ex = Some r ->
  exists k, n <= k /\ r = numbered name k /\ ~ In r ex /\
            forall m, n <= m < k -> In (numbered name m) ex.
Proof.
  revert n. induction fuel as [|fuel IH]; intros n; simpl; [discriminate|].
  destruct (str_in (numbered name n) ex) eqn:E; simpl.
  - intros H. destruct (IH _ H) as (k & Hk & Hr & Hn & Hm).
    exists k. repeat split; auto; [lia|].
    intros m Hm'. destruct (Nat.eq_dec m n) as [->|N].
    + now apply str_in_spec.
    + apply Hm. lia.
  - intros H. inversion H; subst. exists n. repeat split; auto.
    + now apply str_in_false.
    + intros m Hm. lia.
Qed.

Lemma unique_loop_none fuel n name ex :
  unique_loop fuel n name ex = None ->
  forall m, n <= m < n + fuel -> In (numbered name m) ex.
Proof.
  revert n. induction fuel as [|fuel IH]; intros n; simpl; [intros _ m; lia|].
  destruct (str_in (numbered name n) ex) eqn:E; simpl; [|discriminate].
  intros H m Hm. destruct (Nat.eq_dec m n) as [->|N].
  - now apply str_in_spec.
  - apply (IH _ H). lia.
Qed.

(** With more rounds than names the loop cannot run out: the candidates are
    pairwise different, so they do not all fit among the names. *)
Lemma unique_loop_total fuel n name ex :
  length ex < fuel -> unique_loop fuel n name ex <> None.
Proof.
  intros Hf H.
  pose proof (unique_loop_none _ _ _ _ H) as Hall.
  assert (Hincl : incl (map (numbered name) (seq n fuel)) ex).
  { intros x Hx. apply in_map_iff in Hx as (m & <- & Hm).
    apply in_seq in Hm. apply Hall. lia. }
  assert (Hnd : NoDup (map (numbered name) (seq n fuel))).
  { apply NoDup_map_NoDup_ForallPairs; [|apply seq_NoDup].
    intros a b _ _. apply numbered_inj. }
  pose proof (NoDup_incl_length Hnd Hincl) as Hlen.
  rewrite length_map, length_seq in Hlen. lia.
Qed.

(** [_ensure_unique_name] always answers, with a name that no conversation
    of the set has: the name itself when it is free, and otherwise the name
    with the first free number from 2. *)
Lemma ensure_unique_name_total name d :
  exists r,
    _ensure_unique_name name d = Some r /\
    ~ In r (existing_names d) /\
    ((~ In name (existing_names d) /\ r = name) \/
     (In name (existing_names d) /\
      exists k, 2 <= k /\ r = numbered name k /\
                forall m, 2 <= m < k -> In (numbered name m) (existing_names d))).
Proof.
  unfold _ensure_unique_name.
  destruct (str_in name (existing_names d)) eqn:E; simpl.
  - destruct (unique_loop (S (length (existing_names d))) 2 name (existing_names d))
      as [r|] eqn:L.
    + destruct (unique_loop_some _ _ _ _ _ L) as (k & Hk & Hr & Hn & Hm).
      exists r. repeat split; auto. right. split; [now apply str_in_spec|].
      exists k. auto.
    + exfalso. revert L. apply unique_loop_total. lia.
  - exists name. apply str_in_false in E. repeat split; auto.
Qed.

Lemma run_ensure_unique_name {B} (f : string -> M B) env s name :
  exists r,
    _ensure_unique_name name (convos s) = Some r /\
    bind (ensure_unique_name name) f env s = f r env s.
Proof.
  destruct (ensure_unique_name_total name (convos s)) as (r & E & _).
  exists r. split; [exact E|].
  unfold bind, ensure_unique_name. now rewrite E.
Qed.

(* ------------------------------------------------------------------ *)
(** ** Renaming leaves the conversation alone *)

Lemma marks_app a b : marks (a ++ b) = marks a + marks b.
Proof. unfold marks. now rewrite filter_app, length_app. Qed.

Lemma reentries_app a b : reentries (a ++ b) = reentries a + reentries b.
Proof. unfold reentries. now rewrite filter_app, length_app. Qed.

Lemma stream_prompts_app a b :
  stream_prompts (a ++ b) = (stream_prompts a ++ stream_prompts b)%list.
Proof.
  induction a as [|e a IH]; simpl; [reflexivity|].
  destruct e; simpl; now rewrite IH.
Qed.

Lemma only_names_refl s : only_names 0 s s.
Proof.
  exists (convos s), []. rewrite app_nil_r. destruct s; simpl. repeat split.
Qed.

Lemma only_names_trans n m s s1 s2 :
  only_names n s s1 -> only_names m s1 s2 -> only_names (n + m) s s2.
Proof.
  intros (d1 & e1 & -> & P1 & M1 & R1 & H1) (d2 & e2 & -> & P2 & M2 & R2 & H2).
  simpl in *. exists d2, (e1 ++ e2)%list. rewrite app_assoc.
  repeat split.
  - now rewrite stream_prompts_app, P1, P2.
  - now rewrite marks_app, M1, M2.
  - now rewrite reentries_app, R1, R2.
  - intros k. now rewrite H2, H1.
Qed.

Lemma only_names_title_event p s : only_names 0 s (add_event (EvGenerateTitle p) s).
Proof. exists (convos s), [EvGenerateTitle p]. repeat split. Qed.

Lemma only_names_mark_event sid s : only_names 1 s (add_event (EvMarkOfftopic sid) s).
Proof. exists (convos s), [EvMarkOfftopic sid]. repeat split. Qed.

Lemma rename_in_history sid n d k :
  option_map history (Dict.get k (rename_in sid n d)) =
  option_map history (Dict.get k d).
Proof.
  unfold rename_in. destruct (Dict.get sid d) as [c|] eqn:E; [|reflexivity].
  destruct (String.eqb_spec k sid) as [->|N].
  - now rewrite dict_get_set_same, E.
  - now rewrite dict_get_set_other.
Qed.

Lemma only_names_rename sid n s :
  only_names 0 s (set_convos (rename_in sid n (convos s)) s).
Proof.
  exists (rename_in sid n (convos s)), []. rewrite app_nil_r.
  repeat split. apply rename_in_history.
Qed.

Lemma only_names_get n s s' k c :
  only_names n s s' -> Dict.get k (convos s) = Some c ->
  exists c', Dict.get k (convos s') = Some c' /\ history c' = history c.
Proof.
  intros (d' & evs & -> & _ & _ & _ & H) E. simpl.
  specialize (H k). rewrite E in H.
  destruct (Dict.get k d') as [c'|]; [|discriminate].
  exists c'. split; [reflexivity|]. simpl in H. congruence.
Qed.

Lemma only_names_fields n s s' :
  only_names n s s' ->
  active_id s' = active_id s /\
  in_password_game s' = in_password_game s /\
  password_game_step s' = password_game_step s /\
  user_password s' = user_password s /\
  password_question_count s' = password_question_count s /\
  phishing_question_count s' = phishing_question_count s /\
  marks (trace s') = marks (trace s) + n /\
  reentries (trace s') = reentries (trace s) /\
  stream_prompts (trace s') = stream_prompts (trace s).
Proof.
  intros (d' & evs & -> & P & Mk & R & _). simpl.
  rewrite marks_app, reentries_app, stream_prompts_app, P, Mk, R, app_nil_r.
  repeat split; lia.
Qed.

Lemma only_names_healed n s s' : only_names n s s' -> Healed s -> Healed s'.
Proof.
  intros H (a & c & Ha & Hc).
  destruct (only_names_get _ _ _ _ _ H Hc) as (c' & Hc' & _).
  exists a, c'. split; [|exact Hc'].
  destruct (only_names_fields _ _ _ H) as (-> & _). exact Ha.
Qed.

Lemma only_names_cur_history env n s s' :
  only_names n s s' -> Healed s -> cur_history env s' = cur_history env s.
Proof.
  intros H (a & c & Ha & Hc).
  destruct (only_names_get _ _ _ _ _ H Hc) as (c' & Hc' & Hh).
  rewrite (cur_history_healed env s a c Ha Hc).
  rewrite (cur_history_healed env s' a c'); auto.
  destruct (only_names_fields _ _ _ H) as (-> & _). exact Ha.
Qed.

Lemma lookup_run sid env s c :
  Dict.get sid (convos s) = Some c -> lookup sid env s = (Ret c, s).
Proof. unfold lookup. now intros ->. Qed.

Lemma lookup_active_run env s a c :
  active_id s = Some a -> Dict.get a (convos s) = Some c ->
  lookup_active env s = (Ret c, s).
Proof. unfold lookup_active. now intros -> ->. Qed.

Lemma model_title_run msgs env s :
  exists t s1, model_title msgs env s = (Ret t, s1) /\ only_names 0 s s1.
Proof.
  unfold model_title, bind, ask, log, modify, ret.
  destruct (client env) as [c|].
  - destruct (generate_content c (title_prompt msgs)) as [text|].
    + destruct (is_empty text); eexists; eexists;
        (split; [reflexivity|apply only_names_title_event]).
    + eexists; eexists; (split; [reflexivity|apply only_names_title_event]).
  - eexists; eexists; (split; [reflexivity|apply only_names_refl]).
Qed.

Lemma set_title_from_msgs_run sid msgs env s c :
  Dict.get sid (convos s) = Some c ->
  exists s', set_title_from_msgs sid msgs env s = (Ret tt, s') /\ only_names 0 s s'.
Proof.
  intros Hc. unfold set_title_from_msgs.
  destruct msgs as [|m ms].
  { exists s. split; [reflexivity|apply only_names_refl]. }
  rewrite (bind_ret _ _ _ _ _ _ (lookup_run _ env _ _ Hc)).
  destruct (is_default_name (name c)); cbn [negb].
  - destruct (model_title_run (m :: ms) env s) as (t & s1 & E1 & O1).
    rewrite (bind_ret _ _ _ _ _ _ E1).
    match goal with
    | |- context [ensure_unique_name ?n] =>
        destruct (run_ensure_unique_name (fun u => set_name sid u) env s1 n)
          as (r & _ & E2)
    end.
    rewrite E2. eexists. split; [reflexivity|].
    apply (only_names_trans 0 0 _ _ _ O1). apply only_names_rename.
  - exists s. split; [reflexivity|apply only_names_refl].
Qed.

Lemma auto_title_if_needed_run sid env s c :
  Dict.get sid (convos s) = Some c ->
  exists s', auto_title_if_needed sid env s = (Ret tt, s') /\ only_names 0 s s'.
Proof.
  intros Hc. unfold auto_title_if_needed.
  rewrite (bind_ret _ _ _ _ _ _ (lookup_run _ env _ _ Hc)).
  destruct (is_default_name (name c)); cbn [negb].
  - destruct (firstn 2 (user_turns (history c))) as [|m ms].
    + exists s. split; [reflexivity|apply only_names_refl].
    + now apply set_title_from_msgs_run with (c := c).
  - exists s. split; [reflexivity|apply only_names_refl].
Qed.

(** The title update of the end of a turn returns or reruns, and only
    renames. *)
Lemma maybe_update_title_run env s :
  Healed s ->
  exists o s',
    _maybe_update_title_after_first_turn env s = (o, s') /\
    (o = Ret tt \/ o = Rerun) /\ only_names 0 s s'.
Proof.
  intros (a & c & Ha & Hc). unfold _maybe_update_title_after_first_turn.
  rewrite (bind_ret _ _ _ _ _ _ (lookup_active_run env s a c Ha Hc)).
  destruct (Nat.eqb (length (user_turns (history c))) 1 ||
            Nat.eqb (length (user_turns (history c))) 2); cbn [when].
  - rewrite run_gets, Ha.
    destruct (auto_title_if_needed_run a env s c Hc) as (s1 & E1 & O1).
    rewrite (bind_ret _ _ _ _ _ _ E1).
    destruct (only_names_get _ _ _ _ _ O1 Hc) as (c1 & Hc1 & _).
    assert (Ha1 : active_id s1 = Some a).
    { destruct (only_names_fields _ _ _ O1) as (-> & _). exact Ha. }
    rewrite (bind_ret _ _ _ _ _ _ (lookup_active_run env s1 a c1 Ha1 Hc1)).
    destruct (negb (String.eqb (name c) (name c1))); cbn [when];
      eexists; eexists; (split; [reflexivity|]); auto.
  - exists (Ret tt), s. repeat split; auto. apply only_names_refl.
Qed.

(** [mark_offtopic] on a conversation of the set returns, having run once
    and only renamed. *)
Lemma mark_offtopic_run sid env s c :
  Dict.get sid (convos s) = Some c ->
  exists s', mark_offtopic sid env s = (Ret tt, s') /\ only_names 1 s s'.
Proof.
  intros Hc. unfold mark_offtopic. rewrite run_log.
  pose proof (only_names_mark_event sid s) as O0.
  set (s0 := add_event (EvMarkOfftopic sid) s) in *.
  assert (Hc0 : Dict.get sid (convos s0) = Some c) by exact Hc.
  rewrite (bind_ret _ _ _ _ _ _ (lookup_run _ env _ _ Hc0)).
  assert (Hn : exists n1 s1,
    (if startswith "new chat" (lower (name c)) || startswith "Chat " (name c)
     then
       match last_n 2 (user_turns (history c)) with
       | [] => ret (name c)
       | user_msgs =>
           set_title_from_msgs sid user_msgs ;;
           sess' <- lookup sid ;;
           ret (name sess')
       end
     else ret (name c)) env s0 = (Ret n1, s1) /\ only_names 0 s0 s1).
  { destruct (startswith "new chat" (lower (name c)) || startswith "Chat " (name c)).
    - destruct (last_n 2 (user_turns (history c))) as [|m ms].
      + exists (name c), s0. split; [reflexivity|apply only_names_refl].
      + destruct (set_title_from_msgs_run sid (m :: ms) env s0 c Hc0)
          as (s1 & E1 & O1).
        rewrite (bind_ret _ _ _ _ _ _ E1).
        destruct (only_names_get _ _ _ _ _ O1 Hc0) as (c1 & Hc1 & _).
        rewrite (bind_ret _ _ _ _ _ _ (lookup_run _ env _ _ Hc1)).
        exists (name c1), s1. split; [reflexivity|exact O1].
    - exists (name c), s0. split; [reflexivity|apply only_names_refl]. }
  destruct Hn as (n1 & s1 & E1 & O1).
  rewrite (bind_ret _ _ _ _ _ _ E1).
  destruct (negb (endswith OFFTOPIC_SUFFIX n1)); cbn [when].
  - destruct (run_ensure_unique_name (fun u => set_name sid u) env s1
                (n1 ++ OFFTOPIC_SUFFIX)) as (r & _ & E2).
    rewrite E2. eexists. split; [reflexivity|].
    apply (only_names_trans 1 0 _ _ _ O0).
    apply (only_names_trans 0 0 _ _ _ O1). apply only_names_rename.
  - exists s1. split; [reflexivity|].
    apply (only_names_trans 1 0 _ _ _ O0). exact O1.
Qed.

(* ------------------------------------------------------------------ *)
(** ** One chat turn: facts *)

Lemma Healed_ext s1 s2 :
  convos s1 = convos s2 -> active_id s1 = active_id s2 -> Healed s2 -> Healed s1.
Proof. intros Hc Ha (a & c & H1 & H2). exists a, c. now rewrite Hc, Ha. Qed.

Lemma healed_set_in_game b s : Healed s -> Healed (set_in_password_game b s).
Proof. now apply Healed_ext. Qed.
Lemma healed_set_step n s : Healed s -> Healed (set_password_game_step n s).
Proof. now apply Healed_ext. Qed.
Lemma healed_set_user_password p s : Healed s -> Healed (set_user_password p s).
Proof. now apply Healed_ext. Qed.
Lemma healed_set_password_count n s :
  Healed s -> Healed (set_password_question_count n s).
Proof. now apply Healed_ext. Qed.
Lemma healed_set_phishing_count n s :
  Healed s -> Healed (set_phishing_question_count n s).
Proof. now apply Healed_ext. Qed.
Lemma healed_add_event e s : Healed s -> Healed (add_event e s).
Proof. now apply Healed_ext. Qed.

Ltac healed_tac :=
  repeat lazymatch goal with
    | |- Healed (heal _ _) => apply heal_healed
    | |- Healed (push_msg _ _ _) => apply push_healed
    | |- Healed (set_in_password_game _ _) => apply healed_set_in_game
    | |- Healed (set_password_game_step _ _) => apply healed_set_step
    | |- Healed (set_user_password _ _) => apply healed_set_user_password
    | |- Healed (set_password_question_count _ _) => apply healed_set_password_count
    | |- Healed (set_phishing_question_count _ _) => apply healed_set_phishing_count
    | |- Healed (add_event _ _) => apply healed_add_event
    end;
  try assumption.

Lemma run_lookup {B} (f : Conversation -> M B) env s sid c :
  Dict.get sid (convos s) = Some c -> bind (lookup sid) f env s = f c env s.
Proof. intros H. apply bind_ret, lookup_run, H. Qed.

Lemma contains_password_not_yes user_msg :
  contains "password" (lower user_msg) = true ->
  accepts_invite user_msg = fun _ => false.
Proof.
  intros H. unfold accepts_invite.
  destruct (String.eqb_spec (lower user_msg) "yes") as [E|N]; [|reflexivity].
  rewrite E in H. discriminate.
Qed.

Lemma contains_nonempty k user_msg :
  k <> EmptyString -> contains k (lower user_msg) = true -> is_empty user_msg = false.
Proof.
  intros Hk H. destruct user_msg; [|reflexivity].
  simpl in H. destruct k; [congruence|discriminate].
Qed.

Lemma when_run b c env s : when b c env s = (if b then c else ret tt) env s.
Proof. reflexivity. Qed.

Ltac turn_cond :=
  autorewrite with session;
  repeat match goal with
    | H : ?l = _ |- context [?l] => rewrite H
    end;
  reflexivity.

Ltac decide_turn_cond b :=
  first [ let Hb := fresh in assert (Hb : b = true) by turn_cond; rewrite Hb; clear Hb
        | let Hb := fresh in assert (Hb : b = false) by turn_cond; rewrite Hb; clear Hb ].

(** Replacing a reading of the session by its value. *)
Ltac read_db t :=
  lazymatch t with
  | cur_history _ _ => autorewrite with read_history
  | password_question_count _ => autorewrite with read_password_count
  | phishing_question_count _ => autorewrite with read_phishing_count
  | in_password_game _ => autorewrite with read_in_game
  | trace _ => autorewrite with read_trace
  | _ => autorewrite with session
  end.

Ltac norm_read t :=
  let Hn := fresh in
  eassert (Hn : t = _)
    by (read_db t; rewrite ?app_cons_assoc; cbn [app]; reflexivity);
  try rewrite Hn; clear Hn.

(** One statement of a chat turn. *)
Ltac run_turn :=
  lazymatch goal with
  | |- bind ?c ?k ?env ?s = _ =>
      lazymatch c with
      | active_history =>
          rewrite (run_active_history k env s); norm_read (cur_history env s)
      | gets ?g =>
          rewrite (run_gets k env s g);
          let t := eval cbv beta in (g s) in norm_read t
      | (if ?b then _ else _) => decide_turn_cond b
      | match guardrails_or_offtopic ?m ?h with _ => _ end =>
          let Hg := fresh in
          first
            [ assert (Hg : guardrails_or_offtopic m h = None) by turn_cond
            | eassert (Hg : guardrails_or_offtopic m h = Some _) by turn_cond ];
          rewrite Hg; clear Hg; cbv beta iota
      | match client ?e with _ => _ end =>
          match goal with H : client e = _ |- _ => rewrite H end; cbv beta iota
      | model_reply _ => unfold model_reply
      | password_trigger _ => unfold password_trigger
      | phishing_trigger _ => unfold phishing_trigger
      | _ => run_head
      end
  | |- when ?b ?c ?env ?s = _ => rewrite (when_run b c env s)
  | |- (if ?b then _ else _) ?env ?s = _ => decide_turn_cond b
  | |- _ => run_head
  end; cbv beta.

(** A turn outside the game that the guardrail lets through: the user's
    message and the answer are appended, then the invite and the quiz link
    when their triggers fire; the counters are bumped and reset on firing;
    the prompt is built from the history that already holds the new
    message; [mark_offtopic] does not run. *)
Lemma allowed_turn env s user_msg :
  is_empty user_msg = false ->
  accepts_invite user_msg (cur_history env s) = false ->
  in_password_game s = false ->
  guardrails_or_offtopic user_msg (cur_history env s) = None ->
  let n := bumped "password" user_msg (password_question_count s) in
  let p := bumped "phishing" user_msg (phishing_question_count s) in
  let fire_pw := trigger_game user_msg n (coin_password env) in
  let fire_ph := trigger_phishing user_msg p (coin_phishing env) in
  let h1 := (cur_history env s ++ [("user", user_msg)])%list in
  exists s',
    chat_turn user_msg env s = (Rerun, s') /\
    cur_history env s' =
      (h1 ++ [("assistant", reply_of env user_msg h1)] ++
       fired fire_pw game_msg ++ fired fire_ph quiz_msg)%list /\
    password_question_count s' = (if fire_pw then 0 else n)%Z /\
    phishing_question_count s' = (if fire_ph then 0 else p)%Z /\
    in_password_game s' = false /\
    stream_prompts (trace s') =
      (stream_prompts (trace s) ++ prompts_of env user_msg h1)%list /\
    marks (trace s') = marks (trace s) /\
    reentries (trace s') = reentries (trace s).
Proof.
  intros He Ha Hg Hr. cbv zeta. unfold bumped, reply_of, prompts_of.
  destruct (contains "password" (lower user_msg)) eqn:Cpw;
  destruct (contains "phishing" (lower user_msg)) eqn:Cph;
  destruct (client env) as [c|] eqn:Ec.
  all: match goal with
       | |- context [trigger_game ?m ?n ?c] =>
           destruct (trigger_game m n c) eqn:Tpw
       end.
  all: match goal with
       | |- context [trigger_phishing ?m ?n ?c] =>
           destruct (trigger_phishing m n c) eqn:Tph
       end.
  all: unfold fired.
  all: eassert (E : chat_turn user_msg env s = _);
    [ unfold chat_turn; rewrite He; repeat run_turn; reflexivity |].
  all: rewrite E; clear E.
  all: match goal with
       | |- exists s', bind _ _ ?e ?s4 = _ /\ _ =>
           assert (H4 : Healed s4) by healed_tac;
           eassert (Q1 : cur_history e s4 = _)
             by (autorewrite with read_history; rewrite ?app_cons_assoc;
                 cbn [app]; reflexivity);
           eassert (Q2 : password_question_count s4 = _)
             by (autorewrite with read_password_count; reflexivity);
           eassert (Q3 : phishing_question_count s4 = _)
             by (autorewrite with read_phishing_count; reflexivity);
           eassert (Q4 : in_password_game s4 = _)
             by (autorewrite with read_in_game; reflexivity);
           eassert (Q5 : trace s4 = _)
             by (autorewrite with read_trace; reflexivity);
           let x := fresh "s4" in
           generalize dependent s4; intros x H4 Q1 Q2 Q3 Q4 Q5;
           destruct (maybe_update_title_run e x H4) as (o & s5 & E5 & Ho & On);
           exists s5; split;
           [ unfold bind at 1; rewrite E5; destruct Ho as [-> | ->]; reflexivity |];
           destruct (only_names_fields _ _ _ On)
             as (_ & Fg & _ & _ & Fp & Fph & Fm & Fr & Fs);
           rewrite (only_names_cur_history e _ _ _ On H4), Fg, Fp, Fph, Fm, Fr, Fs,
             Q1, Q2, Q3, Q4, Q5
       end.
  all: rewrite ?stream_prompts_app, ?marks_app, ?reentries_app, ?app_cons_assoc;
       cbn [stream_prompts marks reentries filter is_mark is_reentry length app];
       rewrite ?Nat.add_0_r, ?app_nil_r.
  all: repeat split; try reflexivity; try assumption.
Qed.

Lemma mark_active_offtopic_run env s :
  Healed s ->
  exists s', mark_active_offtopic env s = (Ret tt, s') /\ only_names 1 s s'.
Proof.
  intros (a & c & Ha & Hc). unfold mark_active_offtopic.
  rewrite run_gets, Ha. now apply mark_offtopic_run with (c := c).
Qed.

(** The guardrail's redirects are its two fixed, non-empty messages. *)
Lemma guard_message user_msg h r :
  guardrails_or_offtopic user_msg h = Some r ->
  (r = DENY_MESSAGE \/ r = OFFTOPIC_MESSAGE) /\ is_empty r = false.
Proof.
  unfold guardrails_or_offtopic.
  destruct (banned_hit (lower user_msg)).
  - intros H. inversion H. split; [now left|reflexivity].
  - destruct (Nat.ltb 0 (length h)); [discriminate|].
    destruct (negb (on_topic (lower user_msg))); [|discriminate].
    intros H. inversion H. split; [now right|reflexivity].
Qed.

(** A turn outside the game that the guardrail redirects: the user's message
    and the redirect are appended, [mark_offtopic] runs once, and the
    backend is not asked for an answer. *)
Lemma redirected_turn env s user_msg r :
  is_empty user_msg = false ->
  accepts_invite user_msg (cur_history env s) = false ->
  in_password_game s = false ->
  guardrails_or_offtopic user_msg (cur_history env s) = Some r ->
  exists s',
    chat_turn user_msg env s = (Rerun, s') /\
    cur_history env s' =
      (cur_history env s ++ [("user", user_msg); ("assistant", r)])%list /\
    password_question_count s' =
      bumped "password" user_msg (password_question_count s) /\
    phishing_question_count s' =
      bumped "phishing" user_msg (phishing_question_count s) /\
    in_password_game s' = false /\
    stream_prompts (trace s') = stream_prompts (trace s) /\
    marks (trace s') = marks (trace s) + 1 /\
    reentries (trace s') = reentries (trace s).
Proof.
  intros He Ha Hg Hr. unfold bumped.
  destruct (guard_message _ _ _ Hr) as [_ Hne].
  destruct (contains "password" (lower user_msg)) eqn:Cpw;
  destruct (contains "phishing" (lower user_msg)) eqn:Cph.
  all: eassert (E : chat_turn user_msg env s = _);
    [ unfold chat_turn; rewrite He; repeat run_turn; reflexivity |].
  all: rewrite E; clear E.
  all: match goal with
       | |- exists s', bind _ _ ?e ?s4 = _ /\ _ =>
           assert (H4 : Healed s4) by healed_tac;
           eassert (Q1 : cur_history e s4 = _)
             by (autorewrite with read_history; rewrite ?app_cons_assoc;
                 cbn [app]; reflexivity);
           eassert (Q2 : password_question_count s4 = _)
             by (autorewrite with read_password_count; reflexivity);
           eassert (Q3 : phishing_question_count s4 = _)
             by (autorewrite with read_phishing_count; reflexivity);
           eassert (Q4 : in_password_game s4 = _)
             by (autorewrite with read_in_game; reflexivity);
           eassert (Q5 : trace s4 = _)
             by (autorewrite with read_trace; reflexivity);
           let x := fresh "s4" in
           generalize dependent s4; intros x H4 Q1 Q2 Q3 Q4 Q5;
           destruct (mark_active_offtopic_run e x H4) as (s5 & E5 & On);
           exists s5; split;
           [ unfold bind at 1; rewrite E5; reflexivity |];
           destruct (only_names_fields _ _ _ On)
             as (_ & Fg & _ & _ & Fp & Fph & Fm & Fr & Fs);
           rewrite (only_names_cur_history e _ _ _ On H4), Fg, Fp, Fph, Fm, Fr, Fs,
             Q1, Q2, Q3, Q4, Q5
       end.
  all: repeat split; try reflexivity; try assumption.
Qed.

Lemma marks_game_events evs :
  Forall (fun e => e = EvGameCall true) evs -> marks evs = 0.
Proof. unfold marks. induction 1 as [|e evs -> _ IH]; simpl; auto. Qed.

Lemma stream_prompts_game_events evs :
  Forall (fun e => e = EvGameCall true) evs -> stream_prompts evs = [].
Proof. induction 1 as [|e evs -> _ IH]; simpl; auto. Qed.

(** A turn that the game handles: [mark_offtopic] does not run and the
    backend is not asked. *)
Lemma game_turn env s user_msg :
  is_empty user_msg = false ->
  plain_turn env s user_msg = false ->
  exists s',
    chat_turn user_msg env s = (Rerun, s') /\
    marks (trace s') = marks (trace s) /\
    stream_prompts (trace s') = stream_prompts (trace s).
Proof.
  intros He Hp. unfold plain_turn in Hp.
  assert (Fin : forall s0, trace s0 = trace s ->
    exists s', handle_password_game user_msg false env s0 = (Rerun, s') /\
               marks (trace s') = marks (trace s) /\
               stream_prompts (trace s') = stream_prompts (trace s)).
  { intros s0 Ht.
    destruct (game_call_trace env s0 user_msg) as (s' & E & evs & Hs' & Hf & _).
    exists s'. split; [exact E|].
    rewrite Hs', Ht, marks_app, stream_prompts_app.
    change (marks (EvGameCall false :: evs)) with (marks evs).
    change (stream_prompts (EvGameCall false :: evs)) with (stream_prompts evs).
    rewrite (marks_game_events _ Hf), (stream_prompts_game_events _ Hf).
    now rewrite Nat.add_0_r, app_nil_r. }
  unfold chat_turn. rewrite He. rewrite run_active_history.
  destruct (accepts_invite user_msg (cur_history env s)) eqn:Ea.
  - rewrite run_when_true, run_assoc, run_modify, run_assoc.
    destruct (Fin (set_in_password_game true (heal env s))) as (s' & E & H).
    { now rewrite trace_set_in_game, trace_heal. }
    exists s'. split; [|exact H].
    rewrite (bind_rerun _ _ _ _ _ E). reflexivity.
  - rewrite run_when_false, run_gets, in_game_heal.
    simpl in Hp. apply negb_false_iff in Hp. rewrite Hp.
    rewrite run_when_true, run_assoc.
    destruct (Fin (heal env s)) as (s' & E & H); [apply trace_heal|].
    exists s'. split; [|exact H].
    rewrite (bind_rerun _ _ _ _ _ E). reflexivity.
Qed.

(* ------------------------------------------------------------------ *)
(** ** Off-topic marking in a turn *)

Lemma cur_name_healed env s a c :
  active_id s = Some a -> Dict.get a (convos s) = Some c ->
  cur_name env s = Some (name c).
Proof.
  intros Ha Hc.
  unfold cur_name, active_session, bind, gets, when, lookup_active,
    active_id_missing, Dict.mem.
  rewrite Ha, Hc. simpl. rewrite Ha, Hc. reflexivity.
Qed.

Lemma cur_name_heal env s : cur_name env (heal env s) = cur_name env s.
Proof.
  destruct (heal_spec env s) as (a & c & E & Ha & Hc).
  rewrite (cur_name_healed env _ a c Ha Hc).
  unfold cur_name. now rewrite E.
Qed.

Lemma cur_name_push env role msg s :
  cur_name env (push_msg role msg (heal env s)) = cur_name env s.
Proof.
  destruct (heal_spec env s) as (a & c & E & Ha & Hc).
  rewrite <- (cur_name_heal env s).
  rewrite (cur_name_healed env (heal env s) a c Ha Hc).
  unfold push_msg. rewrite Ha, Hc.
  erewrite cur_name_healed; [| simpl; exact Ha | simpl; apply dict_get_set_same].
  reflexivity.
Qed.

Lemma cur_name_ext env s1 s2 :
  convos s1 = convos s2 -> active_id s1 = active_id s2 ->
  cur_name env s1 = cur_name env s2.
Proof.
  destruct s1 as [d1 a1 g1 st1 p1 n1 m1 t1], s2 as [d2 a2 g2 st2 p2 n2 m2 t2].
  simpl. intros -> ->.
  unfold cur_name, active_session, bind, gets, when,
    lookup_active, active_id_missing, Dict.mem. simpl.
  destruct a2 as [a|].
  - destruct (Dict.get a d2) eqn:Eg; simpl.
    + now rewrite Eg.
    + destruct d2 as [|[k v] d]; simpl; now rewrite !String.eqb_refl.
  - destruct d2 as [|[k v] d]; simpl; now rewrite !String.eqb_refl.
Qed.

Lemma cur_name_add_event env e s : cur_name env (add_event e s) = cur_name env s.
Proof. now apply cur_name_ext. Qed.
Lemma cur_name_set_step env n s :
  cur_name env (set_password_game_step n s) = cur_name env s.
Proof. now apply cur_name_ext. Qed.
Lemma cur_name_set_user_password env p s :
  cur_name env (set_user_password p s) = cur_name env s.
Proof. now apply cur_name_ext. Qed.
Lemma cur_name_set_in_game env b s :
  cur_name env (set_in_password_game b s) = cur_name env s.
Proof. now apply cur_name_ext. Qed.
Lemma cur_name_set_password_count env n s :
  cur_name env (set_password_question_count n s) = cur_name env s.
Proof. now apply cur_name_ext. Qed.
Lemma cur_name_set_phishing_count env n s :
  cur_name env (set_phishing_question_count n s) = cur_name env s.
Proof. now apply cur_name_ext. Qed.

Create Rewrite HintDb read_name.
#[local] Hint Rewrite cur_name_add_event cur_name_set_step
  cur_name_set_user_password cur_name_set_in_game cur_name_set_password_count
  cur_name_set_phishing_count cur_name_push cur_name_heal : read_name.






(* ------------------------------------------------------------------ *)
(** ** The password-game trigger over three turns *)

Lemma existsb_In {A} (f : A -> bool) x l :
  In x l -> f x = true -> existsb f l = true.
Proof. intros Hx Hf. apply existsb_exists. now exists x. Qed.

Lemma password_is_topic : In "password" CYBER_TOPICS.
Proof.
  apply (proj1 (str_in_spec "password" CYBER_TOPICS)). reflexivity.
Qed.

(** What follows for the turn from a plain password question. *)
Lemma plain_password_question_turn env s user_msg :
  plain_password_question user_msg ->
  is_empty user_msg = false /\
  accepts_invite user_msg (cur_history env s) = false /\
  guardrails_or_offtopic user_msg (cur_history env s) = None /\
  (forall n coin,
     trigger_game user_msg n coin = ((3 <=? n)%Z || ((n =? 2)%Z && coin))) /\
  (forall n, bumped "password" user_msg n = (n + 1)%Z).
Proof.
  intros (Hc & Hi & Hb). repeat split.
  - apply (contains_nonempty "password"); [discriminate|exact Hc].
  - now rewrite (contains_password_not_yes _ Hc).
  - unfold guardrails_or_offtopic. rewrite Hb.
    destruct (Nat.ltb 0 (length (cur_history env s))); [reflexivity|].
    unfold on_topic.
    rewrite (existsb_In _ "password" _ password_is_topic Hc). reflexivity.
  - intros n coin. unfold trigger_game. rewrite Hc, Hi. reflexivity.
  - intros n. unfold bumped. now rewrite Hc.
Qed.

(** The history does not depend on which id a new chat would get. *)
Lemma cur_history_env env env' s : cur_history env s = cur_history env' s.
Proof.
  destruct s as [d a g st p n m t].
  unfold cur_history, active_history, active_session, bind, gets, when,
    lookup_active, active_id_missing, Dict.mem. simpl.
  destruct a as [a|].
  - destruct (Dict.get a d) eqn:Eg; simpl.
    + now rewrite Eg.
    + destruct d as [|[k v] d]; simpl; now rewrite !String.eqb_refl.
  - destruct d as [|[k v] d]; simpl; now rewrite !String.eqb_refl.
Qed.

(** One plain password question, from a counter [n] outside the game. *)
Lemma password_question_turn env s user_msg :
  plain_password_question user_msg ->
  in_password_game s = false ->
  let n := (password_question_count s + 1)%Z in
  let fire := ((3 <=? n)%Z || ((n =? 2)%Z && coin_password env)) in
  exists s' b,
    chat_turn user_msg env s = (Rerun, s') /\
    cur_history env s' =
      (cur_history env s ++
       [("user", user_msg);
        ("assistant",
         reply_of env user_msg (cur_history env s ++ [("user", user_msg)]))] ++
       fired fire game_msg ++ fired b quiz_msg)%list /\
    password_question_count s' = (if fire then 0 else n)%Z /\
    in_password_game s' = false.
Proof.
  intros Hq Hg. cbv zeta.
  destruct (plain_password_question_turn env s user_msg Hq)
    as (He & Ha & Hr & Ht & Hb).
  destruct (allowed_turn env s user_msg He Ha Hg Hr)
    as (s' & E & Hh & Hc & _ & Hg' & _).
  rewrite Hb, Ht in Hh, Hc.
  exists s'. eexists. split; [exact E|]. split; [|split; assumption].
  rewrite Hh. rewrite <- app_assoc. reflexivity.
Qed.

(** C5 (as the code has it). From a counter of 0 outside the game, three
    turns of plain password questions: the first never brings the invite;
    the second brings it exactly when its coin comes up heads, and then the
    third does not and leaves the counter at 1; otherwise the third brings
    it and leaves the counter at 0. *)
Theorem invite_on_second_or_third_password_turn
    env1 env2 env3 s0 m1 m2 m3 :
  password_question_count s0 = 0%Z ->
  in_password_game s0 = false ->
  plain_password_question m1 ->
  plain_password_question m2 ->
  plain_password_question m3 ->
  let heads := coin_password env2 in
  exists s1 s2 s3 b1 b2 b3,
    chat_turn m1 env1 s0 = (Rerun, s1) /\
    chat_turn m2 env2 s1 = (Rerun, s2) /\
    chat_turn m3 env3 s2 = (Rerun, s3) /\
    cur_history env1 s1 =
      (cur_history env1 s0 ++
       [("user", m1);
        ("assistant", reply_of env1 m1 (cur_history env1 s0 ++ [("user", m1)]))] ++
       fired b1 quiz_msg)%list /\
    cur_history env2 s2 =
      (cur_history env2 s1 ++
       [("user", m2);
        ("assistant", reply_of env2 m2 (cur_history env2 s1 ++ [("user", m2)]))] ++
       fired heads game_msg ++ fired b2 quiz_msg)%list /\
    cur_history env3 s3 =
      (cur_history env3 s2 ++
       [("user", m3);
        ("assistant", reply_of env3 m3 (cur_history env3 s2 ++ [("user", m3)]))] ++
       fired (negb heads) game_msg ++ fired b3 quiz_msg)%list /\
    password_question_count s3 = (if heads then 1 else 0)%Z.
Proof.
  intros H0 Hg0 Q1 Q2 Q3. cbv zeta.
  destruct (password_question_turn env1 s0 m1 Q1 Hg0) as (s1 & b1 & E1 & Hh1 & Hc1 & Hg1).
  rewrite H0 in Hh1, Hc1. simpl in Hh1, Hc1.
  destruct (password_question_turn env2 s1 m2 Q2 Hg1) as (s2 & b2 & E2 & Hh2 & Hc2 & Hg2).
  rewrite Hc1 in Hh2, Hc2. simpl in Hh2, Hc2.
  destruct (password_question_turn env3 s2 m3 Q3 Hg2) as (s3 & b3 & E3 & Hh3 & Hc3 & _).
  rewrite Hc2 in Hh3, Hc3.
  exists s1, s2, s3, b1, b2, b3.
  repeat split; try assumption.
  - destruct (coin_password env2); exact Hh3.
  - destruct (coin_password env2); exact Hc3.
Qed.

Lemma plain_password_question_example : plain_password_question "what is a password".
Proof. repeat split. Qed.

Lemma invite_on_second_or_third_password_turn_witness :
  password_question_count fresh_session = 0%Z /\
  in_password_game fresh_session = false /\
  plain_password_question "what is a password" /\
  exists s1 s2 s3 b1 b2 b3,
    chat_turn "what is a password" env_tails fresh_session = (Rerun, s1) /\
    chat_turn "what is a password" env_heads s1 = (Rerun, s2) /\
    chat_turn "what is a password" env_tails s2 = (Rerun, s3) /\
    cur_history env_tails s1 =
      (cur_history env_tails fresh_session ++
       [("user", "what is a password");
        ("assistant",
         reply_of env_tails "what is a password"
           (cur_history env_tails fresh_session ++ [("user", "what is a password")]))] ++
       fired b1 quiz_msg)%list /\
    cur_history env_heads s2 =
      (cur_history env_heads s1 ++
       [("user", "what is a password");
        ("assistant",
         reply_of env_heads "what is a password"
           (cur_history env_heads s1 ++ [("user", "what is a password")]))] ++
       fired (coin_password env_heads) game_msg ++ fired b2 quiz_msg)%list /\
    cur_history env_tails s3 =
      (cur_history env_tails s2 ++
       [("user", "what is a password");
        ("assistant",
         reply_of env_tails "what is a password"
           (cur_history env_tails s2 ++ [("user", "what is a password")]))] ++
       fired (negb (coin_password env_heads)) game_msg ++ fired b3 quiz_msg)%list /\
    password_question_count s3 = (if coin_password env_heads then 1 else 0)%Z.
Proof.
  split; [reflexivity|]. split; [reflexivity|].
  split; [exact plain_password_question_example|].
  apply (invite_on_second_or_third_password_turn env_tails env_heads env_tails
           fresh_session "what is a password" "what is a password"
           "what is a password");
    try reflexivity; exact plain_password_question_example.
Defined.

(** C5 as stated fails: when the coin of the second turn comes up heads the
    invite is appended on the second turn, not on the third, and the counter
    is 1 after the third. *)
Lemma invite_on_second_turn_when_heads :
  let s1 := snd (chat_turn "what is a password" env_tails fresh_session) in
  let s2 := snd (chat_turn "what is a password" env_heads s1) in
  let s3 := snd (chat_turn "what is a password" env_tails s2) in
  last_n 1 (cur_history env_heads s2) = [("assistant", game_msg)] /\
  ~ In ("assistant", game_msg) (last_n 2 (cur_history env_tails s3)) /\
  password_question_count s3 = 1%Z /\
  password_question_count s3 <> 0%Z.
Proof.
  vm_compute. repeat split; try discriminate.
  intros [H|[H|[]]]; discriminate.
Qed.

(* ------------------------------------------------------------------ *)
(** ** The prompt of a model turn *)

Lemma last_n_snoc {A} n (l : list A) x :
  last_n (S n) (l ++ [x]) = (last_n n l ++ [x])%list.
Proof.
  unfold last_n. rewrite length_app. simpl.
  replace (length l + 1 - S n) with (length l - n) by lia.
  rewrite skipn_app.
  replace (length l - n - length l) with 0 by lia. reflexivity.
Qed.

(** [build_prompt] on a history that already ends with the new message:
    seven earlier turns, then the new message twice. *)
Lemma build_prompt_after_append si user_msg h :
  build_prompt si user_msg (h ++ [("user", user_msg)]) =
  join nl (("System: " ++ si) ::
           app (map prompt_line (last_n 7 h))
               ["User: " ++ user_msg; "User: " ++ user_msg; "Tutor:"]).
Proof.
  unfold build_prompt. rewrite last_n_snoc, map_app. simpl.
  rewrite <- !app_assoc. reflexivity.
Qed.

(** C8 (what the code does). In a model turn the backend receives the
    system line, the last seven turns of the history as it stood before the
    new message, the new user line twice, and the closing tutor line:
    the new message is stored before the prompt is built. *)
Theorem prompt_holds_new_message_twice env s user_msg c :
  client env = Some c ->
  is_empty user_msg = false ->
  plain_turn env s user_msg = true ->
  guardrails_or_offtopic user_msg (cur_history env s) = None ->
  exists s',
    chat_turn user_msg env s = (Rerun, s') /\
    stream_prompts (trace s') =
      app (stream_prompts (trace s))
        [join nl (("System: " ++ SYSTEM_INSTRUCTION) ::
                  app (map prompt_line (last_n 7 (cur_history env s)))
                      ["User: " ++ user_msg; "User: " ++ user_msg; "Tutor:"])].
Proof.
  intros Ec He Hp Hr. unfold plain_turn in Hp.
  apply andb_true_iff in Hp as [Ha Hg]. apply negb_true_iff in Ha, Hg.
  destruct (allowed_turn env s user_msg He Ha Hg Hr)
    as (s' & E & _ & _ & _ & _ & Hs & _).
  exists s'. split; [exact E|].
  rewrite Hs. unfold prompts_of. rewrite Ec.
  now rewrite build_prompt_after_append.
Qed.

Lemma prompt_holds_new_message_twice_witness :
  client env_tails = Some echo_client /\
  is_empty "what is 2fa" = false /\
  plain_turn env_tails fresh_session "what is 2fa" = true /\
  guardrails_or_offtopic "what is 2fa" (cur_history env_tails fresh_session) = None /\
  exists s',
    chat_turn "what is 2fa" env_tails fresh_session = (Rerun, s') /\
    stream_prompts (trace s') =
      app (stream_prompts (trace fresh_session))
        [join nl (("System: " ++ SYSTEM_INSTRUCTION) ::
                  app (map prompt_line (last_n 7 (cur_history env_tails fresh_session)))
                      ["User: what is 2fa"; "User: what is 2fa"; "Tutor:"])].
Proof.
  repeat (split; [reflexivity|]).
  apply (prompt_holds_new_message_twice env_tails fresh_session "what is 2fa"
           echo_client); reflexivity.
Defined.

(* ------------------------------------------------------------------ *)
(** ** The fallback title *)

Lemma title_from_length b s : String.length (title_from b s) = String.length s.
Proof.
  revert b. induction s as [|c s IH]; intros b; simpl; [reflexivity|].
  destruct (is_alpha c); simpl; now rewrite IH.
Qed.

Lemma title_from_space b a r :
  title_from b (a ++ " " ++ r) = title_from b a ++ " " ++ title_from false r.
Proof.
  revert b. induction a as [|c a IH]; intros b; simpl; [reflexivity|].
  destruct (is_alpha c); simpl; now rewrite IH.
Qed.

Lemma concat_cons2 sep w w' ws :
  String.concat sep (w :: w' :: ws) = w ++ sep ++ String.concat sep (w' :: ws).
Proof. reflexivity. Qed.

(** Title-casing the joined words is title-casing each word and joining. *)
Lemma title_join ws : title (join " " ws) = join " " (map title ws).
Proof.
  unfold join. induction ws as [|w ws IH]; [reflexivity|].
  destruct ws as [|w' ws]; [reflexivity|].
  change (map title (w :: w' :: ws)) with (title w :: title w' :: map title ws).
  change (map title (w' :: ws)) with (title w' :: map title ws) in IH.
  rewrite !concat_cons2. unfold title at 1. rewrite title_from_space.
  fold (title w). fold (title (String.concat " " (w' :: ws))).
  now rewrite IH.
Qed.

Lemma is_empty_append a b : is_empty a = false -> is_empty (a ++ b) = false.
Proof. destruct a; [discriminate|reflexivity]. Qed.

Lemma split_from_nonempty acc s :
  Forall (fun w => is_empty w = false) (split_from acc s).
Proof.
  revert acc. induction s as [|c s IH]; intros acc; simpl.
  - destruct (is_empty acc) eqn:E; auto.
  - destruct (is_space c).
    + destruct (is_empty acc) eqn:E; auto.
    + apply IH.
Qed.

Lemma is_empty_title s : is_empty (title s) = is_empty s.
Proof.
  destruct s as [|c s]; [reflexivity|]. unfold title. simpl.
  now destruct (is_alpha c).
Qed.

Lemma is_empty_join_nonempty w ws :
  is_empty w = false -> is_empty (join " " (w :: ws)) = false.
Proof.
  intros H. unfold join. destruct ws; simpl; [exact H|].
  now apply is_empty_append.
Qed.

Lemma In_firstn {A} n (l : list A) x : In x (firstn n l) -> In x l.
Proof.
  intros H. rewrite <- (firstn_skipn n l). apply in_or_app. now left.
Qed.

(** [_clean_title] computes the title that the specification words. *)
Lemma clean_title_spec msgs :
  take 40 (_clean_title (join " " (firstn 2 msgs))) = spec_fallback_title msgs.
Proof.
  unfold _clean_title, spec_fallback_title, spec_title_words.
  set (text := filter_chars title_char (lower (join " " (firstn 2 msgs)))).
  assert (Hne : Forall (fun w => is_empty w = false)
                  (firstn 6 (filter (fun w => negb (str_in w _STOPWORDS))
                                    (split text)))).
  { apply Forall_forall. intros w Hw. apply In_firstn in Hw.
    apply filter_In in Hw as [Hw _].
    pose proof (split_from_nonempty EmptyString text) as F.
    rewrite Forall_forall in F. now apply F. }
  destruct (firstn 6 (filter (fun w => negb (str_in w _STOPWORDS)) (split text)))
    as [|w ws] eqn:E.
  - reflexivity.
  - inversion Hne as [|? ? Hw _]; subst.
    rewrite is_empty_title, (is_empty_join_nonempty w ws Hw).
    now rewrite title_join.
Qed.

Lemma length_take n s : String.length (take n s) <= n.
Proof.
  unfold take. revert s. induction n as [|n IH]; intros s; simpl.
  - destruct s; simpl; lia.
  - destruct s; simpl; [lia|]. specialize (IH s). lia.
Qed.

Lemma length_lstrip s : String.length (lstrip s) <= String.length s.
Proof.
  induction s as [|c s IH]; simpl; [lia|].
  destruct (is_space c); simpl; lia.
Qed.

Lemma length_rstrip s : String.length (rstrip s) <= String.length s.
Proof.
  induction s as [|c s IH]; simpl; [lia|].
  destruct (rstrip s); simpl in *; [destruct (is_space c); simpl; lia | lia].
Qed.

Lemma length_strip s : String.length (strip s) <= String.length s.
Proof.
  unfold strip. pose proof (length_rstrip (lstrip s)). pose proof (length_lstrip s). lia.
Qed.

Lemma In_existing_names k d c :
  Dict.get k d = Some c -> In (name c) (existing_names d).
Proof.
  unfold existing_names, Dict.values.
  induction d as [|[k' c'] d IH]; simpl; [discriminate|].
  destruct (String.eqb k k'); [intros H; inversion H; auto | auto].
Qed.

Lemma name_of_rename sid n s c :
  Dict.get sid (convos s) = Some c ->
  name_of sid (set_convos (rename_in sid n (convos s)) s) = Some n.
Proof.
  intros H. unfold name_of, rename_in. simpl. rewrite H.
  now rewrite dict_get_set_same.
Qed.

Lemma get_rename_other sid n d k :
  k <> sid -> Dict.get k (rename_in sid n d) = Dict.get k d.
Proof.
  intros N. unfold rename_in. destruct (Dict.get sid d); [|reflexivity].
  now apply dict_get_set_other.
Qed.

(** What [set_title_from_msgs] does without a backend, on a conversation that
    still has a default name. *)
Lemma set_title_fallback_run env s sid c msgs :
  client env = None -> msgs <> [] ->
  Dict.get sid (convos s) = Some c -> is_default_name (name c) = true ->
  exists final,
    _ensure_unique_name (strip (spec_fallback_title msgs)) (convos s) = Some final /\
    set_title_from_msgs sid msgs env s =
      (Ret tt, set_convos (rename_in sid final (convos s)) s).
Proof.
  intros Ec Hm Hc Hd. unfold set_title_from_msgs.
  destruct msgs as [|m ms]; [congruence|].
  rewrite (run_lookup _ env s sid c Hc). rewrite Hd. cbn [negb].
  unfold model_title. rewrite run_assoc, run_ask, Ec, run_ret.
  rewrite clean_title_spec.
  destruct (run_ensure_unique_name (fun u => set_name sid u) env s
              (strip (spec_fallback_title (m :: ms)))) as (r & Er & E).
  exists r. split; [exact Er|]. rewrite E. reflexivity.
Qed.

(** C9 (as the code has it). Without a backend, on a conversation with a
    default name and a non-empty list of ASCII messages, the new name is built
    from the fallback title (lowercased, stripped of punctuation other than
    hyphens and underscores, stop words dropped, six words kept, title-cased
    and joined, or the placeholder), cut at 40 characters and trimmed. It is
    that candidate when no conversation of the set, the one being titled
    included, has it as its name; otherwise it is the candidate with the
    first number from 2 that gives a free name. Either way no conversation
    had the new name, so it is unique in the set. *)
Theorem fallback_title_unique_among_all_names env s sid c msgs :
  client env = None -> msgs <> [] ->
  Forall (fun m => is_ascii m = true) msgs ->
  Dict.get sid (convos s) = Some c -> is_default_name (name c) = true ->
  let candidate := strip (spec_fallback_title msgs) in
  let names := existing_names (convos s) in
  exists final s',
    set_title_from_msgs sid msgs env s = (Ret tt, s') /\
    name_of sid s' = Some final /\
    String.length candidate <= 40 /\
    ((~ In candidate names /\ final = candidate) \/
     (In candidate names /\
      exists k, 2 <= k /\ final = numbered candidate k /\
                forall m, 2 <= m < k -> In (numbered candidate m) names)) /\
    (forall k c', k <> sid -> Dict.get k (convos s') = Some c' ->
                  name c' <> final /\ Dict.get k (convos s) = Some c').
Proof.
  intros Ec Hm _ Hc Hd. cbv zeta.
  destruct (set_title_fallback_run env s sid c msgs Ec Hm Hc Hd) as (r & Er & E).
  destruct (ensure_unique_name_total (strip (spec_fallback_title msgs)) (convos s))
    as (r' & Er' & Hfree & Hcase).
  rewrite Er in Er'. inversion Er'; subst r'.
  exists r. eexists. split; [exact E|].
  split; [now apply name_of_rename with (c := c)|].
  split.
  { pose proof (length_strip (spec_fallback_title msgs)).
    pose proof (length_take 40
      (match spec_title_words msgs with
       | [] => "Chat"
       | _ :: _ => join " " (map title (spec_title_words msgs))
       end)).
    unfold spec_fallback_title in *.
    destruct (spec_title_words msgs); lia. }
  split; [exact Hcase|].
  intros k c' Hk Hg. simpl in Hg. rewrite (get_rename_other _ _ _ _ Hk) in Hg.
  split; [|exact Hg].
  intros Heq. apply Hfree. rewrite <- Heq. now apply In_existing_names with (k := k).
Qed.

Lemma fallback_title_unique_among_all_names_witness :
  client env0 = None /\
  ["how do I spot phishing emails"; "is this link safe"] <> [] /\
  Forall (fun m => is_ascii m = true)
    ["how do I spot phishing emails"; "is this link safe"] /\
  Dict.get "c1" (convos fresh_session) = Some (_new_session "New Chat") /\
  is_default_name (name (_new_session "New Chat")) = true /\
  exists final s',
    set_title_from_msgs "c1"
      ["how do I spot phishing emails"; "is this link safe"] env0 fresh_session
      = (Ret tt, s') /\
    name_of "c1" s' = Some final /\
    String.length
      (strip (spec_fallback_title
                ["how do I spot phishing emails"; "is this link safe"])) <= 40 /\
    ((~ In (strip (spec_fallback_title
                     ["how do I spot phishing emails"; "is this link safe"]))
           (existing_names (convos fresh_session)) /\
      final = strip (spec_fallback_title
                       ["how do I spot phishing emails"; "is this link safe"])) \/
     (In (strip (spec_fallback_title
                   ["how do I spot phishing emails"; "is this link safe"]))
         (existing_names (convos fresh_session)) /\
      exists k, 2 <= k /\
        final = numbered
                  (strip (spec_fallback_title
                            ["how do I spot phishing emails"; "is this link safe"])) k /\
        forall m, 2 <= m < k ->
          In (numbered
                (strip (spec_fallback_title
                          ["how do I spot phishing emails"; "is this link safe"])) m)
             (existing_names (convos fresh_session)))) /\
    (forall k c', k <> "c1" -> Dict.get k (convos s') = Some c' ->
                  name c' <> final /\ Dict.get k (convos fresh_session) = Some c').
Proof.
  assert (A : Forall (fun m => is_ascii m = true)
                ["how do I spot phishing emails"; "is this link safe"])
    by (repeat constructor).
  split; [reflexivity|]. split; [discriminate|]. split; [exact A|].
  split; [reflexivity|]. split; [reflexivity|].
  apply (fallback_title_unique_among_all_names env0 fresh_session "c1"
           (_new_session "New Chat")
           ["how do I spot phishing emails"; "is this link safe"]);
    try reflexivity; [discriminate|exact A].
Defined.

Example fallback_title_example :
  name_of "c1"
    (snd (set_title_from_msgs "c1"
            ["how do I spot phishing emails"; "is this link safe"]
            env0 fresh_session))
  = Some "I Spot Phishing Emails Link Safe".
Proof. reflexivity. Qed.

(** C9 as stated fails: the candidate is numbered although no other
    conversation has it as its name; the conversation being titled is
    itself one of the names checked. *)
Lemma own_name_counts_as_collision :
  strip (spec_fallback_title ["new chat"]) = "New Chat" /\
  other_names "c1" (convos fresh_session) = [] /\
  spec_unique_title "c1" (convos fresh_session)
    (strip (spec_fallback_title ["new chat"])) = Some "New Chat" /\
  name_of "c1" (snd (set_title_from_msgs "c1" ["new chat"] env0 fresh_session))
    = Some "New Chat (2)" /\
  name_of "c1" (snd (set_title_from_msgs "c1" ["new chat"] env0 fresh_session))
    <> spec_unique_title "c1" (convos fresh_session)
         (strip (spec_fallback_title ["new chat"])).
Proof. vm_compute. repeat split. discriminate. Qed.

(* ------------------------------------------------------------------ *)
(** ** Marking twice *)

(** C6, at the input where the code departs from it: when the suffixed name
    is taken, the first marking numbers it after the suffix, so the name no
    longer ends with the suffix and the second marking appends it again. *)
Theorem mark_offtopic_twice_appends_twice :
  let s1 := snd (mark_offtopic "c1" env0 clash_session) in
  let s2 := snd (mark_offtopic "c1" env0 s1) in
  fst (mark_offtopic "c1" env0 clash_session) = Ret tt /\
  fst (mark_offtopic "c1" env0 s1) = Ret tt /\
  name_of "c1" s1 = Some "Weather Today (Not Cybersecurity Related) (2)" /\
  name_of "c1" s2 =
    Some "Weather Today (Not Cybersecurity Related) (2) (Not Cybersecurity Related)" /\
  name_of "c1" s2 <> name_of "c1" s1.
Proof. vm_compute. repeat split. discriminate. Qed.

(* ------------------------------------------------------------------ *)
(** ** Further properties: the password game *)

Lemma get_step_set_password_count n s :
  get_step (set_password_question_count n s) = get_step s.
Proof. reflexivity. Qed.

#[local] Hint Rewrite get_step_set_password_count : session.

Create Rewrite HintDb read_step.
Create Rewrite HintDb read_user_password.
#[local] Hint Rewrite get_step_heal get_step_push get_step_add_event
  get_step_set_user_password get_step_set_in_game get_step_set_step
  get_step_set_password_count : read_step.
#[local] Hint Rewrite user_password_heal user_password_push
  user_password_set_in_game user_password_set_step
  user_password_set_user_password user_password_set_password_count
  user_password_set_phishing_count user_password_add_event
  : read_user_password.

(** The readings of a session reached by running code, as equations. *)
Ltac read_all e s4 :=
  let Q1 := fresh "Qh" in
  eassert (Q1 : cur_history e s4 = _)
    by (autorewrite with read_history; rewrite ?app_cons_assoc; cbn [app];
        reflexivity);
  let Q2 := fresh "Qp" in
  eassert (Q2 : password_question_count s4 = _)
    by (autorewrite with read_password_count; reflexivity);
  let Q3 := fresh "Qf" in
  eassert (Q3 : phishing_question_count s4 = _)
    by (autorewrite with read_phishing_count; reflexivity);
  let Q4 := fresh "Qg" in
  eassert (Q4 : in_password_game s4 = _)
    by (autorewrite with read_in_game; reflexivity);
  let Q5 := fresh "Qt" in
  eassert (Q5 : trace s4 = _)
    by (autorewrite with read_trace; rewrite ?app_cons_assoc; cbn [app];
        reflexivity);
  let Q6 := fresh "Qs" in
  eassert (Q6 : get_step s4 = _)
    by (autorewrite with read_step; reflexivity);
  let Q7 := fresh "Qu" in
  eassert (Q7 : user_password s4 = _)
    by (autorewrite with read_user_password; reflexivity);
  let x := fresh "s4" in
  generalize dependent s4; intros x.

(** Everything one external call of the game does, for a step in range. *)
Lemma game_call_summary env s user_msg :
  (0 <= get_step s <= 4)%Z ->
  exists s',
    handle_password_game user_msg false env s = (Rerun, s') /\
    (0 <= get_step s' <= 4)%Z /\
    (get_step s <= get_step s' \/ get_step s' = 0)%Z /\
    (exists replies evs,
       cur_history env s' =
         (cur_history env s ++ ("user", user_msg) :: replies)%list /\
       trace s' = (trace s ++ EvGameCall false :: evs)%list /\
       Forall (fun rm => fst rm = "assistant") replies /\
       length replies = S (length evs)) /\
    ((in_password_game s' = in_password_game s /\
      password_question_count s' = password_question_count s) \/
     (has_uppercase user_msg && has_number user_msg && has_symbol user_msg = true /\
      (1 <= get_step s)%Z /\
      in_password_game s' = false /\ password_question_count s' = 0%Z /\
      get_step s' = 0%Z)) /\
    phishing_question_count s' = phishing_question_count s /\
    ((1 <= get_step s)%Z -> user_password s' = Some user_msg).
Proof.
  intros Hrange.
  destruct (has_uppercase user_msg) eqn:Hu, (has_number user_msg) eqn:Hn,
           (has_symbol user_msg) eqn:Hs;
  game_cases s.
  all: try (exfalso;
            repeat match goal with
              | H : (_ =? _)%Z = false |- _ => apply Z.eqb_neq in H
              end; lia).
  all: eassert (E : handle_password_game user_msg false env s = _)
         by (game_run; reflexivity).
  all: repeat match goal with
         | H : (_ =? _)%Z = true |- _ => apply Z.eqb_eq in H
         | H : (_ =? _)%Z = false |- _ => clear H
         end.
  all: match type of E with
       | _ = rerun _ ?s4 => read_all env s4; intros
       end.
  all: eexists; split; [exact E|].
  all: repeat match goal with
         | H : _ = _ |- _ => rewrite H; clear H
         end.
  all: split; [lia|].
  all: split; [first [left; lia | right; reflexivity]|].
  all: split; [do 2 eexists; split; [reflexivity|]; split; [reflexivity|];
               split; [repeat constructor | reflexivity]|].
  all: split; [first [left; split; reflexivity
                     | right; repeat split; try reflexivity; lia]|].
  all: split; [reflexivity|].
  all: first [intros _; reflexivity | intros; lia].
Qed.

(** X1. The step of the game never leaves 0..4: from a step in range, one call
    ends with a step in range that is not smaller, or is the 0 of a finished
    game. *)
Theorem game_step_stays_in_range env s user_msg :
  (0 <= get_step s <= 4)%Z ->
  exists s',
    handle_password_game user_msg false env s = (Rerun, s') /\
    (0 <= get_step s' <= 4)%Z /\
    (get_step s <= get_step s' \/ get_step s' = 0)%Z.
Proof.
  intros H. destruct (game_call_summary env s user_msg H) as (s' & E & R & Mo & _).
  exists s'. auto.
Qed.

Lemma game_step_stays_in_range_witness :
  (0 <= get_step (game_session 3) <= 4)%Z /\
  exists s',
    handle_password_game "abc" false env0 (game_session 3) = (Rerun, s') /\
    (0 <= get_step s' <= 4)%Z /\
    (get_step (game_session 3) <= get_step s' \/ get_step s' = 0)%Z.
Proof.
  assert (H : (0 <= get_step (game_session 3) <= 4)%Z) by (unfold get_step, game_session; simpl; lia).
  split; [exact H|].
  apply (game_step_stays_in_range env0 (game_session 3) "abc" H).
Defined.

(** X2. One external call stores the user's text once, however many times it
    re-enters itself: the history grows by the user's message followed by
    assistant messages only, one for the call and one for each re-entry. *)
Theorem game_stores_user_message_once env s user_msg :
  (0 <= get_step s <= 4)%Z ->
  exists s' replies evs,
    handle_password_game user_msg false env s = (Rerun, s') /\
    cur_history env s' = (cur_history env s ++ ("user", user_msg) :: replies)%list /\
    trace s' = (trace s ++ EvGameCall false :: evs)%list /\
    Forall (fun rm => fst rm = "assistant") replies /\
    length replies = S (length evs).
Proof.
  intros H.
  destruct (game_call_summary env s user_msg H)
    as (s' & E & _ & _ & (replies & evs & Hh & Ht & Hf & Hl) & _).
  exists s', replies, evs. auto.
Qed.

Lemma game_stores_user_message_once_witness :
  (0 <= get_step (game_session 1) <= 4)%Z /\
  exists s' replies evs,
    handle_password_game "Abc1!" false env0 (game_session 1) = (Rerun, s') /\
    cur_history env0 s' =
      (cur_history env0 (game_session 1) ++ ("user", "Abc1!") :: replies)%list /\
    trace s' = (trace (game_session 1) ++ EvGameCall false :: evs)%list /\
    Forall (fun rm => fst rm = "assistant") replies /\
    length replies = S (length evs).
Proof.
  assert (H : (0 <= get_step (game_session 1) <= 4)%Z) by (unfold get_step, game_session; simpl; lia).
  split; [exact H|].
  apply (game_stores_user_message_once env0 (game_session 1) "Abc1!" H).
Defined.

(** X3. Only a victory ends the game: on an ASCII text, a call either
    leaves the active flag and the password counter as they were, or the
    text has an uppercase letter, a digit and a symbol, the step was at
    least 1, and the game is reset. The phishing counter is never touched,
    and from step 1 on the text is recorded as the last attempt. *)
Theorem game_ends_only_on_victory env s user_msg :
  (0 <= get_step s <= 4)%Z ->
  is_ascii user_msg = true ->
  exists s',
    handle_password_game user_msg false env s = (Rerun, s') /\
    ((in_password_game s' = in_password_game s /\
      password_question_count s' = password_question_count s) \/
     (has_uppercase user_msg && has_number user_msg && has_symbol user_msg = true /\
      (1 <= get_step s)%Z /\
      in_password_game s' = false /\ password_question_count s' = 0%Z /\
      get_step s' = 0%Z)) /\
    phishing_question_count s' = phishing_question_count s /\
    ((1 <= get_step s)%Z -> user_password s' = Some user_msg).
Proof.
  intros H _.
  destruct (game_call_summary env s user_msg H)
    as (s' & E & _ & _ & _ & Hv & Hp & Hu).
  exists s'. auto.
Qed.

Lemma game_ends_only_on_victory_witness :
  (0 <= get_step (game_session 2) <= 4)%Z /\
  is_ascii "abc1!" = true /\
  exists s',
    handle_password_game "abc1!" false env0 (game_session 2) = (Rerun, s') /\
    ((in_password_game s' = in_password_game (game_session 2) /\
      password_question_count s' = password_question_count (game_session 2)) \/
     (has_uppercase "abc1!" && has_number "abc1!" && has_symbol "abc1!" = true /\
      (1 <= get_step (game_session 2))%Z /\
      in_password_game s' = false /\ password_question_count s' = 0%Z /\
      get_step s' = 0%Z)) /\
    phishing_question_count s' = phishing_question_count (game_session 2) /\
    ((1 <= get_step (game_session 2))%Z -> user_password s' = Some "abc1!").
Proof.
  assert (H : (0 <= get_step (game_session 2) <= 4)%Z) by (unfold get_step, game_session; simpl; lia).
  split; [exact H|]. split; [reflexivity|].
  apply (game_ends_only_on_victory env0 (game_session 2) "abc1!" H eq_refl).
Defined.

(** The last [n] elements are those of the tail when it is long enough. *)
Lemma last_n_app {A} n (l m : list A) :
  n <= length m -> last_n n (l ++ m) = last_n n m.
Proof.
  intros H. unfold last_n. rewrite length_app, skipn_app.
  rewrite skipn_all2 by lia.
  replace (length l + length m - n - length l) with (length m - n) by lia.
  reflexivity.
Qed.

(** X4. A text with an uppercase letter, a digit and a symbol wins in one call
    from any of the steps 1 to 4: the skip-ahead runs through the remaining
    steps, the last message is the congratulation and the game is reset. *)
Theorem strong_text_wins_in_one_call env s user_msg :
  (1 <= get_step s <= 4)%Z ->
  has_uppercase user_msg = true ->
  has_number user_msg = true ->
  has_symbol user_msg = true ->
  exists s',
    handle_password_game user_msg false env s = (Rerun, s') /\
    in_password_game s' = false /\
    get_step s' = 0%Z /\
    password_question_count s' = 0%Z /\
    last_n 1 (cur_history env s') = [("assistant", success_msg user_msg)].
Proof.
  intros Hrange Hu Hn Hs.
  assert (Hc : (get_step s = 1 \/ get_step s = 2 \/ get_step s = 3 \/
                get_step s = 4)%Z) by lia.
  destruct Hc as [E|[E|[E|E]]].
  all: eassert (R : handle_password_game user_msg false env s = _)
         by (game_run; reflexivity).
  all: match type of R with
       | _ = rerun _ ?s4 => read_all env s4; intros
       end.
  all: eexists; split; [exact R|].
  all: repeat match goal with
         | H : _ = _ |- _ => rewrite H; clear H
         end.
  all: repeat split.
  all: rewrite last_n_app by (simpl; lia); reflexivity.
Qed.

Lemma strong_text_wins_in_one_call_witness :
  (1 <= get_step (game_session 2) <= 4)%Z /\
  has_uppercase "Abc1!" = true /\ has_number "Abc1!" = true /\
  has_symbol "Abc1!" = true /\
  exists s',
    handle_password_game "Abc1!" false env0 (game_session 2) = (Rerun, s') /\
    in_password_game s' = false /\
    get_step s' = 0%Z /\
    password_question_count s' = 0%Z /\
    last_n 1 (cur_history env0 s') = [("assistant", success_msg "Abc1!")].
Proof.
  assert (H : (1 <= get_step (game_session 2) <= 4)%Z)
    by (unfold get_step, game_session; simpl; lia).
  split; [exact H|]. repeat (split; [reflexivity|]).
  apply (strong_text_wins_in_one_call env0 (game_session 2) "Abc1!" H);
    reflexivity.
Defined.

(** X5. Outside the steps 0 to 4 no branch applies: the call stores the user's
    text and reruns, and says and changes nothing else. *)
Theorem game_is_silent_outside_its_steps env s user_msg :
  (get_step s < 0 \/ 4 < get_step s)%Z ->
  exists s',
    handle_password_game user_msg false env s = (Rerun, s') /\
    cur_history env s' = (cur_history env s ++ [("user", user_msg)])%list /\
    get_step s' = get_step s /\
    user_password s' = user_password s /\
    in_password_game s' = in_password_game s /\
    password_question_count s' = password_question_count s.
Proof.
  intros Hout.
  assert (E0 : (get_step s =? 0)%Z = false) by (apply Z.eqb_neq; lia).
  assert (E1 : (get_step s =? 1)%Z = false) by (apply Z.eqb_neq; lia).
  assert (E2 : (get_step s =? 2)%Z = false) by (apply Z.eqb_neq; lia).
  assert (E3 : (get_step s =? 3)%Z = false) by (apply Z.eqb_neq; lia).
  assert (E4 : (get_step s =? 4)%Z = false) by (apply Z.eqb_neq; lia).
  eassert (R : handle_password_game user_msg false env s = _)
    by (game_run; reflexivity).
  match type of R with
  | _ = rerun _ ?s4 => read_all env s4; intros
  end.
  eexists; split; [exact R|].
  repeat split; assumption.
Qed.

Lemma game_is_silent_outside_its_steps_witness :
  (get_step (game_session 7) < 0 \/ 4 < get_step (game_session 7))%Z /\
  exists s',
    handle_password_game "Abc1!" false env0 (game_session 7) = (Rerun, s') /\
    cur_history env0 s' =
      (cur_history env0 (game_session 7) ++ [("user", "Abc1!")])%list /\
    get_step s' = get_step (game_session 7) /\
    user_password s' = user_password (game_session 7) /\
    in_password_game s' = in_password_game (game_session 7) /\
    password_question_count s' = password_question_count (game_session 7).
Proof.
  assert (H : (get_step (game_session 7) < 0 \/ 4 < get_step (game_session 7))%Z)
    by (right; unfold get_step, game_session; simpl; lia).
  split; [exact H|].
  apply (game_is_silent_outside_its_steps env0 (game_session 7) "Abc1!" H).
Defined.

(** The regression message of step 4 names every requirement that the text
    has lost, in the order uppercase letter, number. *)
Example regression_message_names_what_is_lost :
  last_n 1 (cur_history env0
              (snd (handle_password_game "abc!" false env0 (game_session 4))))
    = [("assistant", msg_removed "abc!" "uppercase letter and number")] /\
  last_n 1 (cur_history env0
              (snd (handle_password_game "abc1!" false env0 (game_session 4))))
    = [("assistant", msg_removed "abc1!" "uppercase letter")] /\
  last_n 1 (cur_history env0
              (snd (handle_password_game "Abc!" false env0 (game_session 4))))
    = [("assistant", msg_removed "Abc!" "number")].
Proof. vm_compute. repeat split. Qed.

(* ------------------------------------------------------------------ *)
(** ** Further properties: the guardrail *)

(** X6. The three verdicts on an ASCII text, each with the exact condition
    under which the classifier gives it: the denial exactly for the texts
    with a banned term as a whole word; the off-topic answer exactly for
    openers with neither a banned term nor an on-topic keyword; nothing
    otherwise. *)
Theorem guard_verdicts_are_exact text history :
  is_ascii text = true ->
  let banned := exists term, In term BANNED /\ occurs_as_whole_word term text in
  let topical := exists k, In k CYBER_TOPICS /\ is_substring k (lower text) in
  (guardrails_or_offtopic text history = Some DENY_MESSAGE <-> banned) /\
  (guardrails_or_offtopic text history = Some OFFTOPIC_MESSAGE <->
   ~ banned /\ history = [] /\ ~ topical) /\
  (guardrails_or_offtopic text history = None <->
   ~ banned /\ (history <> [] \/ topical)).
Proof.
  intros _. cbv zeta. unfold guardrails_or_offtopic.
  pose proof (banned_hit_spec text) as Hb.
  pose proof (on_topic_spec (lower text)) as Ht.
  assert (Hd : DENY_MESSAGE <> OFFTOPIC_MESSAGE) by discriminate.
  destruct (banned_hit (lower text)).
  - assert (B : exists term, In term BANNED /\ occurs_as_whole_word term text)
      by now apply Hb.
    repeat split; intros; try tauto; try discriminate; try congruence.
    all: match goal with H : Some _ = Some _ |- _ => inversion H; congruence end.
  - assert (B : ~ exists term, In term BANNED /\ occurs_as_whole_word term text).
    { intros H. apply Hb in H. discriminate. }
    destruct history as [|m h]; simpl.
    + destruct (on_topic (lower text)); simpl.
      * assert (T : exists k, In k CYBER_TOPICS /\ is_substring k (lower text))
          by now apply Ht.
        repeat split; intros; try tauto; try discriminate; try congruence.
      * assert (T : ~ exists k, In k CYBER_TOPICS /\ is_substring k (lower text)).
        { intros H. apply Ht in H. discriminate. }
        repeat split; intros; try tauto; try discriminate; try congruence.
        all: try match goal with
                 | H : Some _ = Some _ |- _ => inversion H; congruence
                 end.
        all: intuition congruence.
    + repeat split; intros; try tauto; try discriminate; try congruence.
      all: try (left; discriminate).
      all: intuition discriminate.
Qed.

Lemma guard_verdicts_are_exact_witness :
  let text := "Is my Wi-Fi router safe?" in
  let history := @nil Message in
  let banned := exists term, In term BANNED /\ occurs_as_whole_word term text in
  let topical := exists k, In k CYBER_TOPICS /\ is_substring k (lower text) in
  is_ascii text = true /\
  (guardrails_or_offtopic text history = Some DENY_MESSAGE <-> banned) /\
  (guardrails_or_offtopic text history = Some OFFTOPIC_MESSAGE <->
   ~ banned /\ history = [] /\ ~ topical) /\
  (guardrails_or_offtopic text history = None <->
   ~ banned /\ (history <> [] \/ topical)).
Proof.
  split; [reflexivity|].
  apply (guard_verdicts_are_exact "Is my Wi-Fi router safe?" [] eq_refl).
Defined.

(* ------------------------------------------------------------------ *)
(** ** Further properties: names and titles *)

Lemma lstrip_nonspace_head x :
  starts_with_space x = false -> lstrip x = x.
Proof.
  unfold starts_with_space. destruct x as [|c x]; simpl; [reflexivity|].
  now intros ->.
Qed.

Lemma lstrip_starts x : starts_with_space (lstrip x) = false.
Proof.
  unfold starts_with_space. induction x as [|c x IH]; simpl; [reflexivity|].
  destruct (is_space c) eqn:E; [exact IH|]. simpl. exact E.
Qed.

Lemma rstrip_ends x : ends_with_space (rstrip x) = false.
Proof.
  unfold ends_with_space. induction x as [|c x IH]; simpl; [reflexivity|].
  destruct (rstrip x) as [|d r] eqn:E.
  - destruct (is_space c) eqn:Ec; simpl; [reflexivity|exact Ec].
  - exact IH.
Qed.

Lemma rstrip_head x c :
  head x = Some c -> is_space c = false -> head (rstrip x) = Some c.
Proof.
  destruct x as [|d x]; simpl; [discriminate|].
  intros H Hc. inversion H; subst d.
  destruct (rstrip x); [now rewrite Hc|reflexivity].
Qed.

Lemma rstrip_starts x : starts_with_space x = false -> starts_with_space (rstrip x) = false.
Proof.
  unfold starts_with_space. destruct x as [|c x]; simpl; [reflexivity|].
  intros Hc. destruct (rstrip x); [now rewrite Hc|exact Hc].
Qed.

Lemma rstrip_idem x : rstrip (rstrip x) = rstrip x.
Proof.
  induction x as [|c x IH]; simpl; [reflexivity|].
  destruct (rstrip x) as [|d r] eqn:E.
  - destruct (is_space c) eqn:Ec; simpl; [reflexivity|now rewrite Ec].
  - simpl in *. now rewrite IH.
Qed.

(** [strip] leaves no whitespace at either end, and stripping again changes
    nothing. *)
Lemma strip_trimmed x :
  starts_with_space (strip x) = false /\ ends_with_space (strip x) = false /\
  strip (strip x) = strip x.
Proof.
  unfold strip. repeat split.
  - apply rstrip_starts, lstrip_starts.
  - apply rstrip_ends.
  - rewrite (lstrip_nonspace_head (rstrip (lstrip x))).
    + apply rstrip_idem.
    + apply rstrip_starts, lstrip_starts.
Qed.

Lemma head_take n x : head (take (S n) x) = head x.
Proof. unfold take. now destruct x. Qed.

Lemma upper_char_not_space c : is_alpha c = true -> is_space (upper_char c) = false.
Proof. destruct c as [[] [] [] [] [] [] [] []]; intros H; try reflexivity; discriminate. Qed.

Lemma alpha_not_space c : is_alpha c = true -> is_space c = false.
Proof. destruct c as [[] [] [] [] [] [] [] []]; intros H; try reflexivity; discriminate. Qed.

(** A word: not empty and starting with a character that is not a space. *)
Lemma wordlike_head w :
  is_empty w = false -> starts_with_space w = false ->
  exists c, head w = Some c /\ is_space c = false.
Proof.
  unfold starts_with_space. destruct w as [|c w]; [discriminate|].
  simpl. intros _ H. now exists c.
Qed.

Lemma split_from_wordlike acc s :
  (is_empty acc = true \/ starts_with_space acc = false) ->
  Forall (fun w => is_empty w = false /\ starts_with_space w = false)
         (split_from acc s).
Proof.
  revert acc. induction s as [|c s IH]; intros acc Hacc; simpl.
  - destruct (is_empty acc) eqn:E; [constructor|].
    constructor; [|constructor]. split; [exact E|]. destruct Hacc; congruence.
  - destruct (is_space c) eqn:Ec.
    + destruct (is_empty acc) eqn:E.
      * apply IH. now left.
      * constructor; [split; [exact E|destruct Hacc; congruence]|].
        apply IH. now left.
    + apply IH. right. unfold starts_with_space.
      destruct acc as [|a acc]; simpl; [exact Ec|].
      destruct Hacc as [H|H]; [discriminate|exact H].
Qed.

Lemma title_head w c :
  head w = Some c -> is_space c = false ->
  exists c', head (title w) = Some c' /\ is_space c' = false.
Proof.
  destruct w as [|d w]; simpl; [discriminate|]. intros H Hc. inversion H; subst d.
  unfold title. simpl. destruct (is_alpha c) eqn:Ea; simpl.
  - exists (upper_char c). split; [reflexivity|now apply upper_char_not_space].
  - now exists c.
Qed.

Lemma head_join w ws : is_empty w = false -> head (join " " (w :: ws)) = head w.
Proof.
  unfold join. destruct w as [|c w]; [discriminate|].
  intros _. destruct ws; reflexivity.
Qed.

Lemma clean_title_head text :
  exists c, head (_clean_title text) = Some c /\ is_space c = false.
Proof.
  unfold _clean_title.
  set (words := firstn 6 (filter (fun w => negb (str_in w _STOPWORDS))
                  (split (filter_chars title_char (lower text))))).
  assert (Hw : Forall (fun w => is_empty w = false /\ starts_with_space w = false)
                 words).
  { apply Forall_forall. intros w Hw. apply In_firstn in Hw.
    apply filter_In in Hw as [Hw _].
    pose proof (split_from_wordlike EmptyString
                  (filter_chars title_char (lower text)) (or_introl eq_refl)) as F.
    rewrite Forall_forall in F. now apply F. }
  destruct words as [|w ws].
  - exists "C"%char. split; reflexivity.
  - inversion Hw as [|? ? [Hne Hsp] _]; subst.
    rewrite is_empty_title, (is_empty_join_nonempty w ws Hne), title_join.
    cbn [map]. rewrite head_join by now rewrite is_empty_title.
    destruct (wordlike_head w Hne Hsp) as (c & Hc & Hs).
    now apply title_head with (c := c).
Qed.

(** X7. The fallback title that [set_title_from_msgs] stores, before the
    uniqueness rule, is never empty, has no whitespace at either end and
    has at most 40 characters, whatever the ASCII text of the messages is. *)
Theorem fallback_title_is_not_empty_and_trimmed text :
  is_ascii text = true ->
  let t := strip (take 40 (_clean_title text)) in
  is_empty t = false /\
  starts_with_space t = false /\ ends_with_space t = false /\
  String.length t <= 40.
Proof.
  intros _. cbv zeta. destruct (clean_title_head text) as (c & Hc & Hs).
  destruct (strip_trimmed (take 40 (_clean_title text))) as (S1 & S2 & _).
  repeat split; auto.
  - assert (H : head (strip (take 40 (_clean_title text))) = Some c).
    { unfold strip. rewrite lstrip_nonspace_head.
      - apply rstrip_head; [now rewrite head_take|exact Hs].
      - unfold starts_with_space. now rewrite head_take, Hc. }
    destruct (strip (take 40 (_clean_title text))); [discriminate|reflexivity].
  - pose proof (length_strip (take 40 (_clean_title text))).
    pose proof (length_take 40 (_clean_title text)). lia.
Qed.

Lemma fallback_title_is_not_empty_and_trimmed_witness :
  let text := "what is the, of a ... ?" in
  let t := strip (take 40 (_clean_title text)) in
  is_ascii text = true /\
  is_empty t = false /\
  starts_with_space t = false /\ ends_with_space t = false /\
  String.length t <= 40.
Proof.
  split; [reflexivity|].
  apply (fallback_title_is_not_empty_and_trimmed "what is the, of a ... ?" eq_refl).
Defined.

(** X8. The [while True] loop of [_ensure_unique_name] always ends: the answer
    is the name itself when no conversation has it, and otherwise the name
    with the first number from 2 that no conversation has; no conversation
    of the set has the answer as its name. *)
Theorem unique_name_loop_always_answers name d :
  exists r,
    _ensure_unique_name name d = Some r /\
    ~ In r (existing_names d) /\
    ((~ In name (existing_names d) /\ r = name) \/
     (In name (existing_names d) /\
      exists k, 2 <= k /\ r = numbered name k /\
                forall m, 2 <= m < k -> In (numbered name m) (existing_names d))).
Proof. apply ensure_unique_name_total. Qed.

(** X9. Only the last eight turns of the history reach the prompt. *)
Theorem build_prompt_reads_last_eight_turns si user_msg older recent :
  8 <= length recent ->
  build_prompt si user_msg (older ++ recent) = build_prompt si user_msg recent.
Proof.
  intros H. unfold build_prompt. rewrite last_n_app by exact H. reflexivity.
Qed.

Lemma build_prompt_reads_last_eight_turns_witness :
  8 <= length (repeat ("user", "hi") 8) /\
  build_prompt "be kind" "bye"
    ([("user", "first"); ("assistant", "second")] ++ repeat ("user", "hi") 8)
  = build_prompt "be kind" "bye" (repeat ("user", "hi") 8).
Proof.
  assert (H : 8 <= length (repeat ("user", "hi") 8)) by (simpl; lia).
  split; [exact H|].
  apply (build_prompt_reads_last_eight_turns "be kind" "bye"
           [("user", "first"); ("assistant", "second")] (repeat ("user", "hi") 8) H).
Defined.

Lemma names_set_incl sid v (d : Dict.t Conversation) x :
  In x (existing_names (Dict.set sid v d)) ->
  x = name v \/ In x (existing_names d).
Proof.
  unfold existing_names, Dict.values.
  induction d as [|[k c] d IH]; simpl.
  - intros [H|[]]. now left.
  - destruct (String.eqb sid k); simpl.
    + intros [H|H]; auto.
    + intros [H|H]; auto. destruct (IH H); auto.
Qed.

Lemma names_set_NoDup sid v (d : Dict.t Conversation) :
  NoDup (existing_names d) -> ~ In (name v) (existing_names d) ->
  NoDup (existing_names (Dict.set sid v d)).
Proof.
  unfold existing_names, Dict.values.
  induction d as [|[k c] d IH]; simpl; intros Hd Hn.
  - constructor; [intros []|constructor].
  - inversion Hd as [|? ? Hc Hd']; subst.
    destruct (String.eqb sid k); simpl.
    + constructor; [tauto|exact Hd'].
    + constructor.
      * intros Hin. apply names_set_incl in Hin. destruct Hin as [E|Hin].
        -- apply Hn. left. now symmetry.
        -- now apply Hc.
      * apply IH; [exact Hd'|tauto].
Qed.

Lemma rename_NoDup sid n d :
  NoDup (existing_names d) -> ~ In n (existing_names d) ->
  NoDup (existing_names (rename_in sid n d)).
Proof.
  intros Hd Hn. unfold rename_in. destruct (Dict.get sid d); [|exact Hd].
  now apply names_set_NoDup.
Qed.

Lemma keys_set_present {V} k (v c : V) d :
  Dict.get k d = Some c -> Dict.keys (Dict.set k v d) = Dict.keys d.
Proof.
  unfold Dict.keys. induction d as [|[k' c'] d IH]; simpl; [discriminate|].
  destruct (String.eqb k k') eqn:E; simpl; [reflexivity|].
  intros H. now rewrite IH.
Qed.

Lemma keys_rename sid n d : Dict.keys (rename_in sid n d) = Dict.keys d.
Proof.
  unfold rename_in. destruct (Dict.get sid d) eqn:E; [|reflexivity].
  now apply keys_set_present with (c := c).
Qed.

Lemma model_title_convos msgs env s :
  exists t s1, model_title msgs env s = (Ret t, s1) /\ convos s1 = convos s.
Proof.
  unfold model_title, bind, ask, log, modify, ret.
  destruct (client env) as [c|].
  - destruct (generate_content c (title_prompt msgs)) as [text|].
    + destruct (is_empty text); eexists; eexists; (split; reflexivity).
    + eexists; eexists; (split; reflexivity).
  - eexists; eexists; (split; reflexivity).
Qed.

(** The conversations whose names are pairwise distinct, with the same ids
    in the same order. *)
Lemma set_title_keeps_distinct sid msgs env s o s' :
  set_title_from_msgs sid msgs env s = (o, s') ->
  Dict.keys (convos s') = Dict.keys (convos s) /\
  (NoDup (existing_names (convos s)) -> NoDup (existing_names (convos s'))).
Proof.
  unfold set_title_from_msgs. destruct msgs as [|m ms].
  { intros E. inversion E. auto. }
  unfold lookup at 1. unfold bind at 1.
  destruct (Dict.get sid (convos s)) as [c|]; [|intros E; inversion E; auto].
  destruct (is_default_name (name c)); cbn [negb].
  2:{ intros E. inversion E. auto. }
  destruct (model_title_convos (m :: ms) env s) as (t & s1 & E1 & C1).
  rewrite (bind_ret _ _ _ _ _ _ E1).
  match goal with
  | |- context [ensure_unique_name ?n] =>
      destruct (ensure_unique_name_total n (convos s1)) as (r & E2 & Hr & _);
      assert (E3 : bind (ensure_unique_name n) (fun u => set_name sid u) env s1
                   = set_name sid r env s1)
        by (unfold bind, ensure_unique_name; now rewrite E2)
  end.
  rewrite E3. unfold set_name, modify. intros E. inversion E. simpl.
  rewrite keys_rename, C1. split; [reflexivity|].
  intros Hd. apply rename_NoDup; rewrite C1 in *; assumption.
Qed.

(** X10. Off-topic marking keeps the names of the conversations pairwise
    distinct and neither adds nor removes a conversation. *)
Theorem mark_offtopic_keeps_names_distinct sid env s c :
  Dict.get sid (convos s) = Some c ->
  NoDup (existing_names (convos s)) ->
  exists s',
    mark_offtopic sid env s = (Ret tt, s') /\
    NoDup (existing_names (convos s')) /\
    Dict.keys (convos s') = Dict.keys (convos s).
Proof.
  intros Hc Hd.
  destruct (mark_offtopic_run sid env s c Hc) as (s' & E & _).
  exists s'. split; [exact E|].
  revert E. unfold mark_offtopic. rewrite run_log.
  set (s0 := add_event (EvMarkOfftopic sid) s).
  assert (Hc0 : Dict.get sid (convos s0) = Some c) by exact Hc.
  rewrite (bind_ret _ _ _ _ _ _ (lookup_run _ env _ _ Hc0)).
  assert (Hn : exists n1 s1,
    (if startswith "new chat" (lower (name c)) || startswith "Chat " (name c)
     then
       match last_n 2 (user_turns (history c)) with
       | [] => ret (name c)
       | user_msgs =>
           set_title_from_msgs sid user_msgs ;;
           sess' <- lookup sid ;;
           ret (name sess')
       end
     else ret (name c)) env s0 = (Ret n1, s1) /\
    NoDup (existing_names (convos s1)) /\
    Dict.keys (convos s1) = Dict.keys (convos s)).
  { destruct (startswith "new chat" (lower (name c)) || startswith "Chat " (name c)).
    - destruct (last_n 2 (user_turns (history c))) as [|m ms].
      + exists (name c), s0. repeat split; auto.
      + destruct (set_title_from_msgs_run sid (m :: ms) env s0 c Hc0)
          as (s1 & E1 & O1).
        destruct (set_title_keeps_distinct _ _ _ _ _ _ E1) as (K1 & D1).
        rewrite (bind_ret _ _ _ _ _ _ E1).
        destruct (only_names_get _ _ _ _ _ O1 Hc0) as (c1 & Hc1 & _).
        rewrite (bind_ret _ _ _ _ _ _ (lookup_run _ env _ _ Hc1)).
        exists (name c1), s1. split; [reflexivity|]. split; [now apply D1|exact K1].
    - exists (name c), s0. repeat split; auto. }
  destruct Hn as (n1 & s1 & E1 & D1 & K1).
  rewrite (bind_ret _ _ _ _ _ _ E1).
  destruct (negb (endswith OFFTOPIC_SUFFIX n1)); cbn [when].
  - destruct (ensure_unique_name_total (n1 ++ OFFTOPIC_SUFFIX) (convos s1))
      as (r & E2 & Hr & _).
    unfold bind, ensure_unique_name. rewrite E2. unfold set_name, modify.
    intros E. inversion E. simpl. rewrite keys_rename. split; [|exact K1].
    now apply rename_NoDup.
  - unfold ret. intros E. inversion E. subst s'. auto.
Qed.

Lemma mark_offtopic_keeps_names_distinct_witness :
  exists s',
    mark_offtopic "c1" env0 clash_session = (Ret tt, s') /\
    NoDup (existing_names (convos s')) /\
    Dict.keys (convos s') = Dict.keys (convos clash_session).
Proof.
  apply (mark_offtopic_keeps_names_distinct "c1" env0 clash_session
           (mkConversation "Weather Today" [("user", "weather today")])).
  - reflexivity.
  - repeat constructor; simpl; intuition discriminate.
Defined.

Lemma suffixed_not_default n :
  endswith OFFTOPIC_SUFFIX n = true -> startswith "Chat " n = false ->
  is_default_name n = false.
Proof.
  intros He Hc. unfold is_default_name. rewrite Hc, orb_false_r.
  destruct (str_in n ["New Chat"; "New chat"]) eqn:E; [|reflexivity].
  apply str_in_spec in E. destruct E as [<-|[<-|[]]]; discriminate He.
Qed.

(** X11. A conversation that is already marked, and whose name does not start
    with the default prefix, is left as it is by a further marking: no name
    changes and no title is asked for. *)
Theorem marked_conversation_is_left_alone sid env s c :
  Dict.get sid (convos s) = Some c ->
  endswith OFFTOPIC_SUFFIX (name c) = true ->
  startswith "Chat " (name c) = false ->
  mark_offtopic sid env s = (Ret tt, add_event (EvMarkOfftopic sid) s).
Proof.
  intros Hc He Hp. unfold mark_offtopic. rewrite run_log.
  set (s0 := add_event (EvMarkOfftopic sid) s).
  assert (Hc0 : Dict.get sid (convos s0) = Some c) by exact Hc.
  rewrite (bind_ret _ _ _ _ _ _ (lookup_run _ env _ _ Hc0)).
  rewrite Hp, orb_false_r.
  assert (Hn :
    (if startswith "new chat" (lower (name c))
     then
       match last_n 2 (user_turns (history c)) with
       | [] => ret (name c)
       | user_msgs =>
           set_title_from_msgs sid user_msgs ;;
           sess' <- lookup sid ;;
           ret (name sess')
       end
     else ret (name c)) env s0 = (Ret (name c), s0)).
  { destruct (startswith "new chat" (lower (name c))); [|reflexivity].
    destruct (last_n 2 (user_turns (history c))) as [|m ms]; [reflexivity|].
    assert (E1 : set_title_from_msgs sid (m :: ms) env s0 = (Ret tt, s0)).
    { unfold set_title_from_msgs.
      rewrite (bind_ret _ _ _ _ _ _ (lookup_run _ env _ _ Hc0)).
      now rewrite (suffixed_not_default _ He Hp). }
    rewrite (bind_ret _ _ _ _ _ _ E1).
    now rewrite (bind_ret _ _ _ _ _ _ (lookup_run _ env _ _ Hc0)). }
  rewrite (bind_ret _ _ _ _ _ _ Hn). rewrite He. reflexivity.
Qed.

Lemma marked_conversation_is_left_alone_witness :
  mark_offtopic "c2" env_heads clash_session =
  (Ret tt, add_event (EvMarkOfftopic "c2") clash_session).
Proof.
  apply (marked_conversation_is_left_alone "c2" env_heads clash_session
           (mkConversation "Weather Today (Not Cybersecurity Related)"
              [("user", "weather today")])); reflexivity.
Defined.



(* ------------------------------------------------------------------ *)
(** ** Further properties: the session and the sidebar *)

Lemma first_key_get {V} (d : Dict.t V) k :
  Dict.first_key d = Some k -> exists v, Dict.get k d = Some v.
Proof.
  destruct d as [|[k' v] d]; simpl; [discriminate|].
  intros H. inversion H; subst. exists v. now rewrite String.eqb_refl.
Qed.

Lemma not_healed_missing s : ~ Healed s -> active_id_missing s = true.
Proof.
  intros N. unfold active_id_missing, Dict.mem.
  destruct (active_id s) as [a|] eqn:Ea; [|reflexivity].
  destruct (Dict.get a (convos s)) as [c|] eqn:Ec; [|reflexivity].
  exfalso. apply N. now exists a, c.
Qed.

Lemma healed_not_missing s : Healed s -> active_id_missing s = false.
Proof.
  intros (a & c & Ha & Hc). unfold active_id_missing, Dict.mem. now rewrite Ha, Hc.
Qed.

Lemma healed_nonempty s : Healed s -> convos s <> [].
Proof. intros (a & c & _ & Hc) E. rewrite E in Hc. discriminate. Qed.

(** X13. [active_session()] never fails, whatever the active id is: it returns
    the conversation that the active id names afterwards. A valid active id
    is left alone; an invalid one is replaced by the id of the first
    conversation; a conversation is created only when there is none. *)
Theorem active_session_repairs_the_active_id env s :
  exists c a s',
    active_session env s = (Ret c, s') /\
    active_id s' = Some a /\ Dict.get a (convos s') = Some c /\
    (Healed s -> s' = s) /\
    (~ Healed s -> Dict.first_key (convos s') = Some a) /\
    (convos s <> [] -> convos s' = convos s) /\
    (convos s = [] -> convos s' = [(fresh_id env, _new_session "New Chat")]).
Proof.
  destruct (heal_spec env s) as (a & c & E & Ha & Hc).
  exists c, a, (heal env s). repeat split; auto.
  - apply heal_id.
  - intros N. revert Ha. apply not_healed_missing in N.
    unfold heal, active_session, bind, gets, when. rewrite N.
    destruct (convos s) as [|[k v] d] eqn:Ec; simpl.
    + unfold create_new_chat, bind, ask, modify, ret, lookup_active; simpl.
      rewrite Ec; simpl. rewrite String.eqb_refl. simpl. congruence.
    + unfold modify, lookup_active; simpl. rewrite Ec; simpl.
      rewrite String.eqb_refl. simpl. rewrite Ec. simpl. congruence.
  - intros Hn. unfold heal, active_session, bind, gets, when.
    destruct (active_id_missing s) eqn:Em.
    + destruct (convos s) as [|[k v] d] eqn:Ec; [congruence|]. simpl.
      unfold modify, lookup_active; simpl. rewrite Ec; simpl.
      rewrite String.eqb_refl. simpl. now rewrite Ec.
    + unfold ret, lookup_active; simpl.
      destruct (active_id s) as [a'|]; [|reflexivity].
      destruct (Dict.get a' (convos s)); reflexivity.
  - intros Ee. unfold heal, active_session, bind, gets, when.
    assert (Em : active_id_missing s = true).
    { unfold active_id_missing, Dict.mem. rewrite Ee.
      destruct (active_id s); reflexivity. }
    rewrite Em, Ee. simpl.
    unfold create_new_chat, bind, ask, modify, ret, lookup_active; simpl.
    rewrite Ee; simpl. rewrite String.eqb_refl. simpl. reflexivity.
Qed.

(** X14. [ensure_session_state()] repairs the session exactly as
    [active_session()] does: it never reaches the [next(iter(...))] of an
    empty dict, and it leaves a session whose active id names a
    conversation. *)
Theorem ensure_session_state_repairs_like_active_session env s :
  ensure_session_state env s = (Ret tt, snd (active_session env s)) /\
  Healed (snd (active_session env s)).
Proof.
  split; [|apply heal_healed].
  unfold ensure_session_state, active_session, bind, gets, when.
  destruct (convos s) as [|[k v] d] eqn:Ec.
  - assert (Em : active_id_missing s = true).
    { unfold active_id_missing, Dict.mem. rewrite Ec.
      destruct (active_id s); reflexivity. }
    rewrite Em. unfold create_new_chat, bind, ask, modify, ret, lookup_active.
    simpl. rewrite Ec. simpl.
    unfold active_id_missing, Dict.mem. simpl. rewrite String.eqb_refl. simpl.
    rewrite dict_get_set_same, Ec. reflexivity.
  - unfold ret. simpl.
    destruct (active_id_missing s) eqn:Em.
    + rewrite Ec. simpl. unfold modify, lookup_active. simpl. rewrite Ec. simpl.
      now rewrite String.eqb_refl.
    + unfold lookup_active, ret. simpl.
      unfold active_id_missing, Dict.mem in Em.
      destruct (active_id s) as [a|]; [|discriminate].
      destruct (Dict.get a (convos s)); [reflexivity|discriminate].
Qed.

(** X15. [append_msg] never fails: the history that [active_history()] returns
    grows by exactly the new message. When the active id names a
    conversation, it is that conversation that grows, under the same name;
    every other conversation, the active id and the ids are unchanged. *)
Theorem append_msg_adds_one_message role msg env s :
  exists s',
    append_msg role msg env s = (Ret tt, s') /\
    Healed s' /\
    cur_history env s' = (cur_history env s ++ [(role, msg)])%list /\
    forall a c,
      active_id s = Some a -> Dict.get a (convos s) = Some c ->
      active_id s' = Some a /\
      Dict.get a (convos s') =
        Some (mkConversation (name c) (history c ++ [(role, msg)])%list) /\
      (forall k, k <> a -> Dict.get k (convos s') = Dict.get k (convos s)) /\
      Dict.keys (convos s') = Dict.keys (convos s).
Proof.
  exists (push_msg role msg (heal env s)).
  split; [apply append_msg_run|].
  split; [apply push_healed, heal_healed|].
  split; [apply cur_history_push|].
  intros a c Ha Hc.
  assert (Hh : Healed s) by now exists a, c.
  rewrite (heal_id env s Hh). unfold push_msg. rewrite Ha, Hc. simpl.
  repeat split; auto.
  - apply dict_get_set_same.
  - intros k Hk. now apply dict_get_set_other.
  - now apply keys_set_present with (c := c).
Qed.

(** X16. After a login, [load_user_data_from_firestore] installs the stored
    conversations and makes the first of them active; when the store has
    none, it creates one new chat. Either way the active id names a
    conversation. The counters and the state of the password game are
    those of the session before the login. *)
Theorem load_user_data_leaves_an_active_chat u loaded env s :
  is_empty u = false ->
  exists s',
    load_user_data_from_firestore (Some u) loaded env s = (Ret tt, s') /\
    Healed s' /\
    (loaded <> [] ->
     convos s' = loaded /\ active_id s' = Dict.first_key loaded) /\
    (loaded = [] ->
     convos s' = [(fresh_id env, _new_session "New Chat")] /\
     active_id s' = Some (fresh_id env)) /\
    in_password_game s' = in_password_game s /\
    password_game_step s' = password_game_step s /\
    password_question_count s' = password_question_count s /\
    phishing_question_count s' = phishing_question_count s.
Proof.
  intros Hu. unfold load_user_data_from_firestore. rewrite Hu.
  destruct loaded as [|[k v] d].
  - unfold bind, modify, create_new_chat, ask, ret. simpl.
    eexists. split; [reflexivity|]. simpl. repeat split; try congruence.
    exists (fresh_id env), (_new_session "New Chat"). simpl.
    now rewrite String.eqb_refl.
  - unfold bind, modify. simpl.
    eexists. split; [reflexivity|]. simpl. repeat split; try congruence.
    exists k, v. simpl. now rewrite String.eqb_refl.
Qed.

Lemma load_user_data_leaves_an_active_chat_witness :
  exists s',
    load_user_data_from_firestore (Some "uid-1") (convos clash_session) env0
      (game_session 2) = (Ret tt, s') /\
    Healed s' /\
    (convos clash_session <> [] ->
     convos s' = convos clash_session /\
     active_id s' = Dict.first_key (convos clash_session)) /\
    (convos clash_session = [] ->
     convos s' = [(fresh_id env0, _new_session "New Chat")] /\
     active_id s' = Some (fresh_id env0)) /\
    in_password_game s' = in_password_game (game_session 2) /\
    password_game_step s' = password_game_step (game_session 2) /\
    password_question_count s' = password_question_count (game_session 2) /\
    phishing_question_count s' = phishing_question_count (game_session 2).
Proof.
  apply (load_user_data_leaves_an_active_chat "uid-1" (convos clash_session)
           env0 (game_session 2)).
  reflexivity.
Defined.

Lemma dict_get_remove {V} k a (d : Dict.t V) :
  Dict.get k (Dict.remove a d) = if String.eqb k a then None else Dict.get k d.
Proof.
  unfold Dict.remove. induction d as [|[k' v] d IH]; simpl.
  - now destruct (String.eqb k a).
  - destruct (String.eqb_spec k' a) as [->|N]; simpl.
    + rewrite IH. destruct (String.eqb_spec k a) as [->|N']; reflexivity.
    + rewrite IH. destruct (String.eqb_spec k k') as [->|N'].
      * destruct (String.eqb_spec k' a); [contradiction|reflexivity].
      * reflexivity.
Qed.

(** X17. The Yes button of the delete confirmation never leaves the session
    without an active conversation. The deleted conversation is gone and
    every other conversation is kept as it was (the id of a chat created
    in the same step apart); a chat is created only when no conversation
    is left. *)
Theorem delete_leaves_an_active_chat a env s :
  let d' := match a with
            | Some k => Dict.remove k (convos s)
            | None => convos s
            end in
  exists s',
    Sidebar.delete_active_chat a env s = (Rerun, s') /\
    Healed s' /\
    (forall k, a = Some k -> k <> fresh_id env -> Dict.get k (convos s') = None) /\
    (forall k, a <> Some k -> k <> fresh_id env ->
       Dict.get k (convos s') = Dict.get k (convos s)) /\
    (Sidebar.truthy (Dict.first_key d') = true ->
     convos s' = d' /\ active_id s' = Dict.first_key d') /\
    (d' = [] -> convos s' = [(fresh_id env, _new_session "New Chat")]).
Proof.
  cbv zeta. unfold Sidebar.delete_active_chat.
  rewrite run_modify, run_gets, run_modify. cbv beta.
  set (d' := match a with
             | Some k => Dict.remove k (convos s)
             | None => convos s
             end).
  change (convos (set_convos d' s)) with d'.
  assert (Hget : forall k, a = Some k -> Dict.get k d' = None).
  { intros k ->. subst d'. rewrite dict_get_remove. now rewrite String.eqb_refl. }
  assert (Hoth : forall k, a <> Some k -> Dict.get k d' = Dict.get k (convos s)).
  { intros k N. subst d'. destruct a as [k'|]; [|reflexivity].
    rewrite dict_get_remove. destruct (String.eqb_spec k k'); [congruence|reflexivity]. }
  clearbody d'.
  destruct (Sidebar.truthy (Dict.first_key d')) eqn:Et; cbn [negb].
  - rewrite run_when_false. unfold rerun.
    eexists. split; [reflexivity|]. simpl.
    split; [|split; [|split; [|split]]]; auto.
    + destruct (Dict.first_key d') as [k|] eqn:Ek; [|discriminate].
      destruct (first_key_get d' k Ek) as (v & Hv). now exists k, v.
    + intros ->. discriminate Et.
  - rewrite run_when_true.
    unfold create_new_chat, bind, ask, modify, ret, rerun. simpl.
    eexists. split; [reflexivity|]. simpl.
    split; [|split; [|split; [|split]]].
    + exists (fresh_id env), (_new_session "New Chat"). simpl.
      split; [reflexivity|apply dict_get_set_same].
    + intros k Hk N. rewrite dict_get_set_other by exact N. now apply Hget.
    + intros k Hk N. rewrite dict_get_set_other by exact N. now apply Hoth.
    + discriminate.
    + intros ->. reflexivity.
Qed.

Lemma find_empty_chat_none d :
  find_empty_chat d = None <-> Forall (fun kv => history (snd kv) <> []) d.
Proof.
  induction d as [|[k c] d IH]; simpl.
  - split; auto.
  - destruct (history c) eqn:E.
    + split; [discriminate|]. intros H. inversion H; subst. simpl in *. congruence.
    + rewrite IH. split.
      * intros H. constructor; [simpl; congruence|exact H].
      * intros H. now inversion H.
Qed.

Lemma find_empty_chat_some d k :
  find_empty_chat d = Some k ->
  exists pre c post,
    d = (pre ++ (k, c) :: post)%list /\ history c = [] /\
    Forall (fun kv => history (snd kv) <> []) pre.
Proof.
  induction d as [|[k' c] d IH]; simpl; [discriminate|].
  destruct (history c) eqn:E.
  - intros H. inversion H; subst. exists [], c, d. auto.
  - intros H. destruct (IH H) as (pre & c0 & post & -> & Hc & Hp).
    exists ((k', c) :: pre)%list, c0, post. repeat split; auto.
    constructor; [simpl; congruence|exact Hp].
Qed.

(** X18. The New button creates a chat only when every conversation has a
    message: then a conversation named New Chat, with an empty history,
    is added under the fresh id and becomes the active one. When some
    conversation is still empty, nothing changes; the active id is not
    moved to the empty conversation. *)
Theorem new_button_reuses_an_empty_chat env s :
  exists s',
    Sidebar.new_chat_button env s = (Rerun, s') /\
    (Forall (fun kv => history (snd kv) <> []) (convos s) ->
     convos s' = Dict.set (fresh_id env) (_new_session "New Chat") (convos s) /\
     active_id s' = Some (fresh_id env)) /\
    (Exists (fun kv => history (snd kv) = []) (convos s) ->
     Forall (fun kv => is_empty (fst kv) = false) (convos s) ->
     s' = s).
Proof.
  unfold Sidebar.new_chat_button. rewrite run_gets.
  destruct (find_empty_chat (convos s)) as [k|] eqn:Ef.
  - destruct (find_empty_chat_some _ _ Ef) as (pre & c & post & Ed & Hc & Hp).
    destruct (is_empty k) eqn:Ek; simpl; rewrite Ek; cbn [negb].
    + unfold create_new_chat, bind, ask, modify, ret, rerun. simpl.
      eexists. split; [reflexivity|]. simpl. split; [auto|].
      intros _ Hk. exfalso. rewrite Forall_forall in Hk.
      specialize (Hk (k, c)). rewrite Ed in Hk. simpl in Hk.
      rewrite Hk in Ek; [discriminate|]. apply in_or_app. right. now left.
    + unfold bind, ret, rerun. exists s. split; [reflexivity|]. split; [|auto].
      intros Hall. exfalso. rewrite Ed in Hall.
      apply Forall_app in Hall as [_ Hall]. inversion Hall; subst. simpl in *.
      congruence.
  - simpl. unfold create_new_chat, bind, ask, modify, ret, rerun. simpl.
    eexists. split; [reflexivity|]. simpl. split; [auto|].
    intros Hex _. exfalso. apply find_empty_chat_none in Ef.
    rewrite Exists_exists in Hex. destruct Hex as (kv & Hin & Hh).
    rewrite Forall_forall in Ef. now apply (Ef kv Hin).
Qed.

(* ------------------------------------------------------------------ *)
(** ** Further properties: a chat turn *)

(** X19. The backend is asked for an answer only in a turn that is outside the
    game and that the guardrail lets through, and then once: a denied or
    off-topic text, and whatever is typed during the game, never reaches
    it. The submitted text and the last message of the history are ASCII. *)
Theorem only_allowed_turns_reach_the_model env s user_msg :
  is_empty user_msg = false ->
  is_ascii user_msg = true ->
  ascii_last (cur_history env s) ->
  exists s',
    chat_turn user_msg env s = (Rerun, s') /\
    stream_prompts (trace s') =
      (stream_prompts (trace s) ++
       (if plain_turn env s user_msg &&
           negb (redirects user_msg (cur_history env s))
        then prompts_of env user_msg (cur_history env s ++ [("user", user_msg)])
        else []))%list /\
    length (stream_prompts (trace s')) <= S (length (stream_prompts (trace s))).
Proof.
  intros He _ _.
  assert (Hlen : forall h, length (prompts_of env user_msg h) <= 1).
  { intros h. unfold prompts_of. destruct (client env); simpl; lia. }
  destruct (plain_turn env s user_msg) eqn:Hp.
  - unfold plain_turn in Hp. apply andb_true_iff in Hp as [Ha Hg].
    apply negb_true_iff in Ha, Hg. unfold redirects.
    destruct (guardrails_or_offtopic user_msg (cur_history env s)) as [r|] eqn:Hr.
    + destruct (redirected_turn env s user_msg r He Ha Hg Hr)
        as (s' & E & _ & _ & _ & _ & Hs & _).
      exists s'. simpl. rewrite app_nil_r, Hs. repeat split; auto.
    + destruct (allowed_turn env s user_msg He Ha Hg Hr)
        as (s' & E & _ & _ & _ & _ & Hs & _).
      exists s'. simpl. rewrite Hs. repeat split; auto.
      rewrite length_app.
      specialize (Hlen (cur_history env s ++ [("user", user_msg)])%list). lia.
  - destruct (game_turn env s user_msg He Hp) as (s' & E & _ & Hs).
    exists s'. simpl. rewrite app_nil_r, Hs. repeat split; auto.
Qed.

Lemma only_allowed_turns_reach_the_model_witness :
  is_ascii "how do I ddos a site" = true /\
  ascii_last (cur_history env_heads fresh_session) /\
  exists s',
    chat_turn "how do I ddos a site" env_heads fresh_session = (Rerun, s') /\
    stream_prompts (trace s') =
      (stream_prompts (trace fresh_session) ++
       (if plain_turn env_heads fresh_session "how do I ddos a site" &&
           negb (redirects "how do I ddos a site"
                   (cur_history env_heads fresh_session))
        then prompts_of env_heads "how do I ddos a site"
               (cur_history env_heads fresh_session ++
                [("user", "how do I ddos a site")])
        else []))%list /\
    length (stream_prompts (trace s')) <=
      S (length (stream_prompts (trace fresh_session))).
Proof.
  assert (A : ascii_last (cur_history env_heads fresh_session))
    by (vm_compute; constructor).
  split; [reflexivity|]. split; [exact A|].
  apply (only_allowed_turns_reach_the_model env_heads fresh_session
           "how do I ddos a site"); [reflexivity|reflexivity|exact A].
Defined.

Lemma trigger_game_from_three user_msg n coin :
  (3 <= n)%Z -> trigger_game user_msg n coin = true.
Proof.
  intros H. unfold trigger_game.
  destruct (_ && _); [reflexivity|].
  apply Z.leb_le in H. now rewrite H.
Qed.

Lemma trigger_phishing_from_three user_msg n coin :
  (3 <= n)%Z -> trigger_phishing user_msg n coin = true.
Proof.
  intros H. unfold trigger_phishing.
  destruct (_ && _); [reflexivity|].
  apply Z.leb_le in H. now rewrite H.
Qed.

Lemma bumped_range k user_msg n :
  (0 <= n <= 2)%Z -> (0 <= bumped k user_msg n <= 3)%Z.
Proof. unfold bumped. destruct (contains k (lower user_msg)); lia. Qed.

(** X20. In a turn that the model answers, the two question counters stay
    between 0 and 2: a counter that reaches 3 fires its trigger in the same
    turn and is reset. *)
Theorem counters_stay_below_three env s user_msg :
  is_empty user_msg = false ->
  accepts_invite user_msg (cur_history env s) = false ->
  in_password_game s = false ->
  guardrails_or_offtopic user_msg (cur_history env s) = None ->
  (0 <= password_question_count s <= 2)%Z ->
  (0 <= phishing_question_count s <= 2)%Z ->
  exists s',
    chat_turn user_msg env s = (Rerun, s') /\
    (0 <= password_question_count s' <= 2)%Z /\
    (0 <= phishing_question_count s' <= 2)%Z.
Proof.
  intros He Ha Hg Hr Hpw Hph.
  destruct (allowed_turn env s user_msg He Ha Hg Hr)
    as (s' & E & _ & Cpw & Cph & _).
  exists s'. split; [exact E|]. rewrite Cpw, Cph.
  pose proof (bumped_range "password" user_msg _ Hpw) as Bpw.
  pose proof (bumped_range "phishing" user_msg _ Hph) as Bph.
  split.
  - destruct (trigger_game _ _ _) eqn:T; [lia|].
    destruct (Z.le_gt_cases 3 (bumped "password" user_msg (password_question_count s)))
      as [H3|H3]; [|lia].
    rewrite (trigger_game_from_three _ _ _ H3) in T. discriminate.
  - destruct (trigger_phishing _ _ _) eqn:T; [lia|].
    destruct (Z.le_gt_cases 3 (bumped "phishing" user_msg (phishing_question_count s)))
      as [H3|H3]; [|lia].
    rewrite (trigger_phishing_from_three _ _ _ H3) in T. discriminate.
Qed.

Lemma counters_stay_below_three_witness :
  exists s',
    chat_turn "what is a password" env_heads fresh_session = (Rerun, s') /\
    (0 <= password_question_count s' <= 2)%Z /\
    (0 <= phishing_question_count s' <= 2)%Z.
Proof.
  apply (counters_stay_below_three env_heads fresh_session "what is a password");
    try reflexivity; simpl; lia.
Defined.

(** X21. A question about passwords that asks for an improvement is answered
    with the game invite in the same turn, whatever the counter and the
    coin are, and the password counter is reset. *)
Theorem explicit_request_is_invited_at_once env s user_msg :
  accepts_invite user_msg (cur_history env s) = false ->
  in_password_game s = false ->
  guardrails_or_offtopic user_msg (cur_history env s) = None ->
  contains "password" (lower user_msg) = true ->
  existsb (fun k => contains k (lower user_msg)) improve_keywords = true ->
  let h1 := (cur_history env s ++ [("user", user_msg)])%list in
  exists s' quiz,
    chat_turn user_msg env s = (Rerun, s') /\
    cur_history env s' =
      (h1 ++ [("assistant", reply_of env user_msg h1); ("assistant", game_msg)] ++
       fired quiz quiz_msg)%list /\
    password_question_count s' = 0%Z.
Proof.
  intros Ha Hg Hr Hp Hi. cbv zeta.
  assert (He : is_empty user_msg = false).
  { apply (contains_nonempty "password"); [discriminate|exact Hp]. }
  destruct (allowed_turn env s user_msg He Ha Hg Hr)
    as (s' & E & Hh & Cpw & _).
  assert (T : forall n c, trigger_game user_msg n c = true).
  { intros n c. unfold trigger_game. now rewrite Hp, Hi. }
  rewrite T in Hh, Cpw.
  exists s'. eexists. split; [exact E|]. split; [exact Hh|exact Cpw].
Qed.

Lemma explicit_request_is_invited_at_once_witness :
  let h1 := (cur_history env_tails fresh_session ++
             [("user", "how can I make my password stronger")])%list in
  exists s' quiz,
    chat_turn "how can I make my password stronger" env_tails fresh_session
      = (Rerun, s') /\
    cur_history env_tails s' =
      (h1 ++ [("assistant",
               reply_of env_tails "how can I make my password stronger" h1);
              ("assistant", game_msg)] ++
       fired quiz quiz_msg)%list /\
    password_question_count s' = 0%Z.
Proof.
  apply (explicit_request_is_invited_at_once env_tails fresh_session
           "how can I make my password stronger"); reflexivity.
Defined.

Lemma accepts_invite_last reply l role text :
  accepts_invite reply (l ++ [(role, text)]) =
  String.eqb (lower reply) "yes" &&
  (String.eqb role "assistant" &&
   contains "would you like to play a game" (lower text)).
Proof.
  unfold accepts_invite. rewrite last_n_app by (simpl; lia). reflexivity.
Qed.

(** X22. The invite is accepted only while it is the last message: when the
    password trigger and the phishing trigger fire in the same turn, the
    quiz link comes after the invite, and a yes in the next turn is not
    taken as an acceptance. *)
Theorem quiz_link_hides_the_invite env s user_msg reply :
  is_empty user_msg = false ->
  accepts_invite user_msg (cur_history env s) = false ->
  in_password_game s = false ->
  guardrails_or_offtopic user_msg (cur_history env s) = None ->
  trigger_game user_msg
    (bumped "password" user_msg (password_question_count s))
    (coin_password env) = true ->
  lower reply = "yes" ->
  exists s',
    chat_turn user_msg env s = (Rerun, s') /\
    accepts_invite reply (cur_history env s') =
      negb (trigger_phishing user_msg
              (bumped "phishing" user_msg (phishing_question_count s))
              (coin_phishing env)).
Proof.
  intros He Ha Hg Hr Hf Hy.
  destruct (allowed_turn env s user_msg He Ha Hg Hr) as (s' & E & Hh & _).
  exists s'. split; [exact E|]. rewrite Hh, Hf.
  destruct (trigger_phishing _ _ _); unfold fired.
  - rewrite !app_assoc. rewrite accepts_invite_last, Hy. reflexivity.
  - rewrite app_nil_r, !app_assoc. rewrite accepts_invite_last, Hy. reflexivity.
Qed.

Lemma quiz_link_hides_the_invite_witness :
  exists s',
    chat_turn "how can I make my password stronger" env_tails fresh_session
      = (Rerun, s') /\
    accepts_invite "Yes" (cur_history env_tails s') =
      negb (trigger_phishing "how can I make my password stronger"
              (bumped "phishing" "how can I make my password stronger"
                 (phishing_question_count fresh_session))
              (coin_phishing env_tails)).
Proof.
  apply (quiz_link_hides_the_invite env_tails fresh_session
           "how can I make my password stronger" "Yes"); reflexivity.
Defined.

Lemma set_in_game_same b s : in_password_game s = b -> set_in_password_game b s = s.
Proof. destruct s. simpl. now intros <-. Qed.

Lemma accepts_invite_nonempty user_msg h :
  accepts_invite user_msg h = true -> is_empty user_msg = false.
Proof.
  unfold accepts_invite. intros H. apply andb_true_iff in H as [H _].
  destruct user_msg; [discriminate|reflexivity].
Qed.

(** A turn that the game handles is one external call of the game, on the
    repaired session with the game switched on. *)
Lemma game_turn_call env s user_msg :
  is_empty user_msg = false ->
  plain_turn env s user_msg = false ->
  chat_turn user_msg env s =
  handle_password_game user_msg false env (set_in_password_game true (heal env s)).
Proof.
  intros He Hp. unfold plain_turn in Hp.
  unfold chat_turn. rewrite He. rewrite run_active_history.
  destruct (accepts_invite user_msg (cur_history env s)) eqn:Ea.
  - rewrite run_when_true, run_assoc, run_modify, run_assoc.
    destruct (game_call_trace env (set_in_password_game true (heal env s)) user_msg)
      as (s' & E & _).
    rewrite (bind_rerun _ _ _ _ _ E). now rewrite E.
  - rewrite run_when_false, run_gets, in_game_heal.
    simpl in Hp. apply negb_false_iff in Hp. rewrite Hp.
    rewrite run_when_true, run_assoc.
    rewrite (set_in_game_same true (heal env s))
      by (now rewrite in_game_heal).
    destruct (game_call_trace env (heal env s) user_msg) as (s' & E & _).
    rewrite (bind_rerun _ _ _ _ _ E). now rewrite E.
Qed.

(** The first call of the game, at step 0. *)
Lemma game_start env s user_msg :
  get_step s = 0%Z ->
  exists s',
    handle_password_game user_msg false env s = (Rerun, s') /\
    get_step s' = 1%Z /\
    cur_history env s' =
      (cur_history env s ++ [("user", user_msg); ("assistant", MSG_START)])%list /\
    in_password_game s' = in_password_game s /\
    password_question_count s' = password_question_count s /\
    phishing_question_count s' = phishing_question_count s /\
    user_password s' = user_password s /\
    trace s' = (trace s ++ [EvGameCall false])%list.
Proof.
  intros H0.
  assert (E0 : (get_step s =? 0)%Z = true) by now rewrite H0.
  eassert (E : handle_password_game user_msg false env s = _)
    by (game_run; reflexivity).
  match type of E with
  | _ = rerun _ ?s4 => read_all env s4; intros
  end.
  eexists. split; [exact E|].
  repeat match goal with
    | H : _ = _ |- _ => rewrite H; clear H
    end.
  repeat split.
Qed.

(** X23. A yes to the invite starts the game: the game is switched on and moves
    to step 1, the history gets the yes and the opening message of the game,
    and the yes is not taken as a password. Neither the guardrail nor the
    backend sees the turn, and the counters are left alone. *)
Theorem yes_to_the_invite_starts_the_game env s user_msg :
  accepts_invite user_msg (cur_history env s) = true ->
  get_step s = 0%Z ->
  exists s',
    chat_turn user_msg env s = (Rerun, s') /\
    in_password_game s' = true /\
    get_step s' = 1%Z /\
    cur_history env s' =
      (cur_history env s ++ [("user", user_msg); ("assistant", MSG_START)])%list /\
    user_password s' = user_password s /\
    password_question_count s' = password_question_count s /\
    phishing_question_count s' = phishing_question_count s /\
    stream_prompts (trace s') = stream_prompts (trace s) /\
    marks (trace s') = marks (trace s).
Proof.
  intros Ha H0.
  pose proof (accepts_invite_nonempty _ _ Ha) as He.
  assert (Hp : plain_turn env s user_msg = false).
  { unfold plain_turn. now rewrite Ha. }
  rewrite (game_turn_call env s user_msg He Hp).
  destruct (game_start env (set_in_password_game true (heal env s)) user_msg)
    as (s' & E & Hs & Hh & Hg & Hpw & Hph & Hu & Ht).
  { now rewrite get_step_set_in_game, get_step_heal. }
  exists s'. split; [exact E|].
  rewrite Hs, Hh, Hg, Hpw, Hph, Hu, Ht.
  rewrite cur_history_set_in_game, cur_history_heal.
  rewrite in_game_set_in_game, user_password_set_in_game, user_password_heal.
  rewrite password_count_set_in_game, password_count_heal.
  rewrite phishing_count_set_in_game, phishing_count_heal.
  rewrite trace_set_in_game, trace_heal.
  rewrite stream_prompts_app, marks_app. simpl.
  rewrite app_nil_r, Nat.add_0_r. repeat split.
Qed.

Lemma yes_to_the_invite_starts_the_game_witness :
  let s := push_msg "assistant" game_msg fresh_session in
  exists s',
    chat_turn "Yes" env_heads s = (Rerun, s') /\
    in_password_game s' = true /\
    get_step s' = 1%Z /\
    cur_history env_heads s' =
      (cur_history env_heads s ++ [("user", "Yes"); ("assistant", MSG_START)])%list /\
    user_password s' = user_password s /\
    password_question_count s' = password_question_count s /\
    phishing_question_count s' = phishing_question_count s /\
    stream_prompts (trace s') = stream_prompts (trace s) /\
    marks (trace s') = marks (trace s).
Proof.
  apply (yes_to_the_invite_starts_the_game env_heads
           (push_msg "assistant" game_msg fresh_session) "Yes"); reflexivity.
Defined.

(** X24. While the game is on, a turn belongs to the game alone: the text is
    stored once and answered by one to three messages of the game; the
    guardrail does not judge it, the backend is not asked, and the
    question counters are not bumped, whatever the text says. The password
    counter changes only on a victory, which resets it. *)
Theorem game_turn_bypasses_guard_and_counters env s user_msg :
  is_empty user_msg = false ->
  in_password_game s = true ->
  (0 <= get_step s <= 4)%Z ->
  exists s' replies,
    chat_turn user_msg env s = (Rerun, s') /\
    cur_history env s' =
      (cur_history env s ++ ("user", user_msg) :: replies)%list /\
    Forall (fun rm => fst rm = "assistant") replies /\
    1 <= length replies <= 3 /\
    stream_prompts (trace s') = stream_prompts (trace s) /\
    marks (trace s') = marks (trace s) /\
    phishing_question_count s' = phishing_question_count s /\
    (password_question_count s' = password_question_count s \/
     (in_password_game s' = false /\ password_question_count s' = 0%Z)).
Proof.
  intros He Hg Hr.
  assert (Hp : plain_turn env s user_msg = false).
  { unfold plain_turn. rewrite Hg. apply andb_false_r. }
  destruct (game_turn env s user_msg He Hp) as (s1 & E1 & Hm & Hs).
  pose proof (game_turn_call env s user_msg He Hp) as Ec.
  set (s0 := set_in_password_game true (heal env s)) in *.
  assert (Hr0 : (0 <= get_step s0 <= 4)%Z).
  { subst s0. now rewrite get_step_set_in_game, get_step_heal. }
  destruct (game_call_summary env s0 user_msg Hr0)
    as (s' & E & _ & _ & (replies & evs & Hh & Ht & Hf & Hl) & Hc & Hph & _).
  destruct (game_call_trace env s0 user_msg) as (s2 & E2 & evs2 & Ht2 & _ & Hl2).
  assert (s2 = s') by congruence. subst s2.
  assert (s1 = s') by congruence. subst s1.
  assert (evs2 = evs).
  { rewrite Ht in Ht2. apply app_inv_head in Ht2. congruence. }
  subst evs2.
  exists s', replies. split; [congruence|].
  assert (Q1 : cur_history env s0 = cur_history env s).
  { subst s0. now rewrite cur_history_set_in_game, cur_history_heal. }
  assert (Q2 : phishing_question_count s0 = phishing_question_count s).
  { subst s0. now rewrite phishing_count_set_in_game, phishing_count_heal. }
  assert (Q3 : password_question_count s0 = password_question_count s).
  { subst s0. now rewrite password_count_set_in_game, password_count_heal. }
  rewrite Q1 in Hh. rewrite Q2 in Hph. rewrite Q3 in Hc.
  repeat split; auto; try lia.
  destruct Hc as [[_ Hc]|(_ & _ & Hc1 & Hc2 & _)]; auto.
Qed.

Lemma game_turn_bypasses_guard_and_counters_witness :
  exists s' replies,
    chat_turn "how do I ddos a phishing site" env_heads (game_session 2)
      = (Rerun, s') /\
    cur_history env_heads s' =
      (cur_history env_heads (game_session 2) ++
       ("user", "how do I ddos a phishing site") :: replies)%list /\
    Forall (fun rm => fst rm = "assistant") replies /\
    1 <= length replies <= 3 /\
    stream_prompts (trace s') = stream_prompts (trace (game_session 2)) /\
    marks (trace s') = marks (trace (game_session 2)) /\
    phishing_question_count s' = phishing_question_count (game_session 2) /\
    (password_question_count s' = password_question_count (game_session 2) \/
     (in_password_game s' = false /\ password_question_count s' = 0%Z)).
Proof.
  apply (game_turn_bypasses_guard_and_counters env_heads (game_session 2)
           "how do I ddos a phishing site").
  - reflexivity.
  - reflexivity.
  - unfold get_step, game_session; simpl; lia.
Defined.

(* ------------------------------------------------------------------ *)
(** ** Further properties: the title update at the end of a turn *)

Lemma model_title_frame msgs env s :
  exists t s1,
    model_title msgs env s = (Ret t, s1) /\
    convos s1 = convos s /\ active_id s1 = active_id s.
Proof.
  unfold model_title, bind, ask, log, modify, ret.
  destruct (client env) as [c|].
  - destruct (generate_content c (title_prompt msgs)) as [text|].
    + destruct (is_empty text); eexists; eexists; repeat split.
    + eexists; eexists; repeat split.
  - eexists; eexists; repeat split.
Qed.

(** X25. On a conversation that still has a default name and holds one or two
    user messages, the title update always renames and then reruns the
    script: since the conversation's own name is among the names that the
    new title must avoid, the new name differs from the old one. No
    conversation had the new name before. *)
Theorem title_update_renames_and_reruns env s a c :
  active_id s = Some a ->
  Dict.get a (convos s) = Some c ->
  is_default_name (name c) = true ->
  length (user_turns (history c)) = 1 \/ length (user_turns (history c)) = 2 ->
  exists s' r,
    _maybe_update_title_after_first_turn env s = (Rerun, s') /\
    Dict.get a (convos s') = Some (mkConversation r (history c)) /\
    ~ In r (existing_names (convos s)) /\
    r <> name c /\
    (forall k, k <> a -> Dict.get k (convos s') = Dict.get k (convos s)).
Proof.
  intros Ha Hc Hd Hl. unfold _maybe_update_title_after_first_turn.
  rewrite (bind_ret _ _ _ _ _ _ (lookup_active_run env s a c Ha Hc)).
  assert (Hn : Nat.eqb (length (user_turns (history c))) 1 ||
               Nat.eqb (length (user_turns (history c))) 2 = true).
  { destruct Hl as [-> | ->]; reflexivity. }
  rewrite Hn. cbn [when]. rewrite run_gets, Ha.
  unfold auto_title_if_needed.
  rewrite run_assoc, (run_lookup _ env s a c Hc), Hd. cbn [negb].
  destruct (firstn 2 (user_turns (history c))) as [|m ms] eqn:Ef.
  { exfalso. destruct (user_turns (history c)); simpl in *;
      [destruct Hl; discriminate|discriminate]. }
  unfold set_title_from_msgs.
  rewrite !run_assoc, (run_lookup _ env s a c Hc), Hd. cbn [negb].
  destruct (model_title_frame (m :: ms) env s) as (t & s1 & E1 & C1 & A1).
  rewrite !run_assoc.
  unfold bind at 1. rewrite E1.
  match goal with
  | |- context [ensure_unique_name ?n] =>
      destruct (ensure_unique_name_total n (convos s1)) as (r & E2 & Hr & _);
      set (title := n) in *
  end.
  rewrite !run_assoc.
  unfold bind at 1, ensure_unique_name at 1. rewrite E2.
  unfold set_name. rewrite run_modify.
  set (s2 := set_convos (rename_in a r (convos s1)) s1).
  assert (Hc2 : Dict.get a (convos s2) = Some (mkConversation r (history c))).
  { subst s2. simpl. unfold rename_in. rewrite C1, Hc. apply dict_get_set_same. }
  assert (Ha2 : active_id s2 = Some a) by (subst s2; simpl; congruence).
  rewrite (bind_ret _ _ _ _ _ _ (lookup_active_run env s2 a _ Ha2 Hc2)).
  rewrite C1 in Hr.
  assert (Hne : r <> name c).
  { intros ->. apply Hr. now apply In_existing_names with (k := a). }
  simpl name.
  assert (Hq : String.eqb (name c) r = false).
  { apply String.eqb_neq. congruence. }
  rewrite Hq. cbn [negb when]. unfold rerun.
  exists s2, r. repeat split; auto.
  intros k Hk. subst s2. simpl. rewrite get_rename_other by exact Hk. now rewrite C1.
Qed.

Lemma title_update_renames_and_reruns_witness :
  let s := push_msg "user" "what is phishing" fresh_session in
  exists s' r,
    _maybe_update_title_after_first_turn env0 s = (Rerun, s') /\
    Dict.get "c1" (convos s') =
      Some (mkConversation r [("user", "what is phishing")]) /\
    ~ In r (existing_names (convos s)) /\
    r <> "New Chat" /\
    (forall k, k <> "c1" -> Dict.get k (convos s') = Dict.get k (convos s)).
Proof.
  apply (title_update_renames_and_reruns env0
           (push_msg "user" "what is phishing" fresh_session) "c1"
           (mkConversation "New Chat" [("user", "what is phishing")])).
  - reflexivity.
  - reflexivity.
  - reflexivity.
  - left. reflexivity.
Defined.

(** X26. A conversation that the user has named, or that holds no user message
    or more than two, is left alone by the title update: nothing changes
    and the script is not rerun. *)
Theorem title_update_skips_named_and_older_chats env s a c :
  active_id s = Some a ->
  Dict.get a (convos s) = Some c ->
  is_default_name (name c) = false \/
  length (user_turns (history c)) = 0 \/ 3 <= length (user_turns (history c)) ->
  _maybe_update_title_after_first_turn env s = (Ret tt, s).
Proof.
  intros Ha Hc H. unfold _maybe_update_title_after_first_turn.
  rewrite (bind_ret _ _ _ _ _ _ (lookup_active_run env s a c Ha Hc)).
  destruct (Nat.eqb (length (user_turns (history c))) 1 ||
            Nat.eqb (length (user_turns (history c))) 2) eqn:Hn; cbn [when];
    [|reflexivity].
  destruct H as [Hd|Hl].
  - rewrite run_gets, Ha. unfold auto_title_if_needed.
    rewrite run_assoc, (run_lookup _ env s a c Hc), Hd. cbn [negb].
    rewrite run_ret.
    rewrite (bind_ret _ _ _ _ _ _ (lookup_active_run env s a c Ha Hc)).
    now rewrite String.eqb_refl.
  - exfalso. apply orb_true_iff in Hn as [Hn|Hn]; apply Nat.eqb_eq in Hn; lia.
Qed.

Lemma title_update_skips_named_and_older_chats_witness :
  _maybe_update_title_after_first_turn env_heads clash_session
  = (Ret tt, clash_session).
Proof.
  apply (title_update_skips_named_and_older_chats env_heads clash_session "c1"
           (mkConversation "Weather Today" [("user", "weather today")])).
  - reflexivity.
  - reflexivity.
  - left. reflexivity.
Defined.

(* ------------------------------------------------------------------ *)
(** ** Further properties: the password meter *)

Lemma any_char_impl (p q : ascii -> bool) s :
  (forall c, p c = true -> q c = true) ->
  any_char p s = true -> any_char q s = true.
Proof.
  intros H. induction s as [|c s IH]; simpl; [discriminate|].
  intros E. apply orb_true_iff in E as [E|E].
  - now rewrite (H c E).
  - rewrite (IH E). apply orb_true_r.
Qed.

Lemma game_symbol_is_meter_symbol c :
  char_in c SYMBOLS = true -> negb (is_word c || is_space c) = true.
Proof.
  destruct c as [[] [] [] [] [] [] [] []]; intros H; try reflexivity;
    discriminate H.
Qed.

(** What the meter computes, check by check. *)
Lemma signup_accepts_exactly_the_four_checks_aux password :
  Login.accepted password =
    Login.long_enough password && Login.mixed_case password &&
    Login.has_digit password && Login.has_other password /\
  (0 <= Login.score (Login.get_password_strength password) <= 4)%Z /\
  (Login.color (Login.get_password_strength password) = "green" <->
   Login.accepted password = true) /\
  Login.score (Login.get_password_strength password) =
    (Login.points (Login.long_enough password) +
     Login.points (Login.mixed_case password) +
     Login.points (Login.has_digit password) +
     Login.points (Login.has_other password))%Z.
Proof.
  unfold Login.accepted, Login.get_password_strength.
  destruct password as [|a p].
  - simpl. repeat split; try lia; try discriminate; try congruence.
  - assert (Hl : Nat.eqb (String.length (String a p)) 0 = false) by reflexivity.
    rewrite Hl. clear Hl.
    destruct (Login.long_enough (String a p)), (Login.mixed_case (String a p)),
             (Login.has_digit (String a p)), (Login.has_other (String a p));
      simpl; repeat split; try lia; try discriminate; try reflexivity.
Qed.

(** X27. The sign-up form accepts a password exactly when it passes the four
    checks of the meter: eight characters or more, a lowercase and an
    uppercase letter, a digit, and a character that is neither a word
    character nor whitespace. The score is the number of checks passed,
    and the meter is green exactly for the accepted passwords. This is for
    ASCII passwords, where characters are bytes and the classes are
    Python's. *)
Theorem signup_accepts_exactly_the_four_checks password :
  is_ascii password = true ->
  Login.accepted password =
    Login.long_enough password && Login.mixed_case password &&
    Login.has_digit password && Login.has_other password /\
  (0 <= Login.score (Login.get_password_strength password) <= 4)%Z /\
  (Login.color (Login.get_password_strength password) = "green" <->
   Login.accepted password = true) /\
  Login.score (Login.get_password_strength password) =
    (Login.points (Login.long_enough password) +
     Login.points (Login.mixed_case password) +
     Login.points (Login.has_digit password) +
     Login.points (Login.has_other password))%Z.
Proof. intros _. apply signup_accepts_exactly_the_four_checks_aux. Qed.

Lemma signup_accepts_exactly_the_four_checks_witness :
  let password := "Passw0rd!" in
  is_ascii password = true /\
  Login.accepted password =
    Login.long_enough password && Login.mixed_case password &&
    Login.has_digit password && Login.has_other password /\
  (0 <= Login.score (Login.get_password_strength password) <= 4)%Z /\
  (Login.color (Login.get_password_strength password) = "green" <->
   Login.accepted password = true) /\
  Login.score (Login.get_password_strength password) =
    (Login.points (Login.long_enough password) +
     Login.points (Login.mixed_case password) +
     Login.points (Login.has_digit password) +
     Login.points (Login.has_other password))%Z.
Proof.
  split; [reflexivity|].
  apply (signup_accepts_exactly_the_four_checks "Passw0rd!" eq_refl).
Defined.

(** X28. An ASCII passphrase that wins the password game also passes the
    sign-up meter once it has eight characters and a lowercase letter:
    every symbol that the game counts is a symbol for the meter. *)
Theorem game_winner_passes_the_meter password :
  is_ascii password = true ->
  has_uppercase password = true ->
  has_number password = true ->
  has_symbol password = true ->
  any_char is_lower password = true ->
  8 <= String.length password ->
  Login.accepted password = true /\
  Login.color (Login.get_password_strength password) = "green".
Proof.
  intros _ Hu Hn Hs Hl H8.
  assert (A : Login.accepted password = true).
  { destruct (signup_accepts_exactly_the_four_checks_aux password) as (-> & _).
    unfold Login.long_enough, Login.mixed_case, Login.has_digit, Login.has_other.
    apply Nat.leb_le in H8. rewrite H8, Hl.
    unfold has_uppercase in Hu. rewrite Hu.
    unfold has_number in Hn. rewrite Hn.
    unfold has_symbol in Hs.
    now rewrite (any_char_impl _ _ _ game_symbol_is_meter_symbol Hs). }
  split; [exact A|].
  now apply (signup_accepts_exactly_the_four_checks_aux password).
Qed.

Lemma game_winner_passes_the_meter_witness :
  is_ascii "Passw0rd!" = true /\
  Login.accepted "Passw0rd!" = true /\
  Login.color (Login.get_password_strength "Passw0rd!") = "green".
Proof.
  split; [reflexivity|].
  apply (game_winner_passes_the_meter "Passw0rd!"); try reflexivity.
  simpl. lia.
Defined.
